(** * kperf load-generation engine: request generator, scheduler, name cache
      and response metric sink, embedded from [request/] and [metrics/].

    Conventions of the embedding.
    - Go [int] and [int64] are [Z] with the 64-bit two's-complement wrap
      written out ([Int64.wrap]).
    - Go [float64] is Rocq's primitive binary64 [float].
    - Go [error] is the message it carries; [nil] is [None].
    - Pointers to mutable objects (the cache, the postDel builder, the metric
      sink) become explicit state passing: a method returns the new state.
    - Everything the code reads from outside (random draws, the clock, the
      outcome of a network round trip, which cases of a [select] are ready
      and which of them it takes) is an explicit argument.
    - The goroutines meet at the unbuffered channel of builders: the turn of
      the loop of [Run] that sends a builder also runs the turn of the worker
      that receives it.  [Schedule] gathers after [wg.Wait()], when every
      such turn has ended.
    - Logging ([klog], [fmt.Println]) is left out. *)

From Stdlib Require Import ZArith List String Ascii Bool Lia.
From Stdlib Require Import Floats.PrimFloat Numbers.Cyclic.Int63.Uint63.
From Stdlib Require Import DecimalString.
From Stdlib Require DecimalPos DecimalZ.
From Stdlib Require Import Permutation.
Import ListNotations.
Open Scope string_scope.
Open Scope list_scope.
Open Scope Z_scope.

(** Go's [error] values, by message. *)
Definition error := string.

(** ** 64-bit integers *)
Module Int64.

Definition min : Z := - 2 ^ 63.
Definition max : Z := 2 ^ 63 - 1.

Definition in_range (z : Z) : Prop := min <= z <= max.

(** Two's-complement wrap-around of an exact result. *)
Definition wrap (z : Z) : Z := (z + 2 ^ 63) mod 2 ^ 64 - 2 ^ 63.

(** [float64(x)] for an [int64] [x]; exact below 2^53. *)
Definition to_float64 (z : Z) : float :=
  if z =? min
  then PrimFloat.opp
         (PrimFloat.mul PrimFloat.two
                        (PrimFloat.of_uint63 (Uint63.of_Z (2 ^ 62))))
  else if z <? 0 then PrimFloat.opp (PrimFloat.of_uint63 (Uint63.of_Z (- z)))
  else PrimFloat.of_uint63 (Uint63.of_Z z).

(** The verb [%d] of [fmt.Sprintf]. *)
Definition fmt_d (z : Z) : string := NilZero.string_of_int (Z.to_int z).

End Int64.

(** ** package metrics: the response metric sink ([metrics/request.go]) *)
Module metrics.

(** What the local Prometheus registry hands back when it is gathered: an
    error, or the metric families, each with its metrics, each with the
    quantiles of its summary as (quantile, value) pairs. *)
Inductive RegistryGather :=
| GatherFailed (err : error)
| Gathered (metricFamilies : list (list (list (float * float)))).

(** [responseMetricImpl]; the summary vector is the sequence of the
    latencies it has observed. *)
Record responseMetricImpl := {
  latencySeconds : list float;
  failureCount : Z;
  failureList : list error
}.

Definition NewResponseMetric : responseMetricImpl :=
  {| latencySeconds := []; failureCount := 0; failureList := [] |}.

Definition ObserveLatency (m : responseMetricImpl) (seconds : float)
  : responseMetricImpl :=
  {| latencySeconds := latencySeconds m ++ [seconds];
     failureCount := failureCount m;
     failureList := failureList m |}.

(** [append] to the list, then [atomic.AddInt64(&m.failureCount, 1)]. *)
Definition ObserveFailure (m : responseMetricImpl) (err : error)
  : responseMetricImpl :=
  {| latencySeconds := latencySeconds m;
     failureCount := Int64.wrap (failureCount m + 1);
     failureList := failureList m ++ [err] |}.

(** [latencies[q] = v] on a Go map keyed by [float64]. *)
Fixpoint map_set (m : list (float * float)) (q v : float)
  : list (float * float) :=
  match m with
  | [] => [(q, v)]
  | (q', v') :: rest =>
      if PrimFloat.eqb q' q then (q', v) :: rest
      else (q', v') :: map_set rest q v
  end.

(** The four results of [Gather], in the order of its signature. *)
Record GatherResult := {
  latencies : option (list (float * float));
  failure : Z;
  gatherErr : option error;
  gatherFailureList : list error
}.

(** [None]: an index out of range, at [metricFamilies[0]] or at
    [GetMetric()[0]]. *)
Definition Gather (reg : list float -> RegistryGather)
    (m : responseMetricImpl) : option GatherResult :=
  let failureList := failureList m in
  match reg (latencySeconds m) with
  | GatherFailed err =>
      Some {| latencies := None;
              failure := 0;
              gatherErr :=
                Some ("failed to gather from local registry: " ++ err)%string;
              gatherFailureList := failureList |}
  | Gathered metricFamilies =>
      match metricFamilies with
      | [] => None
      | family :: _ =>
          match family with
          | [] => None
          | quantiles :: _ =>
              Some {| latencies :=
                        Some (fold_left
                                (fun acc q => map_set acc (fst q) (snd q))
                                quantiles []);
                      failure := failureCount m;
                      gatherErr := None;
                      gatherFailureList := failureList |}
          end
      end
  end.

(** The observer calls made on a sink, for stating what any sequence of
    them does. *)
Inductive SinkOp :=
| OpLatency (seconds : float)
| OpFailure (err : error).

Definition observe (m : responseMetricImpl) (op : SinkOp)
  : responseMetricImpl :=
  match op with
  | OpLatency seconds => ObserveLatency m seconds
  | OpFailure err => ObserveFailure m err
  end.

Definition observe_all (ops : list SinkOp) (m : responseMetricImpl)
  : responseMetricImpl :=
  fold_left observe ops m.

Definition failures_in (ops : list SinkOp) : list error :=
  flat_map (fun op => match op with OpFailure e => [e] | _ => [] end) ops.

End metrics.

(** ** package request ([request/cache.go]) *)
Module request.

(** *** The name cache *)

(** [Cache]: the items of the [container/list], front first. *)
Definition Cache := list string.

Definition InitCache : Cache := [].

(** [Pop]: the name, the [ok] flag and the cache afterwards. *)
Definition Pop (c : Cache) : (string * bool) * Cache :=
  match c with
  | [] => (EmptyString, false, c)
  | name :: rest => (name, true, rest)
  end.

Definition Push (c : Cache) (name : string) : Cache := c ++ [name].

Definition Len (c : Cache) : Z := Z.of_nat (List.length c).

(** *** Contexts

    [context.Background()] and [context.WithCancel(parent)]; [site] tells
    apart the children made at different places.  A cancellation state is
    the list of the contexts whose [cancel] has been called. *)
Inductive Context :=
| Background
| WithCancel (parent : Context) (site : string).

Fixpoint Context_eqb (a b : Context) : bool :=
  match a, b with
  | Background, Background => true
  | WithCancel p s, WithCancel q t => String.eqb s t && Context_eqb p q
  | _, _ => false
  end.

(** [ctx.Done()] is closed: [ctx] or one of its ancestors was cancelled. *)
Fixpoint Done (cancelled : list Context) (ctx : Context) : bool :=
  match ctx with
  | Background => false
  | WithCancel parent _ =>
      existsb (Context_eqb ctx) cancelled || Done cancelled parent
  end.

(** *** The load profile ([api/types]), by the fields the package reads *)

Record RequestList := {
  List_Group : string;
  List_Version : string;
  List_Resource : string;
  List_Namespace : string;
  List_Limit : Z;
  List_Selector : string;
  List_FieldSelector : string
}.

Record RequestWatchList := {
  WatchList_Group : string;
  WatchList_Version : string;
  WatchList_Resource : string;
  WatchList_Namespace : string;
  WatchList_Selector : string;
  WatchList_FieldSelector : string
}.

Record RequestGet := {
  Get_Group : string;
  Get_Version : string;
  Get_Resource : string;
  Get_Namespace : string;
  Get_Name : string
}.

Record RequestGetPodLog := {
  PodLog_Namespace : string;
  PodLog_Name : string;
  PodLog_Container : string;
  PodLog_TailLines : option Z;
  PodLog_LimitBytes : option Z
}.

Record RequestPatch := {
  Patch_Group : string;
  Patch_Version : string;
  Patch_Resource : string;
  Patch_Namespace : string;
  Patch_Name : string;
  Patch_KeySpaceSize : Z;
  Patch_PatchType : string;
  Patch_Body : string
}.

Record RequestPostDel := {
  PostDel_Group : string;
  PostDel_Version : string;
  PostDel_Resource : string;
  PostDel_Namespace : string;
  PostDel_DeleteRatio : float
}.

(** One entry of [spec.Requests]; a kind is set when its pointer is not
    [nil]. *)
Record WeightedRequest := {
  Shares : Z;
  StaleList : option RequestList;
  QuorumList : option RequestList;
  WatchList : option RequestWatchList;
  StaleGet : option RequestGet;
  QuorumGet : option RequestGet;
  GetPodLog : option RequestGetPodLog;
  Patch : option RequestPatch;
  PostDel : option RequestPostDel
}.

Record LoadProfileSpec := {
  Rate : Z;
  Total : Z;
  Conns : Z;
  Client : Z;
  MaxRetries : Z;
  Requests : list WeightedRequest
}.

Record ResponseStats := {
  Stats_Total : Z;
  Stats_FailureList : list error;
  Stats_Duration : Z;
  Stats_TotalReceivedBytes : Z;
  Stats_PercentileLatencies : option (list (float * float))
}.

(** Code of the repository that the package calls and that lies outside it:
    [LoadProfileSpec.Validate] and [GetPatchType] of [api/types], and
    [RenderTemplate] of [contrib/utils] (its error is dropped by the
    caller). *)
Class Collaborators := {
  Validate : LoadProfileSpec -> option error;
  GetPatchType : string -> string;
  RenderTemplate : string -> list (string * string) -> string
}.

(** *** [rest.Request], as the calls the builders make on it *)

Record GroupVersion := { Group : string; Version : string }.

Record ListOptions := {
  LabelSelector : string;
  FieldSelector : string;
  ResourceVersion : string;
  Limit : Z;
  Watch : bool;
  SendInitialEvents : option bool;
  ResourceVersionMatch : string;
  AllowWatchBookmarks : bool
}.

Definition ResourceVersionMatchNotOlderThan : string := "NotOlderThan".

Inductive Params :=
| GetOptions (resourceVersion : string)
| OfListOptions (opts : ListOptions)
| PodLogOptions (container : string) (tailLines limitBytes : option Z).

(** A [rest.Interface] handle. *)
Definition Interface := nat.

Record Request := {
  client : Interface;
  verb : string;
  patchType : option string;
  absPath : list string;
  params : option (Params * GroupVersion);
  body : option string;
  maxRetries : Z;
  timeout : option Z
}.

Definition newRequest (cli : Interface) (verb : string)
    (pt : option string) : Request :=
  {| client := cli; verb := verb; patchType := pt; absPath := [];
     params := None; body := None; maxRetries := 0; timeout := None |}.

Definition cli_Get (cli : Interface) := newRequest cli "GET" None.
Definition cli_Post (cli : Interface) := newRequest cli "POST" None.
Definition cli_Delete (cli : Interface) := newRequest cli "DELETE" None.
Definition cli_Patch (cli : Interface) (pt : string) :=
  newRequest cli "PATCH" (Some pt).

Definition AbsPath (comps : list string) (r : Request) : Request :=
  {| client := client r; verb := verb r; patchType := patchType r;
     absPath := comps; params := params r; body := body r;
     maxRetries := maxRetries r; timeout := timeout r |}.

Definition SpecificallyVersionedParams (p : Params) (gv : GroupVersion)
    (r : Request) : Request :=
  {| client := client r; verb := verb r; patchType := patchType r;
     absPath := absPath r; params := Some (p, gv); body := body r;
     maxRetries := maxRetries r; timeout := timeout r |}.

Definition Body (b : string) (r : Request) : Request :=
  {| client := client r; verb := verb r; patchType := patchType r;
     absPath := absPath r; params := params r; body := Some b;
     maxRetries := maxRetries r; timeout := timeout r |}.

Definition SetMaxRetries (n : Z) (r : Request) : Request :=
  {| client := client r; verb := verb r; patchType := patchType r;
     absPath := absPath r; params := params r; body := body r;
     maxRetries := n; timeout := timeout r |}.

Definition Timeout (d : Z) (r : Request) : Request :=
  {| client := client r; verb := verb r; patchType := patchType r;
     absPath := absPath r; params := params r; body := body r;
     maxRetries := maxRetries r; timeout := Some d |}.

Definition v1 : GroupVersion := {| Group := ""; Version := "v1" |}.

(** *** Requesters *)

Record BaseRequester := { method : string; req : Request }.

Record PostDelDiscardRequester := {
  name : string;
  operation : string;
  discard : BaseRequester
}.

Inductive Requester :=
| DiscardRequester (base : BaseRequester)
| WatchListRequester (base : BaseRequester)
| PostDelRequester (r : PostDelDiscardRequester).

Definition Requester_base (r : Requester) : BaseRequester :=
  match r with
  | DiscardRequester base => base
  | WatchListRequester base => base
  | PostDelRequester r => discard r
  end.

(** *** The outside world of one [Build] call *)

(** [rand.Int(rand.Reader, big.NewInt(max))]: some value of [0, max), here
    read off the entropy the reader delivers; it panics when [max <= 0]. *)
Definition rand_Int (entropy max : Z) : option Z :=
  if max <=? 0 then None else Some (entropy mod max).

Record BuildEnv := {
  entropy : Z;   (* what [rand.Reader] delivers to this call *)
  unixNano : Z   (* [time.Now().UnixNano()] *)
}.

(** The path prefix every builder but the pod-log one starts with. *)
Definition groupVersionPath (version : GroupVersion) (namespace : string)
  : list string :=
  let comps :=
    if String.eqb (Group version) "" then ["api"; Version version]
    else ["apis"; Group version; Version version] in
  if String.eqb namespace "" then comps
  else comps ++ ["namespaces"; namespace].

(** *** Builders *)

Record requestGetBuilder := {
  get_version : GroupVersion;
  get_resource : string;
  get_namespace : string;
  get_name : string;
  get_resourceVersion : string;
  get_maxRetries : Z
}.

Definition newRequestGetBuilder (src : RequestGet)
    (resourceVersion : string) (maxRetries : Z) : requestGetBuilder :=
  {| get_version := {| Group := Get_Group src; Version := Get_Version src |};
     get_resource := Get_Resource src;
     get_namespace := Get_Namespace src;
     get_name := Get_Name src;
     get_resourceVersion := resourceVersion;
     get_maxRetries := maxRetries |}.

Definition requestGetBuilder_Build (b : requestGetBuilder)
    (cli : Interface) : Requester :=
  let comps := groupVersionPath (get_version b) (get_namespace b) in
  let comps := comps ++ [get_resource b; get_name b] in
  DiscardRequester
    {| method := "GET";
       req := SetMaxRetries (get_maxRetries b)
                (SpecificallyVersionedParams
                   (GetOptions (get_resourceVersion b)) v1
                   (AbsPath comps (cli_Get cli))) |}.

Record requestListBuilder := {
  list_version : GroupVersion;
  list_resource : string;
  list_namespace : string;
  list_limit : Z;
  list_labelSelector : string;
  list_fieldSelector : string;
  list_resourceVersion : string;
  list_maxRetries : Z
}.

Definition newRequestListBuilder (src : RequestList)
    (resourceVersion : string) (maxRetries : Z) : requestListBuilder :=
  {| list_version :=
       {| Group := List_Group src; Version := List_Version src |};
     list_resource := List_Resource src;
     list_namespace := List_Namespace src;
     list_limit := List_Limit src;
     list_labelSelector := List_Selector src;
     list_fieldSelector := List_FieldSelector src;
     list_resourceVersion := resourceVersion;
     list_maxRetries := maxRetries |}.

Definition requestListBuilder_Build (b : requestListBuilder)
    (cli : Interface) : Requester :=
  let comps := groupVersionPath (list_version b) (list_namespace b) in
  let comps := comps ++ [list_resource b] in
  DiscardRequester
    {| method := "LIST";
       req := SetMaxRetries (list_maxRetries b)
                (SpecificallyVersionedParams
                   (OfListOptions
                      {| LabelSelector := list_labelSelector b;
                         FieldSelector := list_fieldSelector b;
                         ResourceVersion := list_resourceVersion b;
                         Limit := list_limit b;
                         Watch := false;
                         SendInitialEvents := None;
                         ResourceVersionMatch := "";
                         AllowWatchBookmarks := false |}) v1
                   (AbsPath comps (cli_Get cli))) |}.

Record requestWatchListBuilder := {
  watch_version : GroupVersion;
  watch_resource : string;
  watch_namespace : string;
  watch_labelSelector : string;
  watch_fieldSelector : string;
  watch_maxRetries : Z
}.

Definition newRequestWatchListBuilder (src : RequestWatchList)
    (maxRetries : Z) : requestWatchListBuilder :=
  {| watch_version :=
       {| Group := WatchList_Group src; Version := WatchList_Version src |};
     watch_resource := WatchList_Resource src;
     watch_namespace := WatchList_Namespace src;
     watch_labelSelector := WatchList_Selector src;
     watch_fieldSelector := WatchList_FieldSelector src;
     watch_maxRetries := maxRetries |}.

Definition requestWatchListBuilder_Build (b : requestWatchListBuilder)
    (cli : Interface) : Requester :=
  let comps := groupVersionPath (watch_version b) (watch_namespace b) in
  let comps := comps ++ [watch_resource b] in
  WatchListRequester
    {| method := "WATCHLIST";
       req := SetMaxRetries (watch_maxRetries b)
                (SpecificallyVersionedParams
                   (OfListOptions
                      {| LabelSelector := watch_labelSelector b;
                         FieldSelector := watch_fieldSelector b;
                         ResourceVersion := "";
                         Limit := 0;
                         Watch := true;
                         SendInitialEvents := Some true;
                         ResourceVersionMatch :=
                           ResourceVersionMatchNotOlderThan;
                         AllowWatchBookmarks := true |}) v1
                   (AbsPath comps (cli_Get cli))) |}.

Record requestGetPodLogBuilder := {
  log_namespace : string;
  log_name : string;
  log_container : string;
  log_tailLines : option Z;
  log_limitBytes : option Z;
  log_maxRetries : Z
}.

Definition newRequestGetPodLogBuilder (src : RequestGetPodLog)
    (maxRetries : Z) : requestGetPodLogBuilder :=
  {| log_namespace := PodLog_Namespace src;
     log_name := PodLog_Name src;
     log_container := PodLog_Container src;
     log_tailLines := PodLog_TailLines src;
     log_limitBytes := PodLog_LimitBytes src;
     log_maxRetries := maxRetries |}.

Definition requestGetPodLogBuilder_Build (b : requestGetPodLogBuilder)
    (cli : Interface) : Requester :=
  let comps := ["api"; "v1"] in
  let comps := comps ++ ["namespaces"; log_namespace b] in
  let comps := comps ++ ["pods"; log_name b; "log"] in
  DiscardRequester
    {| method := "POD_LOG";
       req := SetMaxRetries (log_maxRetries b)
                (SpecificallyVersionedParams
                   (PodLogOptions (log_container b) (log_tailLines b)
                                  (log_limitBytes b)) v1
                   (AbsPath comps (cli_Get cli))) |}.

Record requestPatchBuilder := {
  patch_version : GroupVersion;
  patch_resource : string;
  patch_resourceVersion : string;
  patch_namespace : string;
  patch_name : string;
  patch_keySpaceSize : Z;
  patch_patchType : string;
  patch_body : string;
  patch_maxRetries : Z
}.

Definition newRequestPatchBuilder `{Collaborators} (src : RequestPatch)
    (resourceVersion : string) (maxRetries : Z) : requestPatchBuilder :=
  let patchType := GetPatchType (Patch_PatchType src) in
  {| patch_version :=
       {| Group := Patch_Group src; Version := Patch_Version src |};
     patch_resource := Patch_Resource src;
     patch_resourceVersion := resourceVersion;
     patch_namespace := Patch_Namespace src;
     patch_name := Patch_Name src;
     patch_keySpaceSize := Patch_KeySpaceSize src;
     patch_patchType := patchType;
     patch_body := Patch_Body src;
     patch_maxRetries := maxRetries |}.

(** [None]: [rand.Int] panicked. *)
Definition requestPatchBuilder_Build (b : requestPatchBuilder)
    (cli : Interface) (env : BuildEnv) : option Requester :=
  let comps := groupVersionPath (patch_version b) (patch_namespace b) in
  match rand_Int (entropy env) (patch_keySpaceSize b) with
  | None => None
  | Some suffix =>
      let finalName := (patch_name b ++ "-" ++ Int64.fmt_d suffix)%string in
      let comps := comps ++ [patch_resource b; finalName] in
      Some (DiscardRequester
              {| method := "PATCH";
                 req := SetMaxRetries (patch_maxRetries b)
                          (Body (patch_body b)
                             (AbsPath comps
                                (cli_Patch cli (patch_patchType b)))) |})
  end.

(** The postDel builder with what it owns: its cache and its counter. *)
Record requestPostDelBuilder := {
  pd_version : GroupVersion;
  pd_resource : string;
  pd_resourceVersion : string;
  pd_namespace : string;
  deleteRatio : float;
  pd_maxRetries : Z;
  cache : Cache;
  resourceCounter : Z
}.

Definition newRequestPostDelBuilder (src : RequestPostDel)
    (resourceVersion : string) (maxRetries : Z) : requestPostDelBuilder :=
  {| pd_version :=
       {| Group := PostDel_Group src; Version := PostDel_Version src |};
     pd_resource := PostDel_Resource src;
     pd_resourceVersion := resourceVersion;
     pd_namespace := PostDel_Namespace src;
     deleteRatio := PostDel_DeleteRatio src;
     pd_maxRetries := maxRetries;
     cache := InitCache;
     resourceCounter := 0 |}.

Definition set_cache (b : requestPostDelBuilder) (c : Cache)
  : requestPostDelBuilder :=
  {| pd_version := pd_version b; pd_resource := pd_resource b;
     pd_resourceVersion := pd_resourceVersion b;
     pd_namespace := pd_namespace b; deleteRatio := deleteRatio b;
     pd_maxRetries := pd_maxRetries b; cache := c;
     resourceCounter := resourceCounter b |}.

Definition set_resourceCounter (b : requestPostDelBuilder) (n : Z)
  : requestPostDelBuilder :=
  {| pd_version := pd_version b; pd_resource := pd_resource b;
     pd_resourceVersion := pd_resourceVersion b;
     pd_namespace := pd_namespace b; deleteRatio := deleteRatio b;
     pd_maxRetries := pd_maxRetries b; cache := cache b;
     resourceCounter := n |}.

(** [float64(randomInt.Int64())/1000.0] *)
Definition drawRatio (randomInt : Z) : float :=
  PrimFloat.div (Int64.to_float64 randomInt) 1000%float.

(** [float64(randomInt.Int64())/1000.0 < b.deleteRatio] *)
Definition shouldDelete (randomInt : Z) (ratio : float) : bool :=
  PrimFloat.ltb (drawRatio randomInt) ratio.

(** The POST branch of [Build], on the path prefix [comps]. *)
Definition buildPost `{Collaborators} (b : requestPostDelBuilder)
    (cli : Interface) (env : BuildEnv) (comps : list string)
  : PostDelDiscardRequester * requestPostDelBuilder :=
  let comps := comps ++ [pd_resource b] in
  let counter := Int64.wrap (resourceCounter b + 1) in
  let b := set_resourceCounter b counter in
  let timestamp := unixNano env in
  let name :=
    (Int64.fmt_d timestamp ++ "-" ++ Int64.fmt_d counter)%string in
  let body :=
    RenderTemplate (pd_resource b)
      [("namePattern", name); ("namespace", pd_namespace b)] in
  ({| name := name;
      operation := "POST";
      discard :=
        {| method := "POST";
           req := SetMaxRetries (pd_maxRetries b)
                    (Body body (AbsPath comps (cli_Post cli))) |} |},
   b).

(** The requester and the builder afterwards; [None]: [rand.Int]
    panicked. *)
Definition requestPostDelBuilder_Build `{Collaborators}
    (b : requestPostDelBuilder) (cli : Interface) (env : BuildEnv)
  : option (PostDelDiscardRequester * requestPostDelBuilder) :=
  let comps := groupVersionPath (pd_version b) (pd_namespace b) in
  match rand_Int (entropy env) 1000 with
  | None => None
  | Some randomInt =>
      if shouldDelete randomInt (deleteRatio b) then
        match Pop (cache b) with
        | (name, true, rest) =>
            let comps := comps ++ [pd_resource b; name] in
            Some ({| name := name;
                     operation := "DELETE";
                     discard :=
                       {| method := "DELETE";
                          req := SetMaxRetries (pd_maxRetries b)
                                   (AbsPath comps (cli_Delete cli)) |} |},
                  set_cache b rest)
        | (_, false, _) => Some (buildPost b cli env comps)
        end
      else Some (buildPost b cli env comps)
  end.

(** [PostDelDiscardRequester.Do], given what the embedded
    [DiscardRequester.Do] returned; [b] is the builder [reqr.builder]
    points to. *)
Definition PostDelDiscardRequester_Do (reqr : PostDelDiscardRequester)
    (result : Z * option error) (b : requestPostDelBuilder)
  : (Z * option error) * requestPostDelBuilder :=
  let (bytes, err) := result in
  let b :=
    if String.eqb (operation reqr) "POST" then
      match err with
      | None => set_cache b (Push (cache b) (name reqr))
      | Some _ => b
      end
    else if String.eqb (operation reqr) "DELETE" then
      match err with
      | Some _ => set_cache b (Push (cache b) (name reqr))
      | None => b
      end
    else b in
  ((bytes, err), b).

(** [RESTRequestBuilder]: the implementations of the interface. *)
Inductive RESTRequestBuilder :=
| GetBuilder (b : requestGetBuilder)
| ListBuilder (b : requestListBuilder)
| WatchListBuilder (b : requestWatchListBuilder)
| GetPodLogBuilder (b : requestGetPodLogBuilder)
| PatchBuilder (b : requestPatchBuilder)
| PostDelBuilder (b : requestPostDelBuilder).

(** [builder.Build(cli)] through the interface. *)
Definition Build `{Collaborators} (builder : RESTRequestBuilder)
    (cli : Interface) (env : BuildEnv)
  : option (Requester * RESTRequestBuilder) :=
  match builder with
  | GetBuilder b => Some (requestGetBuilder_Build b cli, builder)
  | ListBuilder b => Some (requestListBuilder_Build b cli, builder)
  | WatchListBuilder b => Some (requestWatchListBuilder_Build b cli, builder)
  | GetPodLogBuilder b => Some (requestGetPodLogBuilder_Build b cli, builder)
  | PatchBuilder b =>
      match requestPatchBuilder_Build b cli env with
      | Some r => Some (r, builder)
      | None => None
      end
  | PostDelBuilder b =>
      match requestPostDelBuilder_Build b cli env with
      | Some (r, b') => Some (PostDelRequester r, PostDelBuilder b')
      | None => None
      end
  end.

(** *** The weighted random generator *)

Record WeightedRandomRequests := {
  ctx : Context;
  shares : list Z;
  reqBuilders : list RESTRequestBuilder
}.

(** The [switch] of [NewWeightedRandomRequests]; [None] is its [default]
    case. *)
Definition newBuilder `{Collaborators} (spec : LoadProfileSpec)
    (r : WeightedRequest) : option RESTRequestBuilder :=
  match StaleList r, QuorumList r, WatchList r, StaleGet r with
  | Some src, _, _, _ =>
      Some (ListBuilder (newRequestListBuilder src "0" (MaxRetries spec)))
  | None, Some src, _, _ =>
      Some (ListBuilder (newRequestListBuilder src "" (MaxRetries spec)))
  | None, None, Some src, _ =>
      Some (WatchListBuilder (newRequestWatchListBuilder src (MaxRetries spec)))
  | None, None, None, Some src =>
      Some (GetBuilder (newRequestGetBuilder src "0" (MaxRetries spec)))
  | None, None, None, None =>
      match QuorumGet r, GetPodLog r, Patch r, PostDel r with
      | Some src, _, _, _ =>
          Some (GetBuilder (newRequestGetBuilder src "" (MaxRetries spec)))
      | None, Some src, _, _ =>
          Some (GetPodLogBuilder
                  (newRequestGetPodLogBuilder src (MaxRetries spec)))
      | None, None, Some src, _ =>
          Some (PatchBuilder (newRequestPatchBuilder src "" (MaxRetries spec)))
      | None, None, None, Some src =>
          Some (PostDelBuilder
                  (newRequestPostDelBuilder src "" (MaxRetries spec)))
      | None, None, None, None => None
      end
  end.

(** The loop over [spec.Requests]. *)
Fixpoint newBuilders `{Collaborators} (spec : LoadProfileSpec)
    (rs : list WeightedRequest) (shares : list Z)
    (reqBuilders : list RESTRequestBuilder)
  : (list Z * list RESTRequestBuilder) + error :=
  match rs with
  | [] => inl (shares, reqBuilders)
  | r :: rest =>
      let shares := shares ++ [Shares r] in
      match newBuilder spec r with
      | None => inr "not implement for PUT yet"
      | Some builder => newBuilders spec rest shares (reqBuilders ++ [builder])
      end
  end.

Definition NewWeightedRandomRequests `{Collaborators}
    (spec : LoadProfileSpec) : WeightedRandomRequests + error :=
  match Validate spec with
  | Some err => inr ("invalid load profile spec: " ++ err)%string
  | None =>
      match newBuilders spec (Requests spec) [] [] with
      | inr err => inr err
      | inl (shares, reqBuilders) =>
          inl {| ctx := WithCancel Background "NewWeightedRandomRequests";
                 shares := shares;
                 reqBuilders := reqBuilders |}
      end
  end.

(** [sum := 0; for _, s := range r.shares { sum += s }] *)
Definition sumShares (shares : list Z) : Z :=
  fold_left (fun sum s => Int64.wrap (sum + s)) shares 0.

(** The second loop of [randomPick], from index [i] on; [None] is
    [panic("unreachable")]. *)
Fixpoint pickLoop (shares : list Z) (i : nat) (rnd : Z) : option nat :=
  match shares with
  | [] => None
  | s :: rest =>
      if rnd <? s then Some i else pickLoop rest (S i) (Int64.wrap (rnd - s))
  end.

(** [randomPick]: the index into [r.reqBuilders] of the builder it
    returns; [None] when it panics. *)
Definition randomPick (r : WeightedRandomRequests) (entropy : Z)
  : option nat :=
  match rand_Int entropy (sumShares (shares r)) with
  | None => None
  | Some rnd =>
      match pickLoop (shares r) 0 rnd with
      | None => None
      | Some i =>
          match nth_error (reqBuilders r) i with
          | Some _ => Some i
          | None => None
          end
      end
  end.

(** [Stop]: cancels the generator's context (then waits for [Run] and
    closes the channel). *)
Definition Stop (r : WeightedRandomRequests) (cancelled : list Context)
  : list Context :=
  ctx r :: cancelled.

(** *** [Run] and its [select] *)

Inductive SelectCase := CaseSend | CaseGenDone | CaseCtxDone.

(** Go's [select]: it blocks while no case is ready, and otherwise takes
    one of the ready cases, picked at random ([choice]). *)
Definition select (ready : list SelectCase) (choice : nat)
  : option SelectCase :=
  nth_error ready (Nat.modulo choice (List.length ready)).

(** The world around one iteration of [Run]'s loop: the entropy
    [randomPick] reads, the contexts cancelled from outside by the time the
    [select] completes, the random choice of the [select], and the state of
    the receiving side ([peer]). *)
Record RunEnv (P : Type) := {
  pickEntropy : Z;
  cancelled : list Context;
  choice : nat;
  peer : P
}.
Arguments pickEntropy {P}.
Arguments cancelled {P}.
Arguments choice {P}.
Arguments peer {P}.

Inductive RunExit := ByTotal | ByGenCtx | ByCallerCtx.

Inductive RunStatus :=
| Running
| Blocked                      (* in a [select] that never completes *)
| Returned (why : RunExit)
| Panicked.

(** [sum], the builders sent so far (by index) and the receiving side. *)
Record RunState (W : Type) := {
  status : RunStatus;
  sum : Z;
  sent : list nat;
  receivers : W
}.
Arguments status {W}.
Arguments sum {W}.
Arguments sent {W}.
Arguments receivers {W}.

Definition set_status {W} (st : RunState W) (s : RunStatus) : RunState W :=
  {| status := s; sum := sum st; sent := sent st;
     receivers := receivers st |}.

Section Run.

(** The goroutines at the other end of the channel: whether one of them
    is waiting to receive, what a received builder makes them do (or
    [None] when one panics), and the contexts they have cancelled. *)
Context {P W : Type}.
Variable ready : P -> W -> bool.
Variable receive : nat -> P -> list Context -> W -> option W.
Variable cancels : W -> list Context.

(** The contexts cancelled by the time the [select] completes. *)
Definition cancelledAt (e : RunEnv P) (w : W) : list Context :=
  cancelled e ++ cancels w.

(** The cases of the [select] of [Run] that can proceed. *)
Definition readyCases (r : WeightedRandomRequests) (callerCtx : Context)
    (e : RunEnv P) (w : W) : list SelectCase :=
  let cs := cancelledAt e w in
  (if ready (peer e) w then [CaseSend] else [])
  ++ (if Done cs (ctx r) then [CaseGenDone] else [])
  ++ (if Done cs callerCtx then [CaseCtxDone] else []).

(** One iteration of the [for] loop of [Run]. *)
Definition Run_step (r : WeightedRandomRequests) (callerCtx : Context)
    (total : Z) (e : RunEnv P) (st : RunState W) : RunState W :=
  match status st with
  | Running =>
      if (0 <? total) && (total <=? sum st) then
        set_status st (Returned ByTotal)
      else
        match randomPick r (pickEntropy e) with
        | None => set_status st Panicked
        | Some builder =>
            let cs := cancelledAt e (receivers st) in
            match select (readyCases r callerCtx e (receivers st))
                         (choice e) with
            | None => set_status st Blocked
            | Some CaseSend =>
                match receive builder (peer e) cs (receivers st) with
                | None => set_status st Panicked
                | Some w =>
                    {| status := Running;
                       sum := Int64.wrap (sum st + 1);
                       sent := sent st ++ [builder];
                       receivers := w |}
                end
            | Some CaseGenDone => set_status st (Returned ByGenCtx)
            | Some CaseCtxDone => set_status st (Returned ByCallerCtx)
            end
        end
  | _ => st
  end.

(** [Run(ctx, total)] after [n] turns of its loop. *)
Fixpoint Run (r : WeightedRandomRequests) (callerCtx : Context)
    (total : Z) (env : nat -> RunEnv P) (w0 : W) (n : nat) : RunState W :=
  match n with
  | O => {| status := Running; sum := 0; sent := []; receivers := w0 |}
  | S k => Run_step r callerCtx total (env k) (Run r callerCtx total env w0 k)
  end.

End Run.

(** *** The scheduler *)

(** [60 * time.Second], in nanoseconds. *)
Definition defaultTimeout : Z := 60 * 1000000000.

Definition MaxInt32 : Z := 2 ^ 31 - 1.

(** The rate the limiter is made with (its burst is 10). *)
Definition limiterRate (spec : LoadProfileSpec) : Z :=
  let qps := Rate spec in
  if qps =? 0 then MaxInt32 else qps.

(** Modelled from the spec: the byte counter of the metric sink and
    [ObserveReceivedBytes], which [Schedule] calls and the sink under
    [metrics/] does not have; the spec gives the sink an atomic int64 byte
    counter next to the failure count and the failure list. *)
Record Sink := {
  metric : metrics.responseMetricImpl;
  receivedBytes : Z
}.

Definition ObserveReceivedBytes (s : Sink) (bytes : Z) : Sink :=
  {| metric := metric s;
     receivedBytes := Int64.wrap (receivedBytes s + bytes) |}.

Definition ObserveLatency (s : Sink) (seconds : float) : Sink :=
  {| metric := metrics.ObserveLatency (metric s) seconds;
     receivedBytes := receivedBytes s |}.

Definition ObserveFailure (s : Sink) (err : error) : Sink :=
  {| metric := metrics.ObserveFailure (metric s) err;
     receivedBytes := receivedBytes s |}.

Definition NewResponseMetric : Sink :=
  {| metric := metrics.NewResponseMetric; receivedBytes := 0 |}.

(** What the server and the network make of one request: [req.Stream]
    fails, or the body is copied to [io.Discard] ([bytes] copied, and the
    error of the copy if any). *)
Inductive StreamOutcome :=
| StreamFailed (err : error)
| StreamCopied (bytes : Z) (err : option error).

(** [req.Stream(ctx)] followed by [io.Copy]: a request whose context is
    done is abandoned, any other ends as the server and the network
    decide. *)
Definition Stream (cancelled : list Context) (ctx : Context)
    (o : StreamOutcome) : StreamOutcome :=
  if Done cancelled ctx then StreamFailed "context canceled" else o.

(** [limiter.Wait(ctx)]: an error at once when [ctx] is done, otherwise
    what the wait comes to ([waitErr]: the context can still end it). *)
Definition limiterWait (cancelled : list Context) (ctx : Context)
    (waitErr : option error) : option error :=
  if Done cancelled ctx then Some "context canceled" else waitErr.

(** The worker side of one hand-off: the worker blocked in the receive (if
    any), the world of its [Build] call, how its wait on the limiter ends,
    what its request comes to and the latency it measures. *)
Record WorkerEnv := {
  worker : option nat;
  buildEnv : BuildEnv;
  waitErr : option error;
  stream : StreamOutcome;
  seconds : float
}.

(** The worker goroutines: those that have returned, whether one of them
    called [cancel], the builders (which [Build] may change) and the
    sink. *)
Record Workers := {
  exited : list nat;
  cancelCalled : bool;
  builders : list RESTRequestBuilder;
  sink : Sink
}.

(** [lst[i] = x] on a slice. *)
Fixpoint set_nth {A} (l : list A) (i : nat) (x : A) : list A :=
  match l, i with
  | [], _ => []
  | _ :: rest, O => x :: rest
  | y :: rest, S j => y :: set_nth rest j x
  end.

(** The body the worker runs on one request, after the limiter let it
    through. *)
Definition observeRequest (cancelled : list Context) (e : WorkerEnv)
    (s : Sink) : Sink :=
  let s :=
    match Stream cancelled Background (stream e) with
    | StreamFailed err => ObserveFailure s err
    | StreamCopied bytes None => ObserveReceivedBytes s bytes
    | StreamCopied bytes (Some err) =>
        ObserveFailure (ObserveReceivedBytes s bytes) err
    end in
  ObserveLatency s (seconds e).

Section Workers.

Context `{Collaborators}.
Variable spec : LoadProfileSpec.
Variable restCli : list Interface.
(** The context [Schedule] derives for itself. *)
Variable ctx : Context.

(** A worker that has not returned is blocked in the receive. *)
Definition workerReady (e : WorkerEnv) (w : Workers) : bool :=
  match worker e with
  | Some k =>
      (Z.of_nat k <? Client spec) && negb (existsb (Nat.eqb k) (exited w))
  | None => false
  end.

(** One turn of [for builder := range reqBuilderCh] in worker [k]. *)
Definition workerReceive (builder : nat) (e : WorkerEnv)
    (cancelled : list Context) (w : Workers) : option Workers :=
  match worker e, nth_error (builders w) builder with
  | Some k, Some b =>
      match nth_error restCli (Nat.modulo k (List.length restCli)) with
      | None => None
      | Some cli =>
          match Build b cli (buildEnv e) with
          | None => None
          | Some (r, b') =>
              let builders := set_nth (builders w) builder b' in
              match limiterWait cancelled ctx (waitErr e) with
              | Some _ =>
                  Some {| exited := k :: exited w;
                          cancelCalled := true;
                          builders := builders;
                          sink := sink w |}
              | None =>
                  let req := Timeout defaultTimeout (req (Requester_base r)) in
                  Some {| exited := exited w;
                          cancelCalled := cancelCalled w;
                          builders := builders;
                          sink := observeRequest cancelled e (sink w) |}
              end
          end
      end
  | _, _ => None
  end.

Definition workerCancels (w : Workers) : list Context :=
  if cancelCalled w then [ctx] else [].

End Workers.

(** [ctx, cancel := context.WithCancel(ctx)] at the head of [Schedule]. *)
Definition scheduleCtx (callerCtx : Context) : Context :=
  WithCancel callerCtx "Schedule".

(** The workers as [Schedule] starts them. *)
Definition startWorkers (rndReqs : WeightedRandomRequests) : Workers :=
  {| exited := []; cancelCalled := false;
     builders := reqBuilders rndReqs;
     sink := NewResponseMetric |}.

(** [rndReqs.Run(ctx, spec.Total)] against the workers of [Schedule],
    after [n] turns of its loop. *)
Definition scheduleRun `{Collaborators} (callerCtx : Context)
    (spec : LoadProfileSpec) (restCli : list Interface)
    (rndReqs : WeightedRandomRequests) (env : nat -> RunEnv WorkerEnv)
    (n : nat) : RunState Workers :=
  let ctx := scheduleCtx callerCtx in
  Run (workerReady spec) (workerReceive restCli ctx) (workerCancels ctx)
      rndReqs ctx (Total spec) env (startWorkers rndReqs) n.

(** [Schedule] when [Run] returns within [fuel] turns of its loop: the
    stats and the error; [None]: it has not returned by then, or it panicked
    (no client to bind a worker to, a panic in a goroutine or in [Gather]).  After [Run]
    come [Stop] and [wg.Wait()], which change neither the sink nor the
    stats.  Of what [Gather] returns [Schedule] keeps the percentile
    latencies, the failure list and the byte count; it has no place for an
    error of [Gather], and the error it returns itself is [nil].
    [duration] is [time.Since(start)]. *)
Definition Schedule `{Collaborators}
    (reg : list float -> metrics.RegistryGather)
    (callerCtx : Context) (spec : LoadProfileSpec)
    (restCli : list Interface) (env : nat -> RunEnv WorkerEnv)
    (duration : Z) (fuel : nat)
  : option (option ResponseStats * option error) :=
  match NewWeightedRandomRequests spec with
  | inr err => Some (None, Some err)
  | inl rndReqs =>
      if (0 <? Client spec) && (Nat.eqb (List.length restCli) 0) then None
      else
        let st := scheduleRun callerCtx spec restCli rndReqs env fuel in
        match status st with
        | Returned _ =>
            match metrics.Gather reg (metric (sink (receivers st))) with
            | None => None
            | Some g =>
                Some (Some {| Stats_Total := Total spec;
                              Stats_FailureList := metrics.gatherFailureList g;
                              Stats_Duration := duration;
                              Stats_TotalReceivedBytes :=
                                receivedBytes (sink (receivers st));
                              Stats_PercentileLatencies :=
                                metrics.latencies g |},
                      None)
            end
        | _ => None
        end
  end.

End request.


(** * Notions used to state the properties *)

Import request.

(** Popping [n] times, collecting what comes out. *)
Fixpoint drain (n : nat) (c : Cache) : list string * Cache :=
  match n with
  | O => ([], c)
  | S k =>
      match Pop c with
      | (x, true, rest) => let (xs, c') := drain k rest in (x :: xs, c')
      | (_, false, c') => ([], c')
      end
  end.

(** One step of a single-threaded create/delete churn: [Build] against a
    client, then [Do] with what the round trip came to. *)
Definition churnStep `{Collaborators} (b : requestPostDelBuilder)
    (step : Interface * BuildEnv * (Z * option error))
  : option (PostDelDiscardRequester * requestPostDelBuilder) :=
  let '(cli, env, result) := step in
  match requestPostDelBuilder_Build b cli env with
  | None => None
  | Some (reqr, b1) =>
      Some (reqr, snd (PostDelDiscardRequester_Do reqr result b1))
  end.

(** A churn: the requesters built, in order, and the builder afterwards. *)
Fixpoint churn `{Collaborators} (b : requestPostDelBuilder)
    (steps : list (Interface * BuildEnv * (Z * option error)))
  : list PostDelDiscardRequester * requestPostDelBuilder :=
  match steps with
  | [] => ([], b)
  | step :: rest =>
      match churnStep b step with
      | None => ([], b)
      | Some (reqr, b') =>
          let (reqrs, b'') := churn b' rest in (reqr :: reqrs, b'')
      end
  end.

Definition isPost (reqr : PostDelDiscardRequester) : bool :=
  String.eqb (operation reqr) "POST".

(** The query parameters a requester's request carries. *)
Definition paramsOf (r : Requester) : option Params :=
  option_map fst (params (req (Requester_base r))).

(** The query parameters of the request built for one entry of the profile:
    the [switch] of [NewWeightedRandomRequests], then [Build]. *)
Definition builtParams `{Collaborators} (spec : LoadProfileSpec)
    (r : WeightedRequest) (cli : Interface) (env : BuildEnv)
  : option Params :=
  match newBuilder spec r with
  | None => None
  | Some builder =>
      match Build builder cli env with
      | None => None
      | Some (rq, _) => paramsOf rq
      end
  end.

(** [sum(shares[0..i])], exactly. *)
Definition prefixSum (shares : list Z) (i : nat) : Z :=
  fold_right Z.add 0 (firstn i shares).

(** What one turn of the loop of [Run] can do from a running state, as a
    relation between the state before and the state after. *)
Section RunStepSpec.

Context {P W : Type}.
Variable ready : P -> W -> bool.
Variable receive : nat -> P -> list Context -> W -> option W.
Variable cancels : W -> list Context.
Variable r : WeightedRandomRequests.
Variable callerCtx : Context.
Variable total : Z.

Inductive StepSpec (e : RunEnv P) (st : RunState W) : RunState W -> Prop :=
| StepTotal :
    0 < total <= sum st ->
    StepSpec e st (set_status st (Returned ByTotal))
| StepPickPanics :
    ~ 0 < total <= sum st ->
    randomPick r (pickEntropy e) = None ->
    StepSpec e st (set_status st Panicked)
| StepBlocks builder :
    ~ 0 < total <= sum st ->
    randomPick r (pickEntropy e) = Some builder ->
    select (readyCases ready cancels r callerCtx e (receivers st)) (choice e)
    = None ->
    StepSpec e st (set_status st Blocked)
| StepSends builder w :
    ~ 0 < total <= sum st ->
    randomPick r (pickEntropy e) = Some builder ->
    select (readyCases ready cancels r callerCtx e (receivers st)) (choice e)
    = Some CaseSend ->
    receive builder (peer e) (cancelledAt cancels e (receivers st))
            (receivers st) = Some w ->
    StepSpec e st {| status := Running;
                     sum := Int64.wrap (sum st + 1);
                     sent := sent st ++ [builder];
                     receivers := w |}
| StepReceiverPanics builder :
    ~ 0 < total <= sum st ->
    randomPick r (pickEntropy e) = Some builder ->
    select (readyCases ready cancels r callerCtx e (receivers st)) (choice e)
    = Some CaseSend ->
    receive builder (peer e) (cancelledAt cancels e (receivers st))
            (receivers st) = None ->
    StepSpec e st (set_status st Panicked)
| StepGenDone builder :
    ~ 0 < total <= sum st ->
    randomPick r (pickEntropy e) = Some builder ->
    select (readyCases ready cancels r callerCtx e (receivers st)) (choice e)
    = Some CaseGenDone ->
    StepSpec e st (set_status st (Returned ByGenCtx))
| StepCtxDone builder :
    ~ 0 < total <= sum st ->
    randomPick r (pickEntropy e) = Some builder ->
    select (readyCases ready cancels r callerCtx e (receivers st)) (choice e)
    = Some CaseCtxDone ->
    StepSpec e st (set_status st (Returned ByCallerCtx)).

End RunStepSpec.

(** Modelled from the spec: what [LoadProfileSpec.Validate] of [api/types],
    which is not under [src/], lets through, as far as the generator and the
    scheduler depend on it: at least one request, every share positive,
    [client >= 1], [conns >= 1], [rate >= 0] and [keySpaceSize >= 1] where
    [Patch] is used. *)
Definition validRequest (r : WeightedRequest) : bool :=
  (0 <? Shares r)
  && match Patch r with
     | Some p => 1 <=? Patch_KeySpaceSize p
     | None => true
     end.

Definition validProfile (spec : LoadProfileSpec) : bool :=
  negb (Nat.eqb (List.length (Requests spec)) 0)
  && forallb validRequest (Requests spec)
  && (1 <=? Client spec) && (1 <=? Conns spec) && (0 <=? Rate spec).

(** A builder whose [Build] cannot panic. *)
Definition buildable (b : RESTRequestBuilder) : Prop :=
  match b with
  | PatchBuilder pb => 0 < patch_keySpaceSize pb
  | _ => True
  end.

(** The request of a worker ended in an error. *)
Definition requestFailed (e : WorkerEnv) : bool :=
  match stream e with
  | StreamFailed _ => true
  | StreamCopied _ (Some _) => true
  | StreamCopied _ None => false
  end.

Section ScheduleNotions.

Context `{Collaborators}.
Variable callerCtx : Context.
Variable spec : LoadProfileSpec.
Variable restCli : list Interface.
Variable g : WeightedRandomRequests.
Variable env : nat -> RunEnv WorkerEnv.

(** The latencies the sink has observed after [n] turns of [Run]. *)
Definition observations (n : nat) : nat :=
  List.length
    (metrics.latencySeconds
       (metric (sink (receivers (scheduleRun callerCtx spec restCli g env n))))).

(** The failures the sink has listed after [n] turns of [Run]. *)
Definition failures (n : nat) : nat :=
  List.length
    (metrics.failureList
       (metric (sink (receivers (scheduleRun callerCtx spec restCli g env n))))).

(** Turn [k] handed a builder to a worker. *)
Definition handedOff (k : nat) : bool :=
  Nat.eqb
    (List.length (sent (scheduleRun callerCtx spec restCli g env (S k))))
    (S (List.length (sent (scheduleRun callerCtx spec restCli g env k)))).

(** Turn [k] handed a builder to a worker which the limiter let through:
    its request was run. *)
Definition requestRan (k : nat) : bool :=
  handedOff k
  && match limiterWait
             (cancelledAt (workerCancels (scheduleCtx callerCtx)) (env k)
                (receivers (scheduleRun callerCtx spec restCli g env k)))
             (scheduleCtx callerCtx) (waitErr (peer (env k))) with
     | None => true
     | Some _ => false
     end.

(** The requests run, and those of them that failed, in the first [n]
    turns. *)
Definition requestsRun (n : nat) : nat :=
  List.length (filter requestRan (seq 0 n)).

Definition requestsFailed (n : nat) : nat :=
  List.length
    (filter (fun k => requestRan k && requestFailed (peer (env k)))
            (seq 0 n)).

Definition requestsSucceeded (n : nat) : nat :=
  List.length
    (filter (fun k => requestRan k && negb (requestFailed (peer (env k))))
            (seq 0 n)).

End ScheduleNotions.

(** ** Sample inputs *)

(** A validator for the sample runs: the checks of [validProfile]. *)
Definition sampleCollaborators : Collaborators :=
  {| Validate := fun spec =>
       if validProfile spec then None else Some "invalid profile";
     GetPatchType := fun s => s;
     RenderTemplate := fun resource params => resource |}.

Definition samplePods : RequestList :=
  {| List_Group := ""; List_Version := "v1"; List_Resource := "pods";
     List_Namespace := "default"; List_Limit := 0; List_Selector := "";
     List_FieldSelector := "" |}.

Definition sampleRequest (shares : Z) (stale quorum : option RequestList)
  : WeightedRequest :=
  {| Shares := shares; StaleList := stale; QuorumList := quorum;
     WatchList := None; StaleGet := None; QuorumGet := None;
     GetPodLog := None; Patch := None; PostDel := None |}.

(** [total] requests, one worker, stale and quorum lists of pods at shares
    1 and 2. *)
Definition sampleSpec (total : Z) : LoadProfileSpec :=
  {| Rate := 0; Total := total; Conns := 1; Client := 1; MaxRetries := 0;
     Requests := [sampleRequest 1 (Some samplePods) None;
                  sampleRequest 2 None (Some samplePods)] |}.

Definition sampleGenerator : WeightedRandomRequests :=
  {| ctx := WithCancel Background "NewWeightedRandomRequests";
     shares := [1; 2];
     reqBuilders :=
       [ListBuilder (newRequestListBuilder samplePods "0" 0);
        ListBuilder (newRequestListBuilder samplePods "" 0)] |}.

Definition sampleWorkerEnv (w : option nat) : WorkerEnv :=
  {| worker := w;
     buildEnv := {| entropy := 0; unixNano := 1700000000000000000 |};
     waitErr := None;
     stream := StreamCopied 1024 None;
     seconds := 0.5%float |}.

(** Nothing is cancelled and worker 0 takes every builder. *)
Definition sampleEnv : nat -> RunEnv WorkerEnv :=
  fun k => {| pickEntropy := Z.of_nat k; cancelled := []; choice := 0%nat;
              peer := sampleWorkerEnv (Some 0%nat) |}.

Definition sampleCaller : Context := WithCancel Background "caller".

(** The caller cancels after the first hand-off, while the worker is busy. *)
Definition sampleCancelEnv : nat -> RunEnv WorkerEnv :=
  fun k =>
    match k with
    | O => sampleEnv O
    | S _ => {| pickEntropy := Z.of_nat k; cancelled := [sampleCaller];
                choice := 0%nat; peer := sampleWorkerEnv None |}
    end.

(** The registry hands back a family with a metric. *)
Definition gatherable (rg : metrics.RegistryGather) : bool :=
  match rg with
  | metrics.Gathered [] => false
  | metrics.Gathered ([] :: _) => false
  | _ => true
  end.

(** A registry that gathers one quantile of what was observed (and no family
    when nothing was), and one that fails. *)
Definition sampleRegistry : list float -> metrics.RegistryGather :=
  fun observed =>
    match observed with
    | [] => metrics.Gathered []
    | x :: _ => metrics.Gathered [[[(0.5%float, x)]]]
    end.

Definition failingRegistry : list float -> metrics.RegistryGather :=
  fun _ => metrics.GatherFailed "collect".

(** The stats [Schedule] makes of a sink and of what [Gather] returned. *)
Definition statsOf (spec : LoadProfileSpec) (duration : Z) (s : Sink)
    (g : metrics.GatherResult) : ResponseStats :=
  {| Stats_Total := Total spec;
     Stats_FailureList := metrics.gatherFailureList g;
     Stats_Duration := duration;
     Stats_TotalReceivedBytes := receivedBytes s;
     Stats_PercentileLatencies := metrics.latencies g |}.

(** A generator run on its own: the receiving side is a flag that says
    whether some goroutine is waiting on the channel. *)
Definition flagReady (waiting : bool) (_ : unit) : bool := waiting.
Definition flagReceive (_ : nat) (_ : bool) (_ : list Context) (w : unit)
  : option unit := Some w.
Definition flagCancels (_ : unit) : list Context := [].

Definition sampleRunEnv : nat -> RunEnv bool :=
  fun k => {| pickEntropy := Z.of_nat k; cancelled := []; choice := 0%nat;
              peer := true |}.

(** ** Notions for the builders and the churn *)

(** Whether [c] occurs in [s]. *)
Fixpoint occurs (c : ascii) (s : string) : bool :=
  match s with
  | EmptyString => false
  | String a rest => Ascii.eqb a c || occurs c rest
  end.

(** What follows the last ["-"] of [s] (all of [s] when it has none). *)
Fixpoint lastField (s : string) : string :=
  match s with
  | EmptyString => EmptyString
  | String a rest =>
      if occurs "-" rest then lastField rest
      else if Ascii.eqb a "-" then rest else s
  end.

(** The name the patch builder gives the resource with suffix [k]. *)
Definition patchName (b : requestPatchBuilder) (k : Z) : string :=
  (patch_name b ++ "-" ++ Int64.fmt_d k)%string.

(** One of the eight kinds of an entry is set. *)
Definition hasKind (r : WeightedRequest) : bool :=
  match StaleList r, QuorumList r, WatchList r, StaleGet r,
        QuorumGet r, GetPodLog r, Patch r, PostDel r with
  | None, None, None, None, None, None, None, None => false
  | _, _, _, _, _, _, _, _ => true
  end.

(** The requesters of a churn, each with the error of its round trip. *)
Definition churnLog `{Collaborators} (b : requestPostDelBuilder)
    (steps : list (Interface * BuildEnv * (Z * option error)))
  : list (PostDelDiscardRequester * option error) :=
  combine (fst (churn b steps)) (map (fun step => snd (snd step)) steps).

Definition succeeded (entry : PostDelDiscardRequester * option error) : bool :=
  match snd entry with
  | None => true
  | Some _ => false
  end.

(** The names of the POSTs that succeeded, and of the DELETEs that did. *)
Definition posted (log : list (PostDelDiscardRequester * option error))
  : list string :=
  map (fun e => name (fst e))
      (filter (fun e => isPost (fst e) && succeeded e) log).

Definition deleted (log : list (PostDelDiscardRequester * option error))
  : list string :=
  map (fun e => name (fst e))
      (filter (fun e => negb (isPost (fst e)) && succeeded e) log).

(** The group, version and namespace a path starts with, and what follows;
    [n] is the number of segments that follow for the kind of request. *)
Definition decodePath (n : nat) (path : list string)
  : option (GroupVersion * string * list string) :=
  let scoped gv rest :=
    if Nat.eqb (List.length rest) n then Some (gv, "", rest)
    else
      match rest with
      | "namespaces" :: ns :: tail =>
          if Nat.eqb (List.length tail) n then Some (gv, ns, tail) else None
      | _ => None
      end in
  match path with
  | "api" :: version :: rest =>
      scoped {| Group := ""; Version := version |} rest
  | "apis" :: group :: version :: rest =>
      scoped {| Group := group; Version := version |} rest
  | _ => None
  end.

(** A churn of jobs against one client: a POST that succeeds, a POST that
    fails, a DELETE that fails, a DELETE that succeeds and, the cache being
    empty again, a POST in place of a DELETE. *)
Definition samplePostDel : RequestPostDel :=
  {| PostDel_Group := "batch"; PostDel_Version := "v1";
     PostDel_Resource := "jobs"; PostDel_Namespace := "default";
     PostDel_DeleteRatio := 0.5%float |}.

Definition sampleChurn : list (Interface * BuildEnv * (Z * option error)) :=
  [ (7%nat, {| entropy := 900; unixNano := 5 |}, (10, None));
    (7%nat, {| entropy := 900; unixNano := 5 |}, (0, Some "conflict"));
    (7%nat, {| entropy := 100; unixNano := 6 |}, (0, Some "timeout"));
    (7%nat, {| entropy := 100; unixNano := 7 |}, (3, None));
    (7%nat, {| entropy := 100; unixNano := 7 |}, (3, None)) ].

(** The sample generator with its shares set to 0. *)
Definition idleGenerator : WeightedRandomRequests :=
  {| ctx := ctx sampleGenerator;
     shares := [0; 0];
     reqBuilders := reqBuilders sampleGenerator |}.


(** * The [nodepool add] command
      ([cmd/kperf/commands/virtualcluster/nodepool.go]) *)
Module nodepool.

(** The calls of [virtualcluster.CreateNodepool] that were made, each with
    the name of its batch and the node count it was given
    ([WithNodepoolCountOpt]), and the error the action returns. *)
Definition Outcome := (list (string * Z) * option error)%type.

(** The [for] loop of the action of [nodepoolAddCommand], from [i] on;
    [CreateNodepool name count] is what the call comes to; [None]: the loop
    has not ended within [fuel] turns. *)
Fixpoint addLoop (CreateNodepool : string -> Z -> option error)
    (nodepoolName : string) (totalNodes batchSize : Z) (fuel : nat) (i : Z)
  : option Outcome :=
  match fuel with
  | O => None
  | S fuel =>
      if i <? totalNodes then
        let currentBatchSize :=
          if Int64.wrap (i + batchSize) >? totalNodes
          then Int64.wrap (totalNodes - i)
          else batchSize in
        let batchNodepoolName :=
          (nodepoolName ++ "-" ++ Int64.fmt_d (Z.quot i batchSize))%string in
        match CreateNodepool batchNodepoolName currentBatchSize with
        | Some err =>
            Some ([(batchNodepoolName, currentBatchSize)],
                  Some ("failed to create nodepool batch "
                          ++ batchNodepoolName ++ ": " ++ err)%string)
        | None =>
            match addLoop CreateNodepool nodepoolName totalNodes batchSize
                          fuel (Int64.wrap (i + batchSize)) with
            | None => None
            | Some (calls, err) =>
                Some ((batchNodepoolName, currentBatchSize) :: calls, err)
            end
        end
      else Some ([], None)
  end.

(** The action of [nodepoolAddCommand], from the point where it reads
    [--nodes] and [--batch-size]. *)
Definition nodepoolAddCommand_Action
    (CreateNodepool : string -> Z -> option error) (nodepoolName : string)
    (totalNodes batchSize : Z) (fuel : nat) : option Outcome :=
  if batchSize <=? 0 then
    Some ([], Some "batch-size must be greater than zero")
  else addLoop CreateNodepool nodepoolName totalNodes batchSize fuel 0.

End nodepool.

(** ** Notions for the batches of node pools *)

(** The number of batches of at most [batchSize] that [totalNodes] nodes
    make. *)
Definition batchCount (totalNodes batchSize : Z) : nat :=
  Z.to_nat ((totalNodes + batchSize - 1) / batchSize).

(** Batch [j] of the node pool [nodepoolName]. *)
Definition batchOf (nodepoolName : string) (totalNodes batchSize : Z)
    (j : nat) : string * Z :=
  ((nodepoolName ++ "-" ++ Int64.fmt_d (Z.of_nat j))%string,
   Z.min batchSize (totalNodes - Z.of_nat j * batchSize)).

(** The nodes asked for by a list of calls. *)
Definition nodesOf (calls : list (string * Z)) : Z :=
  fold_right Z.add 0 (map snd calls).

(** [CreateNodepool] fails on the batch named [bad]. *)
Definition failOn (bad : string) (name : string) (count : Z) : option error :=
  if String.eqb name bad then Some "timed out" else None.

(** * The [configmap] commands of runkperf ([package configmaps]) *)
Module configmaps.

Definition appLebel : string := "runkperf".

Definition checkConfigmapParams (size groupSize total : Z) : option error :=
  if size <=? 0 then Some "size must be greater than 0"
  else if groupSize <=? 0 then Some "group-size must be greater than 0"
  else if total <=? 0 then Some "total amount must be greater than 0"
  else if groupSize >? total then
    Some "group-size must be less than or equal to total"
  else None.

Definition letterRunes : list ascii :=
  list_ascii_of_string
    "abcdefghijklmnopqrstuvwxyzABCDEFGHIJKLMNOPQRSTUVWXYZ".

(** The loop of [randString] over [b[i:]], [len] runes long.  [draws i] is
    what [rand.Reader] gives the [i]-th [rand.Int]: entropy, or its error.
    [None]: an index out of range. *)
Fixpoint fillRunes (draws : nat -> Z + error) (len i : nat)
  : option (string + error) :=
  match len with
  | O => Some (inl EmptyString)
  | S len =>
      match draws i with
      | inr err => Some (inr ("error generating random number: " ++ err)%string)
      | inl entropy =>
          let random := entropy mod Z.of_nat (List.length letterRunes) in
          match nth_error letterRunes (Z.to_nat random) with
          | None => None
          | Some rune =>
              match fillRunes draws len (S i) with
              | Some (inl rest) => Some (inl (String rune rest))
              | other => other
              end
          end
      end
  end.

Definition randString (draws : nat -> Z + error) (n : Z)
  : option (string + error) :=
  if n <=? 0 then Some (inr "length must be positive")
  else fillRunes draws (Z.to_nat n) 0.

(** Go maps with string keys, as association lists read by key. *)
Fixpoint lookup {V : Type} (m : list (string * V)) (key : string)
  : option V :=
  match m with
  | [] => None
  | (k, v) :: rest => if String.eqb k key then Some v else lookup rest key
  end.

(** [m[key] = v] *)
Fixpoint store {V : Type} (m : list (string * V)) (key : string) (v : V)
  : list (string * V) :=
  match m with
  | [] => [(key, v)]
  | (k, v') :: rest =>
      if String.eqb k key then (k, v) :: rest
      else (k, v') :: store rest key v
  end.

(** [corev1.ConfigMap], by the fields the package sets and reads. *)
Record ConfigMap := {
  cm_Name : string;
  cm_Labels : list (string * string);
  cm_Data : list (string * string)
}.

(** The world of [createConfigmaps]: what each [Create] comes to, the
    entropy each configmap draws its data from, and which of the errors of
    a group its [Wait] returns (the first in time). *)
Record CreateEnv := {
  Create : ConfigMap -> option error;
  draws : Z -> nat -> Z + error;
  firstError : Z -> nat
}.

(** The function a group runs for index [j] (every function has the [j]
    of its own turn of the loop): the configmap it sends to [Create], if it
    gets that far, and the error it returns; [None]: a panic. *)
Definition createOne (e : CreateEnv) (cmName : string) (size ownerID j : Z)
  : option (option ConfigMap * option error) :=
  let name :=
    (appLebel ++ "-cm-" ++ cmName ++ "-" ++ Int64.fmt_d j)%string in
  let labels :=
    [("ownerID", Int64.fmt_d ownerID); ("app", appLebel);
     ("cmName", cmName)] in
  match randString (draws e j) (Int64.wrap (size * 1024)) with
  | None => None
  | Some (inr err) =>
      Some (None,
            Some ("failed to generate random string for configmap "
                    ++ name ++ ": " ++ err)%string)
  | Some (inl data) =>
      let cm := {| cm_Name := name; cm_Labels := labels;
                   cm_Data := [("data", data)] |} in
      match Create e cm with
      | Some err =>
          Some (Some cm,
                Some ("failed to create configmap " ++ name ++ ": " ++ err)%string)
      | None => Some (Some cm, None)
      end
  end.

(** The inner loop, from [j] on: the configmaps sent to [Create] and the
    errors of the functions of the group, by index.  [None]: a panic, or
    the loop has not ended within [fuel] turns. *)
Fixpoint groupLoop (e : CreateEnv) (cmName : string)
    (size groupSize total i : Z) (fuel : nat) (j : Z)
  : option (list ConfigMap * list error) :=
  match fuel with
  | O => None
  | S fuel =>
      if (j <? Int64.wrap (i + groupSize)) && (j <? total) then
        match createOne e cmName size i j,
              groupLoop e cmName size groupSize total i fuel
                        (Int64.wrap (j + 1)) with
        | Some (sent, err), Some (cms, errs) =>
            Some (match sent with Some cm => cm :: cms | None => cms end,
                  match err with Some x => x :: errs | None => errs end)
        | _, _ => None
        end
      else Some ([], [])
  end.

(** The outer loop of [createConfigmaps], from [i] on: the configmaps
    sent to [Create], in the order of their indices, and the error
    returned. *)
Fixpoint createLoop (e : CreateEnv) (cmName : string)
    (size groupSize total : Z) (fuel : nat) (i : Z)
  : option (list ConfigMap * option error) :=
  match fuel with
  | O => None
  | S fuel' =>
      if i <? total then
        match groupLoop e cmName size groupSize total i fuel i with
        | None => None
        | Some (cms, []) =>
            match createLoop e cmName size groupSize total fuel'
                             (Int64.wrap (i + groupSize)) with
            | None => None
            | Some (rest, err) => Some (cms ++ rest, err)
            end
        | Some (cms, err0 :: errs) =>
            Some (cms,
                  nth_error (err0 :: errs)
                            (Nat.modulo (firstError e i)
                                        (List.length (err0 :: errs))))
        end
      else Some ([], None)
  end.

Definition createConfigmaps (e : CreateEnv) (cmName : string)
    (size groupSize total : Z) (fuel : nat)
  : option (list ConfigMap * option error) :=
  createLoop e cmName size groupSize total fuel 0.

(** [strconv.Atoi], with the text of its errors left to [Quote]
    ([strconv.Quote]). *)
Section Atoi.

Variable Quote : string -> string.

Definition Atoi (s : string) : Z + error :=
  let parsed :=
    match s with
    | EmptyString => None
    | String a rest =>
        if Ascii.eqb a "+" then
          option_map Decimal.Pos (NilZero.uint_of_string rest)
        else NilZero.int_of_string s
    end in
  match parsed with
  | None =>
      inr ("strconv.Atoi: parsing " ++ Quote s ++ ": invalid syntax")%string
  | Some d =>
      let n := Z.of_int d in
      if (Int64.min <=? n) && (n <=? Int64.max) then inl n
      else
        inr ("strconv.Atoi: parsing " ++ Quote s
               ++ ": value out of range")%string
  end.

(** One turn of the loop of [listConfigmapsByName]: the map afterwards,
    and the error if the function returns here.  An entry of the map is
    [size, group size, total]; a new one is stored at once with its size
    and the incremented total. *)
Definition listStep (cmMap : list (string * (Z * Z * Z))) (cm : ConfigMap)
  : list (string * (Z * Z * Z)) * option error :=
  match lookup (cm_Labels cm) "cmName" with
  | None =>
      (cmMap,
       Some ("failed to find the cmName of configmap " ++ cm_Name cm)%string)
  | Some name =>
      let '(size, groupSize, total) :=
        match lookup cmMap name with
        | Some entry => entry
        | None =>
            (match lookup (cm_Data cm) "data" with
             | Some data => Z.of_nat (String.length data)
             | None => 0
             end, 0, 0)
        end in
      let total := Int64.wrap (total + 1) in
      let cmMap := store cmMap name (size, groupSize, total) in
      if negb (groupSize =? 0) then (cmMap, None)
      else
        match lookup (cm_Labels cm) "ownerID" with
        | None =>
            (cmMap,
             Some ("failed to find the ownerID of configmap " ++ name)%string)
        | Some ownerID =>
            match Atoi ownerID with
            | inl ownerIDInt =>
                (if ownerIDInt >? groupSize
                 then store cmMap name (size, ownerIDInt, total)
                 else cmMap,
                 None)
            | inr err =>
                (cmMap,
                 Some ("failed to convert ownerID " ++ ownerID
                         ++ " to int: " ++ err)%string)
            end
        end
  end.

Fixpoint listLoop (cmMap : list (string * (Z * Z * Z)))
    (items : list ConfigMap) : list (string * (Z * Z * Z)) * option error :=
  match items with
  | [] => (cmMap, None)
  | cm :: rest =>
      match listStep cmMap cm with
      | (cmMap, Some err) => (cmMap, Some err)
      | (cmMap, None) => listLoop cmMap rest
      end
  end.

(** [listConfigmapsByName]; [List] is what the list call of the clientset
    comes to. *)
Definition listConfigmapsByName (List : list ConfigMap + error)
    (cmMap : list (string * (Z * Z * Z)))
  : list (string * (Z * Z * Z)) * option error :=
  match List with
  | inr err => (cmMap, Some ("failed to list configmaps: " ++ err)%string)
  | inl items => listLoop cmMap items
  end.

End Atoi.

(** The world of [deleteConfigmaps]: what each [Delete] comes to, which
    errors [errors.IsNotFound] recognises, and which of the errors of a
    group its [Wait] returns. *)
Record DeleteEnv := {
  Delete : string -> option error;
  IsNotFound : error -> bool;
  firstFailure : Z -> nat
}.

(** The function a group runs for [configMaps.Items[j]]: the name it asks
    to delete and the error it returns; [None]: an index out of range. *)
Definition deleteOne (e : DeleteEnv) (items : list ConfigMap) (j : Z)
  : option (string * option error) :=
  match nth_error items (Z.to_nat j) with
  | None => None
  | Some cm =>
      match Delete e (cm_Name cm) with
      | Some err =>
          if negb (IsNotFound e err) then
            Some (cm_Name cm,
                  Some ("failed to delete configmap " ++ cm_Name cm
                          ++ ": " ++ err)%string)
          else Some (cm_Name cm, None)
      | None => Some (cm_Name cm, None)
      end
  end.

(** The inner loop of [deleteConfigmaps], from [j] on. *)
Fixpoint deleteGroup (e : DeleteEnv) (items : list ConfigMap)
    (n batch i : Z) (fuel : nat) (j : Z)
  : option (list string * list error) :=
  match fuel with
  | O => None
  | S fuel =>
      if (j <? Int64.wrap (i + batch)) && (j <? n) then
        match deleteOne e items j,
              deleteGroup e items n batch i fuel (Int64.wrap (j + 1)) with
        | Some (name, err), Some (names, errs) =>
            Some (name :: names,
                  match err with Some x => x :: errs | None => errs end)
        | _, _ => None
        end
      else Some ([], [])
  end.

(** The outer loop, from [i] on: the names [Delete] was called with and
    the error returned. *)
Fixpoint deleteLoop (e : DeleteEnv) (items : list ConfigMap)
    (n batch : Z) (fuel : nat) (i : Z)
  : option (list string * option error) :=
  match fuel with
  | O => None
  | S fuel' =>
      if i <? n then
        match deleteGroup e items n batch i fuel i with
        | None => None
        | Some (names, []) =>
            match deleteLoop e items n batch fuel'
                             (Int64.wrap (i + batch)) with
            | None => None
            | Some (rest, err) => Some (names ++ rest, err)
            end
        | Some (names, err0 :: errs) =>
            Some (names,
                  nth_error (err0 :: errs)
                            (Nat.modulo (firstFailure e i)
                                        (List.length (err0 :: errs))))
        end
      else Some ([], None)
  end.

(** [deleteConfigmaps]; [List] is what the list call of the clientset
    comes to. *)
Definition deleteConfigmaps (List : list ConfigMap + error) (e : DeleteEnv)
    (namespace : string) (fuel : nat)
  : option (list string * option error) :=
  match List with
  | inr err => Some ([], Some ("failed to list configmaps: " ++ err)%string)
  | inl items =>
      if Nat.eqb (List.length items) 0 then
        Some ([],
              Some ("no configmaps set found in namespace: " ++ namespace)%string)
      else
        let n := Z.of_nat (List.length items) in
        let batch := 10 in
        deleteLoop e items n batch fuel 0
  end.

End configmaps.

(** ** Notions for the configmap sets *)

(** The data [createConfigmaps] draws for index [j]. *)
Definition dataOf (e : configmaps.CreateEnv) (size : Z) (j : nat) : string :=
  match configmaps.randString (configmaps.draws e (Z.of_nat j))
          (Int64.wrap (size * 1024)) with
  | Some (inl data) => data
  | _ => EmptyString
  end.

(** Configmap [j] of the set [cmName]: its group is the one that starts at
    the multiple of [groupSize] below [j]. *)
Definition configmapOf (e : configmaps.CreateEnv) (cmName : string)
    (size groupSize : Z) (j : nat) : configmaps.ConfigMap :=
  {| configmaps.cm_Name :=
       ("runkperf-cm-" ++ cmName ++ "-" ++ Int64.fmt_d (Z.of_nat j))%string;
     configmaps.cm_Labels :=
       [("ownerID", Int64.fmt_d (Z.of_nat j / groupSize * groupSize));
        ("app", "runkperf"); ("cmName", cmName)];
     configmaps.cm_Data := [("data", dataOf e size j)] |}.

(** Every [Create] succeeds and the reader never fails. *)
Definition calmEnv : configmaps.CreateEnv :=
  {| configmaps.Create := fun _ => None;
     configmaps.draws := fun j i => inl (j + Z.of_nat i);
     configmaps.firstError := fun _ => 0%nat |}.

(** * [package unstructuredscheme]: the creator and the typer of the
      negotiated serializer *)
Module unstructuredscheme.

Record GroupVersionKind := {
  gvk_Group : string;
  gvk_Version : string;
  gvk_Kind : string
}.

(** [schema.GroupVersionKind.Empty] *)
Definition Empty (gvk : GroupVersionKind) : bool :=
  Nat.eqb (String.length (gvk_Group gvk)) 0
  && Nat.eqb (String.length (gvk_Version gvk)) 0
  && Nat.eqb (String.length (gvk_Kind gvk)) 0.

(** A [runtime.Object]: a value of a Go type ([goType]) with the kind its
    [GetObjectKind()] holds; [isUnstructured] says whether the type
    implements [runtime.Unstructured]. *)
Record Object := {
  goType : string;
  isUnstructured : bool;
  objectKind : GroupVersionKind
}.

(** [&unstructured.Unstructured{}] after [SetGroupVersionKind(kind)]. *)
Definition newUnstructured (kind : GroupVersionKind) : Object :=
  {| goType := "unstructured.Unstructured"; isUnstructured := true;
     objectKind := kind |}.

(** The scheme behind the two wrappers ([runtime.ObjectCreater] and
    [runtime.ObjectTyper]). *)
Class Scheme := {
  objCreator_New : GroupVersionKind -> Object + error;
  typer_ObjectKinds : Object -> (list GroupVersionKind * bool) + error
}.

(** [creator.New] *)
Definition creator_New `{Scheme} (kind : GroupVersionKind)
  : Object * option error :=
  match objCreator_New kind with
  | inl obj => (obj, None)
  | inr _ => (newUnstructured kind, None)
  end.

(** [typer.ObjectKinds] *)
Definition ObjectKinds `{Scheme} (obj : Object)
  : (list GroupVersionKind * bool) + error :=
  match typer_ObjectKinds obj with
  | inl (kinds, unversioned) => inl (kinds, unversioned)
  | inr err =>
      if isUnstructured obj && negb (Empty (objectKind obj))
      then inl ([objectKind obj], false)
      else inr err
  end.

(** [typer.Recognizes] *)
Definition Recognizes (_ : GroupVersionKind) : bool := true.

End unstructuredscheme.

(** A scheme that knows the kinds of the group [meta.k8s.io] only, and no
    unstructured object. *)
Definition metaScheme : unstructuredscheme.Scheme :=
  {| unstructuredscheme.objCreator_New := fun kind =>
       if String.eqb (unstructuredscheme.gvk_Group kind) "meta.k8s.io"
       then inl {| unstructuredscheme.goType := "metav1.Status";
                   unstructuredscheme.isUnstructured := false;
                   unstructuredscheme.objectKind := kind |}
       else inr "no kind is registered";
     unstructuredscheme.typer_ObjectKinds := fun obj =>
       if unstructuredscheme.isUnstructured obj
       then inr "no kind is registered for the type"
       else inl ([unstructuredscheme.objectKind obj], false) |}.

(** The configmap carries the label [cmName=name]. *)
Definition inSet (name : string) (cm : configmaps.ConfigMap) : bool :=
  match configmaps.lookup (configmaps.cm_Labels cm) "cmName" with
  | Some n => String.eqb n name
  | None => false
  end.

(** The size and the total a map of sets shows for [name] (0 when it has
    no entry for it). *)
Definition sizeIn (cmMap : list (string * (Z * Z * Z))) (name : string) : Z :=
  match configmaps.lookup cmMap name with
  | Some (size, _, _) => size
  | None => 0
  end.

Definition totalIn (cmMap : list (string * (Z * Z * Z))) (name : string) : Z :=
  match configmaps.lookup cmMap name with
  | Some (_, _, total) => total
  | None => 0
  end.

(** Two configmaps of the set [web], the first one without data, and one
    of the set [api]. *)
Definition sampleItems : list configmaps.ConfigMap :=
  [ {| configmaps.cm_Name := "runkperf-cm-web-0";
       configmaps.cm_Labels := [("ownerID", "0"); ("cmName", "web")];
       configmaps.cm_Data := [] |};
    {| configmaps.cm_Name := "runkperf-cm-api-7";
       configmaps.cm_Labels := [("cmName", "api"); ("ownerID", "+6")];
       configmaps.cm_Data := [("data", "abc")] |};
    {| configmaps.cm_Name := "runkperf-cm-web-1";
       configmaps.cm_Labels := [("ownerID", "5"); ("cmName", "web")];
       configmaps.cm_Data := [("data", "abcd")] |} ].

(** The server has lost the second configmap of the list already. *)
Definition lossyDeletes : configmaps.DeleteEnv :=
  {| configmaps.Delete := fun name =>
       if String.eqb name "runkperf-cm-api-7" then Some "not found" else None;
     configmaps.IsNotFound := fun err => String.eqb err "not found";
     configmaps.firstFailure := fun _ => 0%nat |}.

(** * Properties *)

(** ** 64-bit arithmetic *)

Lemma wrap_small z : Int64.in_range z -> Int64.wrap z = z.
Proof.
  unfold Int64.in_range, Int64.wrap, Int64.min, Int64.max. intros Hz.
  rewrite Z.mod_small; lia.
Qed.

Lemma wrap_in_range z : Int64.in_range (Int64.wrap z).
Proof.
  unfold Int64.in_range, Int64.wrap, Int64.min, Int64.max.
  pose proof (Z.mod_pos_bound (z + 2 ^ 63) (2 ^ 64) ltac:(lia)). lia.
Qed.

Lemma wrap_le z : Int64.min <= z -> Int64.wrap z <= z.
Proof.
  unfold Int64.wrap, Int64.min. intros Hz.
  pose proof (Z.mod_le (z + 2 ^ 63) (2 ^ 64) ltac:(lia) ltac:(lia)). lia.
Qed.

(** ** The name cache *)

Lemma pushes_app (xs : list string) (c : Cache) :
  fold_left Push xs c = c ++ xs.
Proof.
  revert c. induction xs as [|x xs IH]; intros c; simpl.
  - now rewrite app_nil_r.
  - rewrite IH. unfold Push. now rewrite <- app_assoc.
Qed.

Lemma drain_all (c : Cache) : drain (List.length c) c = (c, []).
Proof.
  induction c as [|x c IH]; simpl; [reflexivity|]. now rewrite IH.
Qed.

(** C7: [Push] appends at the tail; [Pop] takes the head and says [ok=false]
    exactly on the empty cache, which it leaves as it is; after [Push(a)],
    [Push(b)] on a new cache [Pop] returns [a]; and in general the names come
    out in the order they went in. *)
Theorem Cache_fifo_contract :
  (forall c s, Push c s = c ++ [s] /\ Len (Push c s) = Len c + 1) /\
  (forall x rest, Pop (x :: rest) = (x, true, rest)) /\
  (forall c, snd (fst (Pop c)) = false <-> c = []) /\
  (forall c, snd (fst (Pop c)) = false -> snd (Pop c) = c) /\
  (forall a b, Pop (Push (Push InitCache a) b) = (a, true, [b])) /\
  (forall c xs,
      drain (List.length (c ++ xs)) (fold_left Push xs c) = (c ++ xs, [])).
Proof.
  repeat split.
  - unfold Len, Push. rewrite length_app. simpl. lia.
  - destruct c; simpl; [reflexivity | discriminate].
  - intros ->. reflexivity.
  - destruct c; simpl; [reflexivity | discriminate].
  - intros c xs. rewrite pushes_app. apply drain_all.
Qed.

(** ** The response metric sink *)

Lemma observe_all_snoc ops op m :
  metrics.observe_all (ops ++ [op]) m
  = metrics.observe (metrics.observe_all ops m) op.
Proof. unfold metrics.observe_all. now rewrite fold_left_app. Qed.

Lemma failures_in_snoc ops op :
  metrics.failures_in (ops ++ [op])
  = metrics.failures_in ops
    ++ match op with metrics.OpFailure e => [e] | _ => [] end.
Proof.
  unfold metrics.failures_in. rewrite flat_map_app. simpl.
  now rewrite app_nil_r.
Qed.

Lemma failures_in_length ops :
  (List.length (metrics.failures_in ops) <= List.length ops)%nat.
Proof.
  induction ops as [|op ops IH]; simpl; [lia|].
  destruct op; simpl; lia.
Qed.

(** The sink's invariant: the list holds the failures in arrival order and
    the counter is its length. *)
Lemma sink_invariant (ops : list metrics.SinkOp) :
  Z.of_nat (List.length ops) <= Int64.max ->
  metrics.failureList (metrics.observe_all ops metrics.NewResponseMetric)
  = metrics.failures_in ops /\
  metrics.failureCount (metrics.observe_all ops metrics.NewResponseMetric)
  = Z.of_nat (List.length (metrics.failures_in ops)).
Proof.
  induction ops as [|op ops IH] using rev_ind; intros Hlen.
  - split; reflexivity.
  - rewrite length_app in Hlen. simpl in Hlen.
    destruct IH as [IHl IHc]; [lia|].
    rewrite observe_all_snoc, failures_in_snoc.
    destruct op as [s|e]; simpl.
    + rewrite app_nil_r. split; assumption.
    + rewrite IHl, IHc. split; [reflexivity|].
      rewrite length_app. simpl.
      pose proof (failures_in_length ops).
      rewrite wrap_small; [lia|].
      unfold Int64.in_range, Int64.min, Int64.max in *. lia.
Qed.

Lemma Gather_failureList reg m g :
  metrics.Gather reg m = Some g ->
  metrics.gatherFailureList g = metrics.failureList m.
Proof.
  unfold metrics.Gather.
  destruct (reg (metrics.latencySeconds m)) as [err|[|[|quantiles ?] ?]];
    try discriminate; now intros [= <-].
Qed.

Lemma Gather_gatherable reg m :
  gatherable (reg (metrics.latencySeconds m)) = true ->
  exists g, metrics.Gather reg m = Some g.
Proof.
  unfold metrics.Gather, gatherable.
  destruct (reg (metrics.latencySeconds m)) as [err|[|[|quantiles ?] ?]];
    try discriminate; eauto.
Qed.

(** C10, where the claim fails: after one observed failure a [Gather] whose
    registry fails returns the failure count 0 next to a failure list of
    length 1. *)
Lemma Gather_failure_count_on_registry_error :
  let m := metrics.ObserveFailure metrics.NewResponseMetric "EOF" in
  let g := metrics.Gather (fun _ => metrics.GatherFailed "collect") m in
  option_map metrics.failure g = Some 0 /\
  option_map metrics.gatherFailureList g = Some ["EOF"].
Proof. split; reflexivity. Qed.

(** C10, amended: after any sequence of observer calls on a new sink the
    failure count is the length of the failure list, each [ObserveFailure]
    appending one error and adding one to the count; a [Gather] that returns
    returns the whole failure list, and a failure count equal to its length
    when the registry gathers, 0 when the registry fails. *)
Theorem failure_count_consistency
    (reg : list float -> metrics.RegistryGather) (ops : list metrics.SinkOp) :
  Z.of_nat (List.length ops) < Int64.max ->
  let m := metrics.observe_all ops metrics.NewResponseMetric in
  metrics.failureList m = metrics.failures_in ops /\
  metrics.failureCount m = Z.of_nat (List.length (metrics.failureList m)) /\
  (forall e,
      metrics.failureList (metrics.ObserveFailure m e)
      = metrics.failureList m ++ [e] /\
      metrics.failureCount (metrics.ObserveFailure m e)
      = metrics.failureCount m + 1) /\
  (forall g,
      metrics.Gather reg m = Some g ->
      metrics.gatherFailureList g = metrics.failureList m /\
      metrics.failure g
      = match reg (metrics.latencySeconds m) with
        | metrics.Gathered _ =>
            Z.of_nat (List.length (metrics.gatherFailureList g))
        | metrics.GatherFailed _ => 0
        end).
Proof.
  intros Hlen m.
  destruct (sink_invariant ops ltac:(lia)) as [Hl Hc].
  fold m in Hl, Hc.
  repeat split.
  - exact Hl.
  - now rewrite Hl.
  - simpl. rewrite Hc. pose proof (failures_in_length ops).
    rewrite wrap_small; [reflexivity|].
    unfold Int64.in_range, Int64.min, Int64.max in *. lia.
  - now apply Gather_failureList with (reg := reg).
  - pose proof (Gather_failureList reg m g H) as Hg.
    unfold metrics.Gather in H.
    destruct (reg (metrics.latencySeconds m)) as [err|[|[|quantiles ?] ?]];
      try discriminate; injection H as <-; cbn [metrics.failure];
      [reflexivity|].
    cbn [metrics.gatherFailureList]. rewrite Hl. exact Hc.
Qed.

Lemma failure_count_consistency_witness :
  let reg := fun _ : list float => metrics.Gathered [[[]]] in
  let ops := [metrics.OpFailure "EOF"; metrics.OpLatency 1%float;
              metrics.OpFailure "timeout"] in
  Z.of_nat (List.length ops) < Int64.max /\
  option_map metrics.failure
    (metrics.Gather reg (metrics.observe_all ops metrics.NewResponseMetric))
  = Some 2.
Proof.
  intros reg ops.
  assert (Hlen : Z.of_nat (List.length ops) < Int64.max)
    by (vm_compute; reflexivity).
  split; [exact Hlen|].
  pose proof (failure_count_consistency reg ops Hlen) as Hthm.
  cbv zeta in Hthm. destruct Hthm as (_ & _ & _ & Hg).
  destruct (Hg _ eq_refl) as [_ Hf].
  exact (f_equal Some Hf).
Defined.

(** ** The postDel builder and its requester *)

Lemma rand_Int_1000 (e : Z) :
  rand_Int e 1000 = Some (e mod 1000) /\ 0 <= e mod 1000 < 1000.
Proof.
  split; [reflexivity|]. apply Z.mod_pos_bound. lia.
Qed.

(** The 1000 buckets all land in [0, 1). *)
Lemma drawRatio_unit_interval (k : Z) :
  0 <= k < 1000 ->
  PrimFloat.leb 0%float (drawRatio k) = true /\
  PrimFloat.ltb (drawRatio k) 1%float = true.
Proof.
  intros Hk.
  assert (Hall :
    forallb (fun n => PrimFloat.leb 0%float (drawRatio (Z.of_nat n))
                      && PrimFloat.ltb (drawRatio (Z.of_nat n)) 1%float)
            (seq 0 1000) = true) by (vm_compute; reflexivity).
  rewrite forallb_forall in Hall.
  specialize (Hall (Z.to_nat k)).
  rewrite Z2Nat.id in Hall by lia.
  apply andb_true_iff. apply Hall. apply in_seq. lia.
Qed.

Section PostDel.

Context `{Collaborators}.

Lemma Build_post_branch b cli env comps :
  let counter := Int64.wrap (resourceCounter b + 1) in
  let reqr := fst (buildPost b cli env comps) in
  let b' := snd (buildPost b cli env comps) in
  operation reqr = "POST" /\
  method (discard reqr) = "POST" /\
  verb (req (discard reqr)) = "POST" /\
  absPath (req (discard reqr)) = comps ++ [pd_resource b] /\
  name reqr
  = (Int64.fmt_d (unixNano env) ++ "-" ++ Int64.fmt_d counter)%string /\
  body (req (discard reqr))
  = Some (RenderTemplate (pd_resource b)
            [("namePattern", name reqr); ("namespace", pd_namespace b)]) /\
  resourceCounter b' = counter /\
  cache b' = cache b.
Proof. repeat split. Qed.

(** [Build] by cases: DELETE of the head of the cache when the draw is
    below the ratio and the cache has a head, POST otherwise. *)
Lemma Build_cases b cli env :
  let comps := groupVersionPath (pd_version b) (pd_namespace b) in
  requestPostDelBuilder_Build b cli env
  = Some
      (if shouldDelete (entropy env mod 1000) (deleteRatio b) then
         match cache b with
         | [] => buildPost b cli env comps
         | x :: rest =>
             ({| name := x;
                 operation := "DELETE";
                 discard :=
                   {| method := "DELETE";
                      req := SetMaxRetries (pd_maxRetries b)
                               (AbsPath (comps ++ [pd_resource b; x])
                                        (cli_Delete cli)) |} |},
              set_cache b rest)
         end
       else buildPost b cli env comps).
Proof.
  unfold requestPostDelBuilder_Build.
  destruct (rand_Int_1000 (entropy env)) as [-> _].
  destruct (shouldDelete _ _); [|reflexivity].
  destruct (cache b); reflexivity.
Qed.

Lemma churnStep_effect b cli env result :
  exists reqr b1,
    requestPostDelBuilder_Build b cli env = Some (reqr, b1) /\
    churnStep b (cli, env, result)
    = Some (reqr, snd (PostDelDiscardRequester_Do reqr result b1)) /\
    (operation reqr = "POST" \/ operation reqr = "DELETE") /\
    resourceCounter (snd (PostDelDiscardRequester_Do reqr result b1))
    = if isPost reqr then Int64.wrap (resourceCounter b + 1)
      else resourceCounter b.
Proof.
  unfold churnStep. rewrite Build_cases.
  destruct (shouldDelete _ _); [destruct (cache b)|];
    eexists; eexists; (split; [reflexivity|]); (split; [reflexivity|]);
    destruct result as [bytes [e|]]; simpl; auto.
Qed.

Lemma churn_counter steps : forall b,
  0 <= resourceCounter b ->
  resourceCounter b + Z.of_nat (List.length steps) <= Int64.max ->
  resourceCounter (snd (churn b steps))
  = resourceCounter b
    + Z.of_nat (List.length (filter isPost (fst (churn b steps)))).
Proof.
  induction steps as [|[[cli env] result] steps IH]; intros b Hb Hmax.
  - simpl. lia.
  - cbn [churn].
    destruct (churnStep_effect b cli env result)
      as (reqr & b1 & _ & -> & _ & Hc).
    cbn [List.length] in Hmax.
    assert (Hw : Int64.wrap (resourceCounter b + 1) = resourceCounter b + 1).
    { apply wrap_small.
      unfold Int64.in_range, Int64.min, Int64.max in *. lia. }
    rewrite Hw in Hc.
    set (b2 := snd (PostDelDiscardRequester_Do reqr result b1)) in *.
    specialize (IH b2).
    destruct (churn b2 steps) as [reqrs b3] eqn:Hch.
    cbn [fst snd filter] in *.
    destruct (isPost reqr); cbn [List.length]; rewrite IH; lia.
Qed.

(** C3: every [Build] draws one of 1000 buckets [u] of [0, 1); when
    [u < deleteRatio] and the cache is not empty it pops the head of the
    cache and returns a DELETE requester for that name; otherwise it returns
    a POST requester named ["{unixNanos}-{counter}"], the counter being the
    builder's, incremented, and the body being the template of the resource
    rendered with [namePattern] and [namespace].  The counter of a new
    builder starts at 1, and after any churn it is the number of POSTs
    built. *)
Theorem postDel_Build_decision :
  (forall b cli env,
      let u := drawRatio (entropy env mod 1000) in
      let comps := groupVersionPath (pd_version b) (pd_namespace b) in
      PrimFloat.leb 0%float u = true /\ PrimFloat.ltb u 1%float = true /\
      exists reqr b',
        requestPostDelBuilder_Build b cli env = Some (reqr, b') /\
        if PrimFloat.ltb u (deleteRatio b) && negb (Len (cache b) =? 0)
        then
          cache b = name reqr :: cache b' /\
          operation reqr = "DELETE" /\
          method (discard reqr) = "DELETE" /\
          verb (req (discard reqr)) = "DELETE" /\
          absPath (req (discard reqr))
          = comps ++ [pd_resource b; name reqr] /\
          resourceCounter b' = resourceCounter b
        else
          let counter := Int64.wrap (resourceCounter b + 1) in
          operation reqr = "POST" /\
          method (discard reqr) = "POST" /\
          verb (req (discard reqr)) = "POST" /\
          absPath (req (discard reqr)) = comps ++ [pd_resource b] /\
          name reqr
          = (Int64.fmt_d (unixNano env) ++ "-" ++ Int64.fmt_d counter)%string /\
          body (req (discard reqr))
          = Some (RenderTemplate (pd_resource b)
                    [("namePattern", name reqr);
                     ("namespace", pd_namespace b)]) /\
          resourceCounter b' = counter /\
          cache b' = cache b) /\
  (forall src resourceVersion maxRetries cli env,
      exists reqr b',
        requestPostDelBuilder_Build
          (newRequestPostDelBuilder src resourceVersion maxRetries) cli env
        = Some (reqr, b') /\
        operation reqr = "POST" /\
        name reqr = (Int64.fmt_d (unixNano env) ++ "-1")%string /\
        resourceCounter b' = 1) /\
  (forall src resourceVersion maxRetries steps,
      Z.of_nat (List.length steps) <= Int64.max ->
      let run :=
        churn (newRequestPostDelBuilder src resourceVersion maxRetries)
              steps in
      resourceCounter (snd run)
      = Z.of_nat (List.length (filter isPost (fst run)))).
Proof.
  split; [|split].
  - intros b cli env u comps.
    destruct (rand_Int_1000 (entropy env)) as [_ Hk].
    destruct (drawRatio_unit_interval _ Hk) as [H0 H1].
    split; [exact H0|]. split; [exact H1|].
    rewrite Build_cases. fold comps. unfold shouldDelete. fold u.
    pose proof (Build_post_branch b cli env comps) as Hp. cbv zeta in Hp.
    destruct (PrimFloat.ltb u (deleteRatio b)); cbn [andb].
    + destruct (cache b) as [|x rest] eqn:Hcache.
      * exists (fst (buildPost b cli env comps)),
               (snd (buildPost b cli env comps)).
        split; [now rewrite <- surjective_pairing|].
        change (negb (Len [] =? 0)) with false. cbv iota.
        exact Hp.
      * eexists; eexists. split; [reflexivity|].
        replace (negb (Len (x :: rest) =? 0)) with true
          by (unfold Len; cbn [List.length]; symmetry;
              apply negb_true_iff, Z.eqb_neq; lia).
        cbv iota. repeat split.
    + exists (fst (buildPost b cli env comps)),
             (snd (buildPost b cli env comps)).
      split; [now rewrite <- surjective_pairing|].
      exact Hp.
  - intros src rv mr cli env. rewrite Build_cases.
    eexists; eexists. split.
    + destruct (shouldDelete _ _); reflexivity.
    + repeat split.
  - intros src rv mr steps Hlen run. unfold run.
    rewrite churn_counter; simpl; lia.
Qed.

End PostDel.


Section PostDelDo.

Context `{Collaborators}.

(** C4: [Do] hands back what the round trip returned and then settles the
    cache: a POST that succeeded pushes its name, a DELETE that failed
    pushes the popped name back, so that the cache is as long as it was
    before the [Pop]; a POST that failed and a DELETE that succeeded leave
    the cache alone. *)
Theorem PostDel_Do_cache :
  (forall reqr result b,
      fst (PostDelDiscardRequester_Do reqr result b) = result /\
      cache (snd (PostDelDiscardRequester_Do reqr result b))
      = if String.eqb (operation reqr) "POST" then
          match snd result with
          | None => Push (cache b) (name reqr)
          | Some _ => cache b
          end
        else if String.eqb (operation reqr) "DELETE" then
          match snd result with
          | Some _ => Push (cache b) (name reqr)
          | None => cache b
          end
        else cache b) /\
  (forall b cli env result,
      exists reqr b1,
        requestPostDelBuilder_Build b cli env = Some (reqr, b1) /\
        let b2 := snd (PostDelDiscardRequester_Do reqr result b1) in
        if isPost reqr then
          cache b1 = cache b /\
          match snd result with
          | None => cache b2 = Push (cache b) (name reqr)
          | Some _ => cache b2 = cache b
          end
        else
          operation reqr = "DELETE" /\
          Pop (cache b) = (name reqr, true, cache b1) /\
          match snd result with
          | Some _ =>
              cache b2 = Push (cache b1) (name reqr) /\
              Len (cache b2) = Len (cache b)
          | None => cache b2 = cache b1
          end).
Proof.
  split.
  - intros reqr [bytes err] b. unfold PostDelDiscardRequester_Do.
    cbn [fst snd]. split; [reflexivity|].
    destruct (String.eqb (operation reqr) "POST");
      [|destruct (String.eqb (operation reqr) "DELETE")];
      destruct err; reflexivity.
  - intros b cli env [bytes err]. rewrite Build_cases.
    assert (Hpost :
      let comps := groupVersionPath (pd_version b) (pd_namespace b) in
      let reqr := fst (buildPost b cli env comps) in
      let b1 := snd (buildPost b cli env comps) in
      let b2 := snd (PostDelDiscardRequester_Do reqr (bytes, err) b1) in
      isPost reqr = true /\ cache b1 = cache b /\
      match err with
      | None => cache b2 = Push (cache b) (name reqr)
      | Some _ => cache b2 = cache b
      end).
    { destruct err; repeat split. }
    cbv zeta in Hpost. destruct Hpost as (Hp & Hc1 & Hc2).
    destruct (shouldDelete _ _); [destruct (cache b) as [|x rest] eqn:Hcache|].
    + exists (fst (buildPost b cli env
                     (groupVersionPath (pd_version b) (pd_namespace b)))),
             (snd (buildPost b cli env
                     (groupVersionPath (pd_version b) (pd_namespace b)))).
      split; [now rewrite <- surjective_pairing|].
      cbv zeta. rewrite Hp. cbn [snd]. split; assumption.
    + eexists; eexists. split; [reflexivity|].
      cbn -[Push Len]. split; [reflexivity|]. split; [reflexivity|].
      destruct err as [e|]; cbn -[Push Len]; [|reflexivity].
      split; [reflexivity|].
      unfold Len, Push. rewrite length_app. cbn [List.length]. lia.
    + exists (fst (buildPost b cli env
                     (groupVersionPath (pd_version b) (pd_namespace b)))),
             (snd (buildPost b cli env
                     (groupVersionPath (pd_version b) (pd_namespace b)))).
      split; [now rewrite <- surjective_pairing|].
      cbv zeta. rewrite Hp. cbn [snd]. split; assumption.
Qed.

End PostDelDo.

(** ** The builders of the generator *)

Section Builders.

Context `{Collaborators}.

Lemma newBuilders_spec spec rs : forall shares0 builders0 shares1 builders1,
  newBuilders spec rs shares0 builders0 = inl (shares1, builders1) ->
  shares1 = shares0 ++ map Shares rs /\
  exists bs, builders1 = builders0 ++ bs /\
             Forall2 (fun r b => newBuilder spec r = Some b) rs bs.
Proof.
  induction rs as [|r rs IH]; intros sh0 bs0 sh1 bs1 Hnew; simpl in Hnew.
  - injection Hnew as <- <-. rewrite !app_nil_r. split; [reflexivity|].
    exists []. rewrite app_nil_r. split; [reflexivity | constructor].
  - destruct (newBuilder spec r) as [b|] eqn:Hb; [|discriminate].
    apply IH in Hnew. destruct Hnew as [-> (bs & -> & Hall)].
    rewrite <- !app_assoc. split; [reflexivity|].
    exists (b :: bs). split; [reflexivity|]. now constructor.
Qed.

Lemma NewWeightedRandomRequests_spec spec g :
  NewWeightedRandomRequests spec = inl g ->
  ctx g = WithCancel Background "NewWeightedRandomRequests" /\
  shares g = map Shares (Requests spec) /\
  Forall2 (fun r b => newBuilder spec r = Some b)
          (Requests spec) (reqBuilders g).
Proof.
  intros Hg. unfold NewWeightedRandomRequests in Hg.
  destruct (Validate spec); [discriminate|].
  destruct (newBuilders spec (Requests spec) [] []) as [[sh bs]|e] eqn:Hnew;
    [|discriminate].
  injection Hg as <-. cbn [ctx shares reqBuilders].
  apply newBuilders_spec in Hnew.
  destruct Hnew as [-> (bs' & -> & Hall)].
  split; [reflexivity|]. split; [reflexivity | exact Hall].
Qed.

(** C9: the request built for a StaleList or StaleGet entry carries the
    resource version ["0"], the one built for a QuorumList or QuorumGet
    entry carries the empty resource version, and the one built for a WatchList
    entry carries [watch=true], [sendInitialEvents=true],
    [resourceVersionMatch=NotOlderThan] and [allowWatchBookmarks=true]; the
    builders of a generator are the ones this [switch] makes, entry by
    entry. *)
Theorem resourceVersion_and_watch_parameters :
  (forall spec r cli env src,
      StaleList r = Some src ->
      exists o, builtParams spec r cli env = Some (OfListOptions o) /\
                ResourceVersion o = "0") /\
  (forall spec r cli env src,
      StaleList r = None -> QuorumList r = Some src ->
      exists o, builtParams spec r cli env = Some (OfListOptions o) /\
                ResourceVersion o = "") /\
  (forall spec r cli env src,
      StaleList r = None -> QuorumList r = None -> WatchList r = Some src ->
      exists o, builtParams spec r cli env = Some (OfListOptions o) /\
                Watch o = true /\
                SendInitialEvents o = Some true /\
                ResourceVersionMatch o = "NotOlderThan" /\
                AllowWatchBookmarks o = true) /\
  (forall spec r cli env src,
      StaleList r = None -> QuorumList r = None -> WatchList r = None ->
      StaleGet r = Some src ->
      builtParams spec r cli env = Some (GetOptions "0")) /\
  (forall spec r cli env src,
      StaleList r = None -> QuorumList r = None -> WatchList r = None ->
      StaleGet r = None -> QuorumGet r = Some src ->
      builtParams spec r cli env = Some (GetOptions "")) /\
  (forall spec g,
      NewWeightedRandomRequests spec = inl g ->
      shares g = map Shares (Requests spec) /\
      Forall2 (fun r b => newBuilder spec r = Some b)
              (Requests spec) (reqBuilders g)).
Proof.
  repeat apply conj.
  - intros spec r cli env src H1.
    unfold builtParams, newBuilder. rewrite H1.
    eexists. split; reflexivity.
  - intros spec r cli env src H1 H2.
    unfold builtParams, newBuilder. rewrite H1, H2.
    eexists. split; reflexivity.
  - intros spec r cli env src H1 H2 H3.
    unfold builtParams, newBuilder. rewrite H1, H2, H3.
    eexists. repeat split.
  - intros spec r cli env src H1 H2 H3 H4.
    unfold builtParams, newBuilder. rewrite H1, H2, H3, H4. reflexivity.
  - intros spec r cli env src H1 H2 H3 H4 H5.
    unfold builtParams, newBuilder. rewrite H1, H2, H3, H4, H5. reflexivity.
  - intros spec g Hg.
    destruct (NewWeightedRandomRequests_spec spec g Hg) as (_ & Hs & Hb).
    split; assumption.
Qed.

End Builders.

(** ** Weighted selection *)

Lemma sumShares_le_exact (shares : list Z) : forall acc,
  Int64.min <= acc ->
  Forall (fun s => 0 <= s) shares ->
  fold_left (fun sum s => Int64.wrap (sum + s)) shares acc
  <= acc + fold_right Z.add 0 shares.
Proof.
  induction shares as [|s rest IH]; intros acc Hacc Hall; simpl; [lia|].
  inversion Hall as [|? ? Hs Hrest]; subst.
  pose proof (wrap_in_range (acc + s)) as [Hlo _].
  pose proof (wrap_le (acc + s) ltac:(lia)).
  specialize (IH (Int64.wrap (acc + s)) Hlo Hrest). lia.
Qed.

Lemma sumShares_in_range (shares : list Z) :
  Int64.in_range (sumShares shares).
Proof.
  unfold sumShares.
  destruct shares as [|s rest] using rev_ind.
  - unfold Int64.in_range, Int64.min, Int64.max. simpl. lia.
  - rewrite fold_left_app. simpl. apply wrap_in_range.
Qed.

Lemma prefixSum_cons s rest k :
  prefixSum (s :: rest) (S k) = s + prefixSum rest k.
Proof. reflexivity. Qed.

Lemma prefixSum_step (shares : list Z) : forall j,
  Forall (fun s => 0 <= s) shares ->
  prefixSum shares j <= prefixSum shares (S j).
Proof.
  induction shares as [|s rest IH]; intros j Hall.
  - unfold prefixSum. destruct j; simpl; lia.
  - inversion Hall as [|? ? Hs Hrest]; subst. destruct j as [|j].
    + unfold prefixSum. simpl. lia.
    + rewrite !prefixSum_cons. specialize (IH j Hrest). lia.
Qed.

Lemma prefixSum_mono (shares : list Z) (j k : nat) :
  Forall (fun s => 0 <= s) shares ->
  (j <= k)%nat -> prefixSum shares j <= prefixSum shares k.
Proof.
  intros Hall Hjk. induction Hjk as [|k Hjk IH]; [lia|].
  pose proof (prefixSum_step shares k Hall). lia.
Qed.

Lemma pickLoop_spec (shares : list Z) : forall i0 rnd,
  Forall (fun s => 0 <= s) shares ->
  0 <= rnd < fold_right Z.add 0 shares ->
  rnd <= Int64.max ->
  exists k, pickLoop shares i0 rnd = Some (i0 + k)%nat /\
            (k < List.length shares)%nat /\
            prefixSum shares k <= rnd < prefixSum shares (S k).
Proof.
  induction shares as [|s rest IH]; intros i0 rnd Hall Hrnd Hmax.
  - simpl in Hrnd. lia.
  - inversion Hall as [|? ? Hs Hrest]; subst. simpl in Hrnd. cbn [pickLoop].
    destruct (rnd <? s) eqn:Hlt.
    + apply Z.ltb_lt in Hlt. exists 0%nat.
      rewrite Nat.add_0_r. split; [reflexivity|].
      split; [simpl; lia|]. unfold prefixSum. simpl. lia.
    + apply Z.ltb_ge in Hlt.
      rewrite wrap_small
        by (unfold Int64.in_range, Int64.min, Int64.max in *; lia).
      destruct (IH (S i0) (rnd - s) Hrest ltac:(lia) ltac:(lia))
        as (k & Hpick & Hk & Hrange).
      exists (S k). rewrite Hpick.
      split; [f_equal; lia|]. split; [simpl; lia|].
      rewrite !prefixSum_cons. lia.
Qed.

(** On non-negative shares with a positive sum the pick succeeds, at an
    index whose slice of [0, S) holds the value drawn. *)
Lemma randomPick_total (r : WeightedRandomRequests) (entropy : Z) :
  Forall (fun s => 0 <= s) (shares r) ->
  List.length (reqBuilders r) = List.length (shares r) ->
  0 < sumShares (shares r) ->
  let rnd := entropy mod sumShares (shares r) in
  exists i builder,
    pickLoop (shares r) 0 rnd = Some i /\
    randomPick r entropy = Some i /\
    nth_error (reqBuilders r) i = Some builder /\
    prefixSum (shares r) i <= rnd < prefixSum (shares r) (S i).
Proof.
  intros Hall Hlen Hsum rnd.
  assert (Hrnd : 0 <= rnd < sumShares (shares r))
    by (apply Z.mod_pos_bound; exact Hsum).
  pose proof (sumShares_in_range (shares r)) as [_ Hhi].
  pose proof (sumShares_le_exact (shares r) 0
                ltac:(unfold Int64.min; lia) Hall) as Hexact.
  fold (sumShares (shares r)) in Hexact.
  destruct (pickLoop_spec (shares r) 0 rnd Hall ltac:(lia) ltac:(lia))
    as (i & Hpick & Hi & Hrange).
  cbn [Nat.add] in Hpick.
  destruct (nth_error (reqBuilders r) i) as [builder|] eqn:Hnth.
  2:{ apply nth_error_None in Hnth. lia. }
  exists i, builder. repeat split; try assumption; try apply Hrange.
  unfold randomPick, rand_Int.
  replace (sumShares (shares r) <=? 0) with false
    by (symmetry; apply Z.leb_gt; exact Hsum).
  fold rnd. rewrite Hpick, Hnth. reflexivity.
Qed.

(** C5: on non-negative shares with a positive sum [S], for the value
    [rnd] of [0, S) that is drawn, [randomPick] returns the builder at the
    one index [i] with [sum(shares[0..i]) <= rnd < sum(shares[0..i+1])]; it
    never panics, so the loop never runs into its ["unreachable"]. *)
Theorem weighted_selection (r : WeightedRandomRequests) (entropy : Z) :
  Forall (fun s => 0 <= s) (shares r) ->
  List.length (reqBuilders r) = List.length (shares r) ->
  0 < sumShares (shares r) ->
  let rnd := entropy mod sumShares (shares r) in
  0 <= rnd < sumShares (shares r) /\
  pickLoop (shares r) 0 rnd <> None /\
  exists i builder,
    randomPick r entropy = Some i /\
    nth_error (reqBuilders r) i = Some builder /\
    prefixSum (shares r) i <= rnd < prefixSum (shares r) (S i) /\
    forall j,
      prefixSum (shares r) j <= rnd < prefixSum (shares r) (S j) -> j = i.
Proof.
  intros Hall Hlen Hsum rnd.
  split; [apply Z.mod_pos_bound; exact Hsum|].
  destruct (randomPick_total r entropy Hall Hlen Hsum)
    as (i & builder & Hloop & Hpick & Hnth & Hrange).
  fold rnd in Hloop, Hrange.
  split; [congruence|].
  exists i, builder. repeat split; try assumption; try apply Hrange.
  intros j Hj.
  destruct (Nat.lt_trichotomy j i) as [Hlt | [Heq | Hgt]]; [|exact Heq|].
  - pose proof (prefixSum_mono (shares r) (S j) i Hall ltac:(lia)). lia.
  - pose proof (prefixSum_mono (shares r) (S i) j Hall ltac:(lia)). lia.
Qed.

Lemma weighted_selection_witness :
  exists i,
    randomPick sampleGenerator 5 = Some i /\
    prefixSum [1; 2] i <= 2 < prefixSum [1; 2] (S i).
Proof.
  destruct (weighted_selection sampleGenerator 5)
    as (_ & _ & i & b & Hp & _ & Hr & _).
  - repeat constructor; lia.
  - reflexivity.
  - reflexivity.
  - exists i. split; [exact Hp | exact Hr].
Defined.


(** ** The loop of [Run] *)

Lemma select_In (cases : list SelectCase) (choice : nat) (c : SelectCase) :
  select cases choice = Some c -> In c cases.
Proof. unfold select. apply nth_error_In. Qed.

Lemma select_nonempty (cases : list SelectCase) (choice : nat) :
  cases <> [] -> exists c, select cases choice = Some c /\ In c cases.
Proof.
  intros Hne. unfold select.
  destruct (nth_error cases (Nat.modulo choice (List.length cases)))
    as [c|] eqn:Hnth.
  - exists c. split; [reflexivity|]. eapply nth_error_In; eauto.
  - apply nth_error_None in Hnth.
    assert (List.length cases <> 0%nat) by (destruct cases; simpl; congruence).
    pose proof (Nat.mod_upper_bound choice (List.length cases) ltac:(lia)).
    lia.
Qed.

Section RunFacts.

Context {P W : Type}.
Variable ready : P -> W -> bool.
Variable receive : nat -> P -> list Context -> W -> option W.
Variable cancels : W -> list Context.
Variable r : WeightedRandomRequests.
Variable callerCtx : Context.
Variable total : Z.
Variable env : nat -> RunEnv P.
Variable w0 : W.

Abbreviation run := (Run ready receive cancels r callerCtx total env w0).
Abbreviation step := (Run_step ready receive cancels r callerCtx total).
Abbreviation cases k :=
  (readyCases ready cancels r callerCtx (env k) (receivers (run k))).
Abbreviation cancelledBy k := (cancelledAt cancels (env k) (receivers (run k))).

Lemma Run_step_spec e st :
  status st = Running ->
  StepSpec ready receive cancels r callerCtx total e st (step e st).
Proof.
  intros Hrun. unfold Run_step. rewrite Hrun.
  destruct ((0 <? total) && (total <=? sum st)) eqn:Hc.
  - apply andb_true_iff in Hc. destruct Hc as [H1 H2].
    apply Z.ltb_lt in H1. apply Z.leb_le in H2. apply StepTotal. lia.
  - assert (Hn : ~ 0 < total <= sum st).
    { intros [H1 H2]. apply Z.ltb_lt in H1. apply Z.leb_le in H2.
      rewrite H1, H2 in Hc. discriminate. }
    destruct (randomPick r (pickEntropy e)) as [builder|] eqn:Hpick.
    2:{ now apply StepPickPanics. }
    destruct (select _ _) as [[| |]|] eqn:Hsel.
    + destruct (receive _ _ _ _) as [w|] eqn:Hrecv.
      * eapply StepSends; eauto.
      * eapply StepReceiverPanics; eauto.
    + eapply StepGenDone; eauto.
    + eapply StepCtxDone; eauto.
    + eapply StepBlocks; eauto.
Qed.

Lemma Run_S n : run (S n) = step (env n) (run n).
Proof. reflexivity. Qed.

(** Once [Run] has left its loop nothing changes any more. *)
Lemma Run_stays n :
  status (run n) <> Running -> run (S n) = run n.
Proof.
  intros Hs. rewrite Run_S. unfold Run_step.
  destruct (status (run n)); [congruence | reflexivity ..].
Qed.

Lemma Run_stays_le n m :
  (n <= m)%nat -> status (run n) <> Running -> run m = run n.
Proof.
  intros Hle Hs. induction Hle as [|m Hle IH]; [reflexivity|].
  rewrite Run_stays; [exact IH|]. now rewrite IH.
Qed.

(** With a positive total, [sum] counts the builders sent and never passes
    the total. *)
Lemma Run_sum_invariant n :
  0 < total <= Int64.max ->
  0 <= sum (run n) <= total /\
  sum (run n) = Z.of_nat (List.length (sent (run n))).
Proof.
  intros Ht. induction n as [|n [IHs IHl]].
  - simpl. lia.
  - destruct (status (run n)) eqn:Hst.
    2-4: rewrite Run_stays by congruence; auto.
    rewrite Run_S.
    destruct (Run_step_spec (env n) (run n) Hst); cbn [set_status sum sent];
      auto.
    rewrite length_app. cbn [List.length].
    rewrite wrap_small
      by (unfold Int64.in_range, Int64.min, Int64.max in *; lia).
    lia.
Qed.

(** Why [Run] has returned, when it has. *)
Lemma Run_returned_cause n why :
  total <= Int64.max ->
  status (run n) = Returned why ->
  match why with
  | ByTotal =>
      0 < total /\ sum (run n) = total /\
      Z.of_nat (List.length (sent (run n))) = total
  | ByGenCtx =>
      exists k, (k < n)%nat /\ Done (cancelledBy k) (ctx r) = true
  | ByCallerCtx =>
      exists k, (k < n)%nat /\ Done (cancelledBy k) callerCtx = true
  end.
Proof.
  intros Hmax. induction n as [|n IH]; [discriminate|].
  destruct (status (run n)) eqn:Hst.
  2-4: rewrite Run_stays by congruence; rewrite Hst; try discriminate.
  - rewrite Run_S.
    pose proof (Run_sum_invariant n) as Hinv.
    destruct (Run_step_spec (env n) (run n) Hst) as
      [Ht | | | | | b Hn Hp Hsel | b Hn Hp Hsel];
      cbn [set_status status sum sent]; try discriminate;
      intros [= <-].
    + destruct (Hinv ltac:(lia)) as [Hs Hl]. lia.
    + exists n. split; [lia|].
      apply select_In in Hsel. unfold readyCases in Hsel.
      fold (cancelledBy n) in Hsel.
      destruct (Done (cancelledBy n) (ctx r)); [reflexivity|].
      exfalso.
      destruct (ready _ _), (Done (cancelledBy n) callerCtx);
        simpl in Hsel; intuition discriminate.
    + exists n. split; [lia|].
      apply select_In in Hsel. unfold readyCases in Hsel.
      fold (cancelledBy n) in Hsel.
      destruct (Done (cancelledBy n) callerCtx); [reflexivity|].
      exfalso.
      destruct (ready _ _), (Done (cancelledBy n) (ctx r));
        simpl in Hsel; intuition discriminate.
  - intros [= <-]. specialize (IH eq_refl).
    destruct why0; [exact IH | ..];
      destruct IH as (k & Hk & Hd); exists k; (split; [lia | exact Hd]).
Qed.

(** Turn [k] hands a builder over: the pick succeeds, the [select] takes
    the send, and the receiver does not panic. *)
Abbreviation sendsAt k :=
  (randomPick r (pickEntropy (env k)) <> None /\
   select (cases k) (choice (env k)) = Some CaseSend /\
   forall builder,
     receive builder (peer (env k)) (cancelledBy k) (receivers (run k))
     <> None).

Lemma Run_sends k :
  total <= Int64.max ->
  (total <= 0 \/ Z.of_nat k <= total) ->
  (forall j, (j < k)%nat -> sendsAt j) ->
  status (run k) = Running /\ List.length (sent (run k)) = k.
Proof.
  intros Hmax Hk Hsend. induction k as [|k IH]; [split; reflexivity|].
  destruct IH as [Hst Hlen]; [lia | intros j Hj; apply Hsend; lia |].
  destruct (Hsend k ltac:(lia)) as (Hpick & Hsel & Hrecv).
  rewrite Run_S.
  destruct (Run_step_spec (env k) (run k) Hst) as
    [Ht | Hn Hp | b Hn Hp Hs | b w Hn Hp Hs Hr | b Hn Hp Hs Hr
     | b Hn Hp Hs | b Hn Hp Hs];
    try congruence.
  - exfalso. destruct (Run_sum_invariant k ltac:(lia)) as [_ Hsum]. lia.
  - cbn [status sent]. rewrite length_app. cbn [List.length].
    split; [reflexivity | lia].
Qed.

Lemma Run_reaches_total :
  0 < total <= Int64.max ->
  (forall k, Z.of_nat k < total -> sendsAt k) ->
  status (run (Z.to_nat total)) = Running /\
  status (run (S (Z.to_nat total))) = Returned ByTotal /\
  Z.of_nat (List.length (sent (run (S (Z.to_nat total))))) = total.
Proof.
  intros Ht Hsend.
  destruct (Run_sends (Z.to_nat total)) as [Hst Hlen];
    [lia | lia | intros j Hj; apply Hsend; lia |].
  destruct (Run_sum_invariant (Z.to_nat total) Ht) as [_ Hsum].
  split; [exact Hst|]. rewrite Run_S.
  destruct (Run_step_spec (env (Z.to_nat total)) (run (Z.to_nat total)) Hst);
    try (exfalso; lia).
  cbn [set_status status sent]. split; [reflexivity | lia].
Qed.

Lemma Run_cancelled_exits k :
  status (run k) = Running ->
  ~ 0 < total <= sum (run k) ->
  randomPick r (pickEntropy (env k)) <> None ->
  ready (peer (env k)) (receivers (run k)) = false ->
  Done (cancelledBy k) (ctx r) = true \/
  Done (cancelledBy k) callerCtx = true ->
  (status (run (S k)) = Returned ByGenCtx \/
   status (run (S k)) = Returned ByCallerCtx) /\
  sent (run (S k)) = sent (run k).
Proof.
  intros Hst Hnt Hpick Hready Hdone. rewrite Run_S.
  assert (Hcases : cases k <> [] /\ ~ In CaseSend (cases k)).
  { unfold readyCases. fold (cancelledBy k). rewrite Hready.
    destruct (Done (cancelledBy k) (ctx r)),
             (Done (cancelledBy k) callerCtx);
      simpl; (split; [try discriminate | intuition discriminate]).
    destruct Hdone; discriminate. }
  destruct Hcases as [Hne Hnosend].
  destruct (select_nonempty (cases k) (choice (env k)) Hne) as (c & Hc & _).
  destruct (Run_step_spec (env k) (run k) Hst) as
    [Ht | Hn Hp | b Hn Hp Hs | b w Hn Hp Hs Hr | b Hn Hp Hs Hr
     | b Hn Hp Hs | b Hn Hp Hs];
    try contradiction; try congruence;
    try (exfalso; apply Hnosend; eapply select_In; eassumption).
  - cbn [set_status status sent]. auto.
  - cbn [set_status status sent]. auto.
Qed.

Lemma Run_never_returns :
  total <= 0 ->
  (forall k, Done (cancelledBy k) (ctx r) = false /\
             Done (cancelledBy k) callerCtx = false) ->
  forall n why, status (run n) <> Returned why.
Proof.
  intros Ht Hnever n why Hst.
  apply Run_returned_cause in Hst; [|unfold Int64.max; lia].
  destruct why.
  - lia.
  - destruct Hst as (k & _ & Hd). destruct (Hnever k). congruence.
  - destruct Hst as (k & _ & Hd). destruct (Hnever k). congruence.
Qed.

(** C6: [Run] returns for one of two reasons only: the total is positive
    and as many builders as the total have been sent, or its [select] took
    the [Done] case of a cancelled context (the generator's own or the
    caller's).  It does return in both cases: after [total] hand-offs, and
    at a [select] where a context is cancelled and no receiver is waiting.
    With a total of 0 (or below) and no context ever cancelled it never
    returns, and goes on sending as long as receivers take the builders. *)
Theorem Run_exit_conditions :
  (total <= Int64.max ->
   forall n why,
     status (run n) = Returned why ->
     match why with
     | ByTotal =>
         0 < total /\ sum (run n) = total /\
         Z.of_nat (List.length (sent (run n))) = total
     | ByGenCtx =>
         exists k, (k < n)%nat /\ Done (cancelledBy k) (ctx r) = true
     | ByCallerCtx =>
         exists k, (k < n)%nat /\ Done (cancelledBy k) callerCtx = true
     end) /\
  (0 < total <= Int64.max ->
   (forall k, Z.of_nat k < total -> sendsAt k) ->
   status (run (Z.to_nat total)) = Running /\
   status (run (S (Z.to_nat total))) = Returned ByTotal /\
   Z.of_nat (List.length (sent (run (S (Z.to_nat total))))) = total) /\
  (forall k,
      status (run k) = Running ->
      ~ 0 < total <= sum (run k) ->
      randomPick r (pickEntropy (env k)) <> None ->
      ready (peer (env k)) (receivers (run k)) = false ->
      Done (cancelledBy k) (ctx r) = true \/
      Done (cancelledBy k) callerCtx = true ->
      (status (run (S k)) = Returned ByGenCtx \/
       status (run (S k)) = Returned ByCallerCtx) /\
      sent (run (S k)) = sent (run k)) /\
  (total <= 0 ->
   (forall k, Done (cancelledBy k) (ctx r) = false /\
              Done (cancelledBy k) callerCtx = false) ->
   (forall n why, status (run n) <> Returned why) /\
   ((forall k, sendsAt k) ->
    forall n, status (run n) = Running /\ List.length (sent (run n)) = n)).
Proof.
  split; [|split; [|split]].
  - intros Hmax n why. now apply Run_returned_cause.
  - apply Run_reaches_total.
  - apply Run_cancelled_exits.
  - intros Ht Hnever. split; [now apply Run_never_returns|].
    intros Hsend n. apply Run_sends;
      [unfold Int64.max; lia | lia | intros j _; apply Hsend].
Qed.

End RunFacts.

Lemma Run_exit_conditions_witness :
  status (Run flagReady flagReceive flagCancels sampleGenerator sampleCaller 3
              sampleRunEnv tt 4) = Returned ByTotal /\
  Z.of_nat
    (List.length
       (sent (Run flagReady flagReceive flagCancels sampleGenerator
                  sampleCaller 3 sampleRunEnv tt 4))) = 3.
Proof.
  destruct (Run_exit_conditions flagReady flagReceive flagCancels
              sampleGenerator sampleCaller 3 sampleRunEnv tt)
    as (_ & Hreach & _ & _).
  destruct Hreach as (_ & Hret & Hsent).
  - unfold Int64.max. lia.
  - intros k Hk.
    assert (Hcase : (k = 0 \/ k = 1 \/ k = 2)%nat) by lia.
    destruct Hcase as [-> | [-> | ->]];
      (split; [vm_compute; discriminate|]);
      (split; [reflexivity | discriminate]).
  - split; [exact Hret | exact Hsent].
Defined.

(** ** The scheduler *)

Lemma Done_Background (cs : list Context) : Done cs Background = false.
Proof. reflexivity. Qed.

(** A request in flight ends as the server and the network decide, whatever
    has been cancelled: its context is [context.Background()]. *)
Lemma observeRequest_any_cancelled cs e s :
  observeRequest cs e s = observeRequest [] e s.
Proof. reflexivity. Qed.

Lemma observeRequest_counts cs e s :
  List.length (metrics.latencySeconds (metric (observeRequest cs e s)))
  = S (List.length (metrics.latencySeconds (metric s))) /\
  List.length (metrics.failureList (metric (observeRequest cs e s)))
  = (List.length (metrics.failureList (metric s))
     + if requestFailed e then 1 else 0)%nat.
Proof.
  unfold observeRequest, Stream, requestFailed. rewrite Done_Background.
  destruct (stream e) as [err | bytes [err|]]; cbn;
    rewrite ?length_app; cbn; split; lia.
Qed.

Section ScheduleFacts.

Context `{Collaborators}.
Variable callerCtx : Context.
Variable spec : LoadProfileSpec.
Variable restCli : list Interface.
Variable g : WeightedRandomRequests.
Variable env : nat -> RunEnv WorkerEnv.

Abbreviation sctx := (scheduleCtx callerCtx).
Abbreviation srun := (scheduleRun callerCtx spec restCli g env).
Abbreviation sstep :=
  (Run_step (workerReady spec) (workerReceive restCli sctx)
            (workerCancels sctx) g sctx (Total spec)).
Abbreviation scancelled k :=
  (cancelledAt (workerCancels sctx) (env k) (receivers (srun k))).

Lemma srun_S n : srun (S n) = sstep (env n) (srun n).
Proof. reflexivity. Qed.

Lemma srun_stays n : status (srun n) <> Running -> srun (S n) = srun n.
Proof. unfold scheduleRun. apply Run_stays. Qed.

(** What a worker does with the builder it receives. *)
Lemma workerReceive_effect builder e cs w w' :
  workerReceive restCli sctx builder e cs w = Some w' ->
  exists k b cli rq b',
    worker e = Some k /\
    nth_error (builders w) builder = Some b /\
    Build b cli (buildEnv e) = Some (rq, b') /\
    builders w' = set_nth (builders w) builder b' /\
    match limiterWait cs sctx (waitErr e) with
    | Some _ =>
        exited w' = k :: exited w /\ cancelCalled w' = true /\
        sink w' = sink w
    | None =>
        exited w' = exited w /\ cancelCalled w' = cancelCalled w /\
        sink w' = observeRequest cs e (sink w)
    end.
Proof.
  unfold workerReceive. intros Hr.
  destruct (worker e) as [k|]; [|discriminate].
  destruct (nth_error (builders w) builder) as [b|]; [|discriminate].
  destruct (nth_error restCli _) as [cli|]; [|discriminate].
  destruct (Build b cli (buildEnv e)) as [[rq b']|] eqn:Hb; [|discriminate].
  exists k, b, cli, rq, b'.
  destruct (limiterWait cs sctx (waitErr e)); injection Hr as <-;
    cbn; repeat split; assumption.
Qed.

(** One turn adds one latency to the sink when it ran a request, and
    nothing otherwise; and one failure when that request failed. *)
Lemma counts_step n :
  observations callerCtx spec restCli g env (S n)
  = (observations callerCtx spec restCli g env n
     + if requestRan callerCtx spec restCli g env n then 1 else 0)%nat /\
  failures callerCtx spec restCli g env (S n)
  = (failures callerCtx spec restCli g env n
     + if requestRan callerCtx spec restCli g env n
          && requestFailed (peer (env n))
       then 1 else 0)%nat.
Proof.
  unfold observations, failures, requestRan, handedOff.
  destruct (status (srun n)) eqn:Hst.
  2-4: rewrite srun_stays by congruence;
       replace (Nat.eqb _ _) with false by (symmetry; apply Nat.eqb_neq; lia);
       cbn [andb]; lia.
  rewrite srun_S.
  destruct (Run_step_spec (workerReady spec) (workerReceive restCli sctx)
              (workerCancels sctx) g sctx (Total spec) (env n) (srun n) Hst)
    as [Ht | Hn Hp | b Hn Hp Hs | b w Hn Hp Hs Hr | b Hn Hp Hs Hr
        | b Hn Hp Hs | b Hn Hp Hs];
    cbn [set_status sent receivers].
  1-3, 5-7:
    replace (Nat.eqb _ _) with false by (symmetry; apply Nat.eqb_neq; lia);
    cbn [andb]; lia.
  replace (Nat.eqb _ _) with true
    by (symmetry; apply Nat.eqb_eq; rewrite length_app; cbn; lia).
  cbn [andb].
  apply workerReceive_effect in Hr.
  destruct Hr as (k & b0 & cli & rq & b' & _ & _ & _ & _ & Hw).
  destruct (limiterWait _ sctx _).
  - destruct Hw as (_ & _ & ->). cbn [andb]. lia.
  - destruct Hw as (_ & _ & ->).
    destruct (observeRequest_counts (scancelled n) (peer (env n))
                (sink (receivers (srun n)))) as [-> ->].
    cbn [andb]. lia.
Qed.

Lemma seq_filter_S (f : nat -> bool) n :
  List.length (filter f (seq 0 (S n)))
  = (List.length (filter f (seq 0 n)) + if f n then 1 else 0)%nat.
Proof.
  rewrite seq_S, filter_app, length_app. cbn.
  destruct (f n); reflexivity.
Qed.

(** The sink holds one latency per request run and one failure per request
    that failed, whenever [Run] is looked at. *)
Lemma observations_count n :
  observations callerCtx spec restCli g env n
  = requestsRun callerCtx spec restCli g env n /\
  failures callerCtx spec restCli g env n
  = requestsFailed callerCtx spec restCli g env n /\
  (requestsSucceeded callerCtx spec restCli g env n
   + requestsFailed callerCtx spec restCli g env n)%nat
  = requestsRun callerCtx spec restCli g env n /\
  (requestsRun callerCtx spec restCli g env n
   <= List.length (sent (srun n)))%nat.
Proof.
  unfold requestsRun, requestsFailed, requestsSucceeded.
  induction n as [|n (IHo & IHf & IHs & IHl)].
  - repeat split; cbn; lia.
  - destruct (counts_step n) as [Ho Hf].
    rewrite !seq_filter_S. rewrite Ho, Hf, IHo, IHf.
    assert (Hsent :
      (List.length (sent (srun n))
       + (if requestRan callerCtx spec restCli g env n then 1 else 0)
       <= List.length (sent (srun (S n))))%nat).
    { unfold requestRan, handedOff.
      destruct (Nat.eqb _ _) eqn:He; cbn [andb].
      - apply Nat.eqb_eq in He. rewrite He.
        destruct (limiterWait _ _ _); lia.
      - destruct (status (srun n)) eqn:Hst.
        2-4: rewrite srun_stays by congruence; lia.
        rewrite srun_S.
        destruct (Run_step_spec (workerReady spec)
                    (workerReceive restCli sctx) (workerCancels sctx) g
                    sctx (Total spec) (env n) (srun n) Hst);
          cbn [set_status sent]; rewrite ?length_app; cbn; lia. }
    destruct (requestRan callerCtx spec restCli g env n),
             (requestFailed (peer (env n))); cbn [andb negb] in *;
      repeat split; lia.
Qed.

End ScheduleFacts.

(** *** A valid profile makes a generator that never panics *)

Lemma sumShares_exact (shares : list Z) : forall acc,
  0 <= acc ->
  Forall (fun s => 0 <= s) shares ->
  acc + fold_right Z.add 0 shares <= Int64.max ->
  fold_left (fun sum s => Int64.wrap (sum + s)) shares acc
  = acc + fold_right Z.add 0 shares.
Proof.
  induction shares as [|s rest IH]; intros acc Hacc Hall Hfit; simpl in *;
    [lia|].
  inversion Hall as [|? ? Hs Hrest]; subst.
  assert (0 <= fold_right Z.add 0 rest).
  { clear -Hrest. induction Hrest; simpl; lia. }
  rewrite wrap_small
    by (unfold Int64.in_range, Int64.min, Int64.max in *; lia).
  rewrite IH; [lia | lia | exact Hrest | lia].
Qed.

Lemma Done_nil (c : Context) : Done [] c = false.
Proof. induction c as [|p IH s]; simpl; auto. Qed.

Lemma select_only_send (choice : nat) :
  select [CaseSend] choice = Some CaseSend.
Proof. unfold select. cbn [List.length]. now rewrite Nat.mod_1_r. Qed.

Lemma set_nth_length {A} (l : list A) : forall i x,
  List.length (set_nth l i x) = List.length l.
Proof.
  induction l as [|y l IH]; intros [|i] x; simpl; auto.
Qed.

Lemma set_nth_Forall {A} (Q : A -> Prop) (l : list A) : forall i x,
  Forall Q l -> Q x -> Forall Q (set_nth l i x).
Proof.
  induction l as [|y l IH]; intros [|i] x Hl Hx; simpl; auto;
    inversion Hl; subst; constructor; auto.
Qed.

Section Buildable.

Context `{Collaborators}.

Lemma Build_buildable b cli e :
  buildable b ->
  exists rq b', Build b cli e = Some (rq, b') /\ buildable b'.
Proof.
  intros Hb. destruct b as [b|b|b|b|b|b]; cbn [Build].
  1-4: eexists; eexists; split; [reflexivity | exact I].
  - unfold requestPatchBuilder_Build, rand_Int. cbn [buildable] in Hb.
    replace (patch_keySpaceSize b <=? 0) with false
      by (symmetry; apply Z.leb_gt; exact Hb).
    eexists; eexists; split; [reflexivity | exact Hb].
  - rewrite Build_cases.
    destruct (if shouldDelete _ _ then _ else _) as [rq b'].
    eexists; eexists; split; [reflexivity | exact I].
Qed.

Lemma newBuilder_buildable spec r b :
  validRequest r = true -> newBuilder spec r = Some b -> buildable b.
Proof.
  unfold validRequest, newBuilder. intros Hv Hb.
  apply andb_true_iff in Hv. destruct Hv as [_ Hp].
  destruct (StaleList r), (QuorumList r), (WatchList r), (StaleGet r),
           (QuorumGet r), (GetPodLog r), (Patch r) as [p|], (PostDel r);
    try discriminate; injection Hb as <-; try exact I;
    cbn; apply Z.leb_le in Hp; lia.
Qed.

(** The generator of a valid profile whose shares add up within an
    [int]. *)
Lemma generator_of_valid_profile spec g :
  NewWeightedRandomRequests spec = inl g ->
  validProfile spec = true ->
  fold_right Z.add 0 (map Shares (Requests spec)) <= Int64.max ->
  Forall (fun s => 0 <= s) (shares g) /\
  List.length (reqBuilders g) = List.length (shares g) /\
  0 < sumShares (shares g) /\
  Forall buildable (reqBuilders g) /\
  Done [] (ctx g) = false /\
  1 <= Client spec.
Proof.
  intros Hg Hv Hfit.
  destruct (NewWeightedRandomRequests_spec spec g Hg) as (Hctx & Hs & Hb).
  unfold validProfile in Hv.
  apply andb_true_iff in Hv. destruct Hv as [Hv _].
  apply andb_true_iff in Hv. destruct Hv as [Hv _].
  apply andb_true_iff in Hv. destruct Hv as [Hv Hclient].
  apply andb_true_iff in Hv. destruct Hv as [Hv H0].
  apply negb_true_iff, Nat.eqb_neq in Hv.
  rewrite forallb_forall in H0.
  assert (Hpos : Forall (fun s => 0 < s) (map Shares (Requests spec))).
  { apply Forall_forall. intros s Hin. apply in_map_iff in Hin.
    destruct Hin as (r & <- & Hr). specialize (H0 r Hr).
    unfold validRequest in H0. apply andb_true_iff in H0.
    destruct H0 as [Hsh _]. now apply Z.ltb_lt in Hsh. }
  assert (Hnn : Forall (fun s => 0 <= s) (map Shares (Requests spec))).
  { eapply Forall_impl; [|exact Hpos]. simpl. intros; lia. }
  rewrite Hs. split; [exact Hnn|].
  split; [rewrite length_map; symmetry; eapply Forall2_length; eassumption|].
  split.
  { unfold sumShares. rewrite sumShares_exact; [|lia|exact Hnn|lia].
    destruct (Requests spec) as [|r0 rs]; [contradiction|].
    cbn [map fold_right] in *. inversion Hpos as [|? ? H0' Hrest]; subst.
    inversion Hnn; subst.
    assert (0 <= fold_right Z.add 0 (map Shares rs)).
    { clear -Hrest. induction Hrest; simpl; lia. }
    lia. }
  split.
  { clear -Hb H0. induction Hb as [|r b rs bs Hrb Hrest IH]; constructor.
    - eapply newBuilder_buildable; [|exact Hrb].
      apply H0. now left.
    - apply IH. intros x Hx. apply H0. now right. }
  split; [apply Done_nil|].
  now apply Z.leb_le in Hclient.
Qed.

End Buildable.

(** *** A run to the total, with nothing cancelled *)

Section ScheduleCompletion.

Context `{Collaborators}.
Variable callerCtx : Context.
Variable spec : LoadProfileSpec.
Variable restCli : list Interface.
Variable g : WeightedRandomRequests.
Variable env : nat -> RunEnv WorkerEnv.

Abbreviation sctx' := (scheduleCtx callerCtx).
Abbreviation srun' := (scheduleRun callerCtx spec restCli g env).

(** Nothing is cancelled at turn [k], the limiter lets the worker through,
    and a worker is waiting to receive. *)
Abbreviation quietAt k :=
  (cancelled (env k) = [] /\
   waitErr (peer (env k)) = None /\
   exists w, worker (peer (env k)) = Some w /\ Z.of_nat w < Client spec).

Hypothesis Hshares : Forall (fun s => 0 <= s) (shares g).
Hypothesis Hlen : List.length (reqBuilders g) = List.length (shares g).
Hypothesis Hsum : 0 < sumShares (shares g).
Hypothesis Hbuildable : Forall buildable (reqBuilders g).
Hypothesis Htotal : 0 < Total spec <= Int64.max.
Hypothesis Hcli : restCli <> [].

Lemma quiet_run k :
  Z.of_nat k <= Total spec ->
  (forall j, (j < k)%nat -> quietAt j) ->
  status (srun' k) = Running /\
  List.length (sent (srun' k)) = k /\
  exited (receivers (srun' k)) = [] /\
  cancelCalled (receivers (srun' k)) = false /\
  List.length (builders (receivers (srun' k)))
  = List.length (reqBuilders g) /\
  Forall buildable (builders (receivers (srun' k))) /\
  observations callerCtx spec restCli g env k = k.
Proof.
  intros Hk Hquiet. induction k as [|k IH].
  - cbn. repeat split; auto.
  - destruct IH as (Hst & Hsent & Hex & Hcc & Hbl & Hbs & Hobs);
      [lia | intros j Hj; apply Hquiet; lia |].
    destruct (Hquiet k ltac:(lia)) as (Hnc & Hwait & w & Hw & Hwc).
    (* what the select and the limiter see *)
    assert (Hcs : cancelledAt (workerCancels sctx') (env k)
                    (receivers (srun' k)) = []).
    { unfold cancelledAt, workerCancels. now rewrite Hnc, Hcc. }
    assert (Hcases : readyCases (workerReady spec) (workerCancels sctx') g
                       sctx' (env k) (receivers (srun' k)) = [CaseSend]).
    { unfold readyCases. rewrite Hcs, !Done_nil.
      unfold workerReady. rewrite Hw, Hex. cbn.
      replace (Z.of_nat w <? Client spec) with true
        by (symmetry; apply Z.ltb_lt; exact Hwc).
      reflexivity. }
    destruct (randomPick_total g (pickEntropy (env k)) Hshares Hlen Hsum)
      as (i & b0 & _ & Hpick & Hnth & _).
    assert (Hsumk : sum (srun' k) = Z.of_nat k).
    { unfold scheduleRun.
      destruct (Run_sum_invariant (workerReady spec)
                  (workerReceive restCli sctx') (workerCancels sctx') g
                  sctx' (Total spec) env (startWorkers g) k Htotal)
        as [_ Hs].
      unfold scheduleRun in Hsent. rewrite Hs, Hsent. reflexivity. }
    assert (Hib : exists b, nth_error (builders (receivers (srun' k))) i
                            = Some b /\ buildable b).
    { destruct (nth_error (builders (receivers (srun' k))) i) as [b|] eqn:Hb.
      - exists b. split; [reflexivity|].
        eapply Forall_forall; [exact Hbs|]. eapply nth_error_In; eauto.
      - apply nth_error_None in Hb.
        assert (i < List.length (reqBuilders g))%nat
          by (apply nth_error_Some; congruence).
        lia. }
    destruct Hib as (b & Hb & Hbb).
    assert (Hclient : exists cli,
               nth_error restCli (Nat.modulo w (List.length restCli))
               = Some cli).
    { destruct (nth_error restCli _) as [cli|] eqn:Hc; [eauto|].
      apply nth_error_None in Hc.
      assert (List.length restCli <> 0%nat)
        by (destruct restCli; simpl; congruence).
      pose proof (Nat.mod_upper_bound w (List.length restCli) ltac:(lia)).
      lia. }
    destruct Hclient as (cli & Hclient).
    destruct (Build_buildable b cli (buildEnv (peer (env k))) Hbb)
      as (rq & b' & Hbuild & Hbb').
    assert (Hrecv :
      workerReceive restCli sctx' i (peer (env k)) [] (receivers (srun' k))
      = Some {| exited := [];
                cancelCalled := false;
                builders := set_nth (builders (receivers (srun' k))) i b';
                sink := observeRequest [] (peer (env k))
                          (sink (receivers (srun' k))) |}).
    { unfold workerReceive, limiterWait.
      rewrite Hw, Hb, Hclient, Hbuild, Done_nil, Hwait, Hex, Hcc.
      reflexivity. }
    assert (Hnext :
      srun' (S k)
      = {| status := Running;
           sum := Int64.wrap (sum (srun' k) + 1);
           sent := sent (srun' k) ++ [i];
           receivers :=
             {| exited := [];
                cancelCalled := false;
                builders := set_nth (builders (receivers (srun' k))) i b';
                sink := observeRequest [] (peer (env k))
                          (sink (receivers (srun' k))) |} |}).
    { rewrite srun_S. unfold Run_step. rewrite Hst.
      replace ((0 <? Total spec) && (Total spec <=? sum (srun' k)))
        with false
        by (symmetry; apply andb_false_iff; right; apply Z.leb_gt; lia).
      rewrite Hpick, Hcases, select_only_send, Hcs, Hrecv. reflexivity. }
    unfold observations in *. rewrite Hnext. cbn [status sent receivers
      exited cancelCalled builders sink].
    rewrite length_app, set_nth_length. cbn [List.length].
    destruct (observeRequest_counts [] (peer (env k))
                (sink (receivers (srun' k)))) as [-> _].
    repeat split; try lia; try reflexivity; try assumption.
    now apply set_nth_Forall.
Qed.

(** After [total] quiet turns [Run] returns at the next one, and the sink
    holds [total] latencies. *)
Lemma quiet_run_returns :
  (forall k, Z.of_nat k < Total spec -> quietAt k) ->
  let n := Z.to_nat (Total spec) in
  status (srun' (S n)) = Returned ByTotal /\
  observations callerCtx spec restCli g env (S n) = n.
Proof.
  intros Hquiet n.
  destruct (quiet_run n) as (Hst & Hsent & _ & _ & _ & _ & Hobs);
    [unfold n; lia | intros j Hj; apply Hquiet; unfold n in Hj; lia |].
  assert (Hnext : srun' (S n) = set_status (srun' n) (Returned ByTotal)).
  { rewrite srun_S. unfold Run_step. rewrite Hst.
    destruct (Run_sum_invariant (workerReady spec)
                (workerReceive restCli sctx') (workerCancels sctx') g
                sctx' (Total spec) env (startWorkers g) n Htotal)
      as [_ Hs].
    fold (srun' n) in Hs. rewrite Hsent in Hs.
    replace ((0 <? Total spec) && (Total spec <=? sum (srun' n)))
      with true; [reflexivity|].
    symmetry. apply andb_true_iff. split;
      [apply Z.ltb_lt | apply Z.leb_le]; unfold n in *; lia. }
  unfold observations in *. rewrite Hnext. split; [reflexivity | exact Hobs].
Qed.

End ScheduleCompletion.

(** *** What [Schedule] returns *)

Section ScheduleResult.

Context `{Collaborators}.
Variable reg : list float -> metrics.RegistryGather.
Variable callerCtx : Context.
Variable spec : LoadProfileSpec.
Variable restCli : list Interface.
Variable env : nat -> RunEnv WorkerEnv.
Variable duration : Z.

Lemma Schedule_of_returned g fuel why gr :
  NewWeightedRandomRequests spec = inl g ->
  restCli <> [] \/ Client spec <= 0 ->
  status (scheduleRun callerCtx spec restCli g env fuel) = Returned why ->
  metrics.Gather reg
    (metric (sink (receivers (scheduleRun callerCtx spec restCli g env fuel))))
  = Some gr ->
  Schedule reg callerCtx spec restCli env duration fuel
  = Some (Some (statsOf spec duration
                  (sink (receivers
                           (scheduleRun callerCtx spec restCli g env fuel)))
                  gr),
          None).
Proof.
  intros Hg Hcli Hst Hgr. unfold Schedule. rewrite Hg.
  replace ((0 <? Client spec) && Nat.eqb (List.length restCli) 0) with false.
  - rewrite Hst, Hgr. reflexivity.
  - symmetry. apply andb_false_iff. destruct Hcli as [Hne | Hc].
    + right. apply Nat.eqb_neq. destruct restCli; simpl; congruence.
    + left. apply Z.ltb_ge. exact Hc.
Qed.

Lemma Schedule_inversion fuel res :
  Schedule reg callerCtx spec restCli env duration fuel = Some res ->
  match NewWeightedRandomRequests spec with
  | inr err => res = (None, Some err)
  | inl g =>
      let s :=
        sink (receivers (scheduleRun callerCtx spec restCli g env fuel)) in
      exists why gr,
        status (scheduleRun callerCtx spec restCli g env fuel)
        = Returned why /\
        metrics.Gather reg (metric s) = Some gr /\
        res = (Some (statsOf spec duration s gr), None)
  end.
Proof.
  unfold Schedule.
  destruct (NewWeightedRandomRequests spec) as [g|err];
    [|now intros [= <-]].
  destruct ((0 <? Client spec) && Nat.eqb (List.length restCli) 0);
    [discriminate|].
  destruct (status (scheduleRun callerCtx spec restCli g env fuel))
    as [| |why|] eqn:Hst; try discriminate.
  destruct (metrics.Gather reg _) as [gr|] eqn:Hgr; [|discriminate].
  intros [= <-]. exists why, gr. repeat split.
Qed.

End ScheduleResult.

(** C8, where the claim fails: with a registry whose gathering fails,
    [Gather] reports its error, and [Schedule] returns the stats with a
    [nil] error all the same. *)
Lemma Schedule_with_failing_Gather :
  (forall m,
      option_map metrics.gatherErr (metrics.Gather failingRegistry m)
      = Some (Some "failed to gather from local registry: collect")) /\
  Schedule (H := sampleCollaborators) failingRegistry sampleCaller
           (sampleSpec 3) [7%nat] sampleEnv 42 4
  = Some (Some {| Stats_Total := 3;
                  Stats_FailureList := [];
                  Stats_Duration := 42;
                  Stats_TotalReceivedBytes := 3072;
                  Stats_PercentileLatencies := None |},
          None).
Proof. split; [reflexivity | vm_compute; reflexivity]. Qed.

(** C8, amended: the only error [Schedule] returns is the one of
    [NewWeightedRandomRequests], and then without stats; once the generator
    is made, a [Schedule] that returns returns stats and a [nil] error,
    whether or not the final [Gather] failed: the total is the configured
    one, the failure list is the sink's, and the percentile latencies are
    missing when the registry failed. *)
Theorem Schedule_drops_Gather_error `{Collaborators}
    (reg : list float -> metrics.RegistryGather) (callerCtx : Context)
    (spec : LoadProfileSpec) (restCli : list Interface)
    (env : nat -> RunEnv WorkerEnv) (duration : Z) (fuel : nat)
    (res : option ResponseStats * option error) :
  Schedule reg callerCtx spec restCli env duration fuel = Some res ->
  match NewWeightedRandomRequests spec with
  | inr err => res = (None, Some err)
  | inl g =>
      let s := sink (receivers (scheduleRun callerCtx spec restCli g env fuel)) in
      snd res = None /\
      exists stats gr,
        fst res = Some stats /\
        metrics.Gather reg (metric s) = Some gr /\
        Stats_Total stats = Total spec /\
        Stats_FailureList stats = metrics.failureList (metric s) /\
        Stats_PercentileLatencies stats = metrics.latencies gr /\
        (forall e, metrics.gatherErr gr = Some e ->
                   Stats_PercentileLatencies stats = None)
  end.
Proof.
  intros Hres. apply Schedule_inversion in Hres.
  destruct (NewWeightedRandomRequests spec) as [g|err]; [|exact Hres].
  cbv zeta in *. destruct Hres as (why & gr & _ & Hgr & ->).
  split; [reflexivity|].
  eexists; exists gr. split; [reflexivity|]. split; [exact Hgr|].
  cbn [statsOf Stats_Total Stats_FailureList Stats_PercentileLatencies].
  split; [reflexivity|].
  split; [now apply Gather_failureList with (reg := reg)|].
  split; [reflexivity|].
  intros e He. unfold metrics.Gather in Hgr.
  destruct (reg _) as [err|[|[|quantiles ?] ?]]; try discriminate;
    injection Hgr as <-; [reflexivity | discriminate].
Qed.

Lemma Schedule_drops_Gather_error_witness :
  Schedule (H := sampleCollaborators) failingRegistry sampleCaller
           (sampleSpec 3) [7%nat] sampleEnv 42 4
  = Some (Some {| Stats_Total := 3;
                  Stats_FailureList := [];
                  Stats_Duration := 42;
                  Stats_TotalReceivedBytes := 3072;
                  Stats_PercentileLatencies := None |},
          None) /\
  snd (Some {| Stats_Total := 3;
               Stats_FailureList := [];
               Stats_Duration := 42;
               Stats_TotalReceivedBytes := 3072;
               Stats_PercentileLatencies := None |},
       @None error) = None.
Proof.
  assert (Hrun :
    Schedule (H := sampleCollaborators) failingRegistry sampleCaller
             (sampleSpec 3) [7%nat] sampleEnv 42 4
    = Some (Some {| Stats_Total := 3;
                    Stats_FailureList := [];
                    Stats_Duration := 42;
                    Stats_TotalReceivedBytes := 3072;
                    Stats_PercentileLatencies := None |},
            None)) by (vm_compute; reflexivity).
  split; [exact Hrun|].
  pose proof (Schedule_drops_Gather_error (H := sampleCollaborators)
                failingRegistry sampleCaller (sampleSpec 3) [7%nat] sampleEnv
                42 4 _ Hrun) as Hthm.
  exact (proj1 Hthm).
Defined.

(** *** Cancellation *)

Lemma Context_eqb_refl (c : Context) : Context_eqb c c = true.
Proof.
  induction c as [|p IH s]; [reflexivity|].
  cbn [Context_eqb]. now rewrite String.eqb_refl, IH.
Qed.

Lemma Done_app_l (c : Context) : forall cs cs',
  Done cs c = true -> Done (cs ++ cs') c = true.
Proof.
  induction c as [|p IH s]; intros cs cs'; cbn [Done]; [discriminate|].
  rewrite existsb_app. intros Hd. apply orb_true_iff in Hd.
  destruct Hd as [-> | Hd]; [reflexivity|].
  rewrite (IH _ _ Hd). now rewrite orb_true_r.
Qed.

(** A context is done as soon as its parent is. *)
Lemma Done_child (cs : list Context) (parent : Context) (site : string) :
  Done cs parent = true -> Done cs (WithCancel parent site) = true.
Proof. intros Hd. cbn [Done]. rewrite Hd. apply orb_true_r. Qed.

Lemma Done_cancelled (cs : list Context) (parent : Context) (site : string) :
  Done (WithCancel parent site :: cs) (WithCancel parent site) = true.
Proof.
  cbn [Done existsb]. fold (Context_eqb (WithCancel parent site)).
  now rewrite Context_eqb_refl.
Qed.

Section ScheduleCancelled.

Context `{Collaborators}.
Variable callerCtx : Context.
Variable spec : LoadProfileSpec.
Variable restCli : list Interface.
Variable g : WeightedRandomRequests.
Variable env : nat -> RunEnv WorkerEnv.

(** With the caller's context cancelled and no worker waiting, [Run]
    returns at this [select], and no request is run in this turn. *)
Lemma scheduleRun_cancelled_exits k :
  status (scheduleRun callerCtx spec restCli g env k) = Running ->
  ~ 0 < Total spec <= sum (scheduleRun callerCtx spec restCli g env k) ->
  randomPick g (pickEntropy (env k)) <> None ->
  workerReady spec (peer (env k))
    (receivers (scheduleRun callerCtx spec restCli g env k)) = false ->
  Done (cancelled (env k)) callerCtx = true ->
  (status (scheduleRun callerCtx spec restCli g env (S k))
   = Returned ByGenCtx \/
   status (scheduleRun callerCtx spec restCli g env (S k))
   = Returned ByCallerCtx) /\
  requestRan callerCtx spec restCli g env k = false.
Proof.
  intros Hst Hnt Hpick Hready Hdone.
  assert (Hsd : Done (cancelledAt (workerCancels (scheduleCtx callerCtx))
                        (env k)
                        (receivers
                           (scheduleRun callerCtx spec restCli g env k)))
                     (scheduleCtx callerCtx) = true).
  { unfold cancelledAt, scheduleCtx. apply Done_child.
    now apply Done_app_l. }
  destruct (Run_cancelled_exits (workerReady spec)
              (workerReceive restCli (scheduleCtx callerCtx))
              (workerCancels (scheduleCtx callerCtx)) g
              (scheduleCtx callerCtx) (Total spec) env (startWorkers g) k
              Hst Hnt Hpick Hready (or_intror Hsd)) as [Hret Hsent].
  fold (scheduleRun callerCtx spec restCli g env (S k)) in Hret, Hsent.
  fold (scheduleRun callerCtx spec restCli g env k) in Hsent.
  split; [exact Hret|].
  unfold requestRan, handedOff. rewrite Hsent.
  replace (Nat.eqb _ _) with false by (symmetry; apply Nat.eqb_neq; lia).
  reflexivity.
Qed.

End ScheduleCancelled.

(** C1: on a valid profile with a total [T > 0], when nothing is cancelled,
    the limiter lets every worker through and a worker takes each builder,
    [Schedule] returns after [T] hand-offs with [total = T] and with [T]
    latencies in the sink, one per request, failed or not.  Whenever
    [Schedule] returns, cancelled early or not, [total] is the configured
    total and the sink holds one latency per request that was run; and it
    does return at a [select] where its context is cancelled and no worker
    is waiting. *)
Theorem Schedule_total_fidelity `{Collaborators}
    (reg : list float -> metrics.RegistryGather) (callerCtx : Context)
    (spec : LoadProfileSpec) (restCli : list Interface)
    (g : WeightedRandomRequests) (env : nat -> RunEnv WorkerEnv)
    (duration : Z) :
  NewWeightedRandomRequests spec = inl g ->
  (validProfile spec = true ->
   fold_right Z.add 0 (map Shares (Requests spec)) <= Int64.max ->
   0 < Total spec <= Int64.max ->
   restCli <> [] ->
   (forall observed, observed <> [] -> gatherable (reg observed) = true) ->
   (forall k, Z.of_nat k < Total spec ->
              cancelled (env k) = [] /\
              waitErr (peer (env k)) = None /\
              exists w, worker (peer (env k)) = Some w /\
                        Z.of_nat w < Client spec) ->
   let fuel := S (Z.to_nat (Total spec)) in
   exists stats,
     Schedule reg callerCtx spec restCli env duration fuel
     = Some (Some stats, None) /\
     Stats_Total stats = Total spec /\
     Z.of_nat (observations callerCtx spec restCli g env fuel) = Total spec /\
     (requestsSucceeded callerCtx spec restCli g env fuel
      + requestsFailed callerCtx spec restCli g env fuel)%nat
     = observations callerCtx spec restCli g env fuel /\
     List.length (Stats_FailureList stats)
     = requestsFailed callerCtx spec restCli g env fuel) /\
  (forall fuel res,
      Schedule reg callerCtx spec restCli env duration fuel = Some res ->
      snd res = None /\
      exists stats,
        fst res = Some stats /\
        Stats_Total stats = Total spec /\
        observations callerCtx spec restCli g env fuel
        = requestsRun callerCtx spec restCli g env fuel /\
        (requestsRun callerCtx spec restCli g env fuel
         <= List.length
              (sent (scheduleRun callerCtx spec restCli g env fuel)))%nat) /\
  (forall k,
      restCli <> [] ->
      status (scheduleRun callerCtx spec restCli g env k) = Running ->
      ~ 0 < Total spec
        <= sum (scheduleRun callerCtx spec restCli g env k) ->
      randomPick g (pickEntropy (env k)) <> None ->
      workerReady spec (peer (env k))
        (receivers (scheduleRun callerCtx spec restCli g env k)) = false ->
      Done (cancelled (env k)) callerCtx = true ->
      gatherable
        (reg (metrics.latencySeconds
                (metric (sink (receivers
                   (scheduleRun callerCtx spec restCli g env (S k)))))))
      = true ->
      exists stats,
        Schedule reg callerCtx spec restCli env duration (S k)
        = Some (Some stats, None) /\
        Stats_Total stats = Total spec /\
        observations callerCtx spec restCli g env (S k)
        = requestsRun callerCtx spec restCli g env k).
Proof.
  intros Hg. split; [|split].
  - intros Hvalid Hfit Htotal Hcli Hreg Hquiet fuel.
    destruct (generator_of_valid_profile spec g Hg Hvalid Hfit)
      as (Hsh & Hlen & Hsum & Hb & _ & _).
    destruct (quiet_run_returns callerCtx spec restCli g env Hsh Hlen Hsum Hb
                Htotal Hcli Hquiet) as [Hst Hobs].
    fold fuel in Hst, Hobs.
    destruct (observations_count callerCtx spec restCli g env fuel)
      as (Ho & Hf & Hsf & _).
    destruct (Gather_gatherable reg
                (metric (sink (receivers
                   (scheduleRun callerCtx spec restCli g env fuel)))))
      as [gr Hgr].
    { apply Hreg. unfold observations in Hobs.
      destruct (metrics.latencySeconds _); [|discriminate].
      cbn in Hobs. lia. }
    eexists. split; [eapply Schedule_of_returned; eauto|].
    cbn [statsOf Stats_Total Stats_FailureList].
    split; [reflexivity|]. split; [rewrite Hobs; lia|].
    split; [lia|]. rewrite (Gather_failureList _ _ _ Hgr). exact Hf.
  - intros fuel res Hres. apply Schedule_inversion in Hres.
    rewrite Hg in Hres. cbv zeta in Hres.
    destruct Hres as (why & gr & _ & _ & ->).
    split; [reflexivity|]. eexists. split; [reflexivity|].
    split; [reflexivity|].
    destruct (observations_count callerCtx spec restCli g env fuel)
      as (Ho & _ & _ & Hl).
    split; assumption.
  - intros k Hcli Hst Hnt Hpick Hready Hdone Hreg.
    destruct (scheduleRun_cancelled_exits callerCtx spec restCli g env k
                Hst Hnt Hpick Hready Hdone) as [Hret Hran].
    destruct (counts_step callerCtx spec restCli g env k) as [Hstep _].
    destruct (observations_count callerCtx spec restCli g env k)
      as (Ho & _ & _ & _).
    rewrite Hran in Hstep.
    destruct (Gather_gatherable reg _ Hreg) as [gr Hgr].
    eexists. split.
    + destruct Hret as [Hret | Hret];
        eapply Schedule_of_returned; eauto.
    + cbn [statsOf Stats_Total]. split; [reflexivity | lia].
Qed.

Lemma Schedule_total_fidelity_witness :
  NewWeightedRandomRequests (H := sampleCollaborators) (sampleSpec 3)
  = inl sampleGenerator /\
  (exists stats,
      Schedule (H := sampleCollaborators) sampleRegistry sampleCaller
               (sampleSpec 3) [7%nat] sampleEnv 42 4
      = Some (Some stats, None) /\
      Stats_Total stats = 3 /\
      Z.of_nat (observations (H := sampleCollaborators) sampleCaller
                  (sampleSpec 3) [7%nat] sampleGenerator sampleEnv 4) = 3) /\
  (exists stats,
      Schedule (H := sampleCollaborators) sampleRegistry sampleCaller
               (sampleSpec 1000000000) [7%nat] sampleCancelEnv 42 2
      = Some (Some stats, None) /\
      Stats_Total stats = 1000000000 /\
      observations (H := sampleCollaborators) sampleCaller
        (sampleSpec 1000000000) [7%nat] sampleGenerator sampleCancelEnv 2
      = requestsRun (H := sampleCollaborators) sampleCaller
          (sampleSpec 1000000000) [7%nat] sampleGenerator sampleCancelEnv 1).
Proof.
  assert (Hg : NewWeightedRandomRequests (H := sampleCollaborators)
                 (sampleSpec 3) = inl sampleGenerator) by reflexivity.
  assert (Hg' : NewWeightedRandomRequests (H := sampleCollaborators)
                  (sampleSpec 1000000000) = inl sampleGenerator)
    by reflexivity.
  split; [exact Hg|]. split.
  - destruct (Schedule_total_fidelity (H := sampleCollaborators)
                sampleRegistry sampleCaller (sampleSpec 3) [7%nat]
                sampleGenerator sampleEnv 42 Hg) as (Hdone & _ & _).
    destruct Hdone as (stats & Hs & Ht & Ho & _).
    + reflexivity.
    + vm_compute. discriminate.
    + vm_compute. split; [reflexivity | discriminate].
    + discriminate.
    + intros [|x observed] Hne; [contradiction | reflexivity].
    + intros k _. cbn. repeat split. exists 0%nat.
      split; [reflexivity | lia].
    + exists stats. repeat split; assumption.
  - destruct (Schedule_total_fidelity (H := sampleCollaborators)
                sampleRegistry sampleCaller (sampleSpec 1000000000) [7%nat]
                sampleGenerator sampleCancelEnv 42 Hg') as (_ & _ & Hcancel).
    apply (Hcancel 1%nat).
    + discriminate.
    + reflexivity.
    + vm_compute. intros [_ Hle]. apply Hle. reflexivity.
    + vm_compute. discriminate.
    + reflexivity.
    + reflexivity.
    + reflexivity.
Defined.

(** A run cut short: a total of 10^9, the caller cancels after the first
    hand-off; [Schedule] returns with the configured total and the one
    latency of the request that was run. *)
Lemma Schedule_cancelled_early :
  Schedule (H := sampleCollaborators) sampleRegistry sampleCaller
           (sampleSpec 1000000000) [7%nat] sampleCancelEnv 42 2
  = Some (Some {| Stats_Total := 1000000000;
                  Stats_FailureList := [];
                  Stats_Duration := 42;
                  Stats_TotalReceivedBytes := 1024;
                  Stats_PercentileLatencies :=
                    Some [(0.5%float, 0.5%float)] |},
          None) /\
  observations (H := sampleCollaborators) sampleCaller
    (sampleSpec 1000000000) [7%nat] sampleGenerator sampleCancelEnv 2
  = 1%nat.
Proof. split; vm_compute; reflexivity. Qed.

(** C2, where the claim fails: the caller's context is cancelled and with it
    the scheduler's, and the request a worker has in flight is read to its
    end all the same (1024 bytes, no failure): its context is
    [context.Background()]. *)
Lemma in_flight_stream_outlives_cancellation :
  let cs := [sampleCaller] in
  let s := observeRequest cs (sampleWorkerEnv (Some 0%nat)) NewResponseMetric in
  Done cs (scheduleCtx sampleCaller) = true /\
  Done cs Background = false /\
  Stream cs Background (StreamCopied 1024 None) = StreamCopied 1024 None /\
  metrics.failureList (metric s) = [] /\
  receivedBytes s = 1024.
Proof. repeat split. Qed.

(** C2, amended: cancelling the caller's context cancels the scheduler's
    context, on which the limiter then fails every wait; [Run] returns at a
    [select] where that context is done and no worker is waiting, and [Stop]
    then cancels the generator's own context.  A request in flight is not
    closed by any of this: its stream is read on [context.Background()] and
    ends as the server and the network decide. *)
Theorem cancellation_propagation `{Collaborators} :
  (forall callerCtx cs,
      Done cs callerCtx = true ->
      Done cs (scheduleCtx callerCtx) = true /\
      forall waitErr, limiterWait cs (scheduleCtx callerCtx) waitErr <> None) /\
  (forall callerCtx spec restCli g env k,
      status (scheduleRun callerCtx spec restCli g env k) = Running ->
      ~ 0 < Total spec <= sum (scheduleRun callerCtx spec restCli g env k) ->
      randomPick g (pickEntropy (env k)) <> None ->
      workerReady spec (peer (env k))
        (receivers (scheduleRun callerCtx spec restCli g env k)) = false ->
      Done (cancelled (env k)) callerCtx = true ->
      status (scheduleRun callerCtx spec restCli g env (S k))
      = Returned ByGenCtx \/
      status (scheduleRun callerCtx spec restCli g env (S k))
      = Returned ByCallerCtx) /\
  (forall spec g cs,
      NewWeightedRandomRequests spec = inl g ->
      Done (Stop g cs) (ctx g) = true) /\
  (forall cs o e s,
      Done cs Background = false /\
      Stream cs Background o = o /\
      observeRequest cs e s = observeRequest [] e s).
Proof.
  split; [|split; [|split]].
  - intros callerCtx cs Hd.
    pose proof (Done_child cs callerCtx "Schedule" Hd) as Hs.
    split; [exact Hs|]. intros waitErr. unfold limiterWait.
    unfold scheduleCtx. rewrite Hs. discriminate.
  - intros callerCtx spec restCli g env k Hst Hnt Hpick Hready Hdone.
    apply (scheduleRun_cancelled_exits callerCtx spec restCli g env k
             Hst Hnt Hpick Hready Hdone).
  - intros spec g cs Hg.
    destruct (NewWeightedRandomRequests_spec spec g Hg) as (Hctx & _).
    unfold Stop. rewrite Hctx. apply Done_cancelled.
  - intros cs o e s. repeat split.
Qed.

(** * Further properties of the code *)

(** ** Decimal names *)

Lemma fmt_d_inj (a b : Z) : Int64.fmt_d a = Int64.fmt_d b -> a = b.
Proof.
  unfold Int64.fmt_d. intros Heq.
  assert (Hparse : forall z,
             NilZero.int_of_string (NilZero.string_of_int (Z.to_int z))
             = Some (Z.to_int z)).
  { intros z. apply NilZero.isi; destruct z; simpl; try discriminate;
      intros [= Hnil]; revert Hnil; apply DecimalPos.Unsigned.to_uint_nonnil. }
  apply DecimalZ.to_int_inj.
  pose proof (Hparse a) as Ha. rewrite Heq, Hparse in Ha. congruence.
Qed.

Lemma digits_no_dash (d : Decimal.uint) :
  occurs "-" (NilEmpty.string_of_uint d) = false.
Proof. induction d; simpl; auto. Qed.

Lemma fmt_d_no_dash (z : Z) : 0 <= z -> occurs "-" (Int64.fmt_d z) = false.
Proof.
  intros Hz. unfold Int64.fmt_d.
  destruct z as [|p|p]; [reflexivity | | lia].
  simpl. destruct (Pos.to_uint p); try reflexivity; apply digits_no_dash.
Qed.

Lemma occurs_app c a b : occurs c (a ++ b) = occurs c a || occurs c b.
Proof.
  induction a as [|x a IH]; simpl; [reflexivity|].
  rewrite IH. now rewrite orb_assoc.
Qed.

Lemma lastField_dash (a d : string) :
  occurs "-" d = false -> lastField (a ++ "-" ++ d) = d.
Proof.
  intros Hd. induction a as [|x a IH]; simpl.
  - now rewrite Hd.
  - rewrite occurs_app. simpl. now rewrite orb_true_r.
Qed.

(** Two names [{a}-{m}] and [{b}-{n}] with non-negative numbers are the same
    only when the numbers are. *)
Lemma dashed_name_inj (a b : string) (m n : Z) :
  0 <= m -> 0 <= n ->
  (a ++ "-" ++ Int64.fmt_d m)%string = (b ++ "-" ++ Int64.fmt_d n)%string ->
  m = n.
Proof.
  intros Hm Hn Heq. apply fmt_d_inj.
  rewrite <- (lastField_dash a (Int64.fmt_d m)) by now apply fmt_d_no_dash.
  rewrite <- (lastField_dash b (Int64.fmt_d n)) by now apply fmt_d_no_dash.
  now rewrite Heq.
Qed.

(** ** The patch builder *)

Lemma patchName_inj (b : requestPatchBuilder) (j k : Z) :
  0 <= j -> 0 <= k -> patchName b j = patchName b k -> j = k.
Proof. unfold patchName. apply dashed_name_inj. Qed.

(** X1: the patch builder panics in [rand.Int] when its key space is not
    positive; with a key space of [K >= 1] every [Build] makes a PATCH
    request for ["{name}-{k}"] with some [k] of [0, K), with the patch type
    and the body of the builder and no query parameter; each [k] of
    [0, K) comes out for some draw, and different [k] give different
    names: the builder spreads its requests over exactly [K] resources. *)
Theorem Patch_Build_key_space (b : requestPatchBuilder) (cli : Interface) :
  (patch_keySpaceSize b <= 0 ->
   forall env, requestPatchBuilder_Build b cli env = None) /\
  (0 < patch_keySpaceSize b ->
   (forall env, exists k r,
       0 <= k < patch_keySpaceSize b /\
       requestPatchBuilder_Build b cli env = Some (DiscardRequester r) /\
       method r = "PATCH" /\
       client (req r) = cli /\
       verb (req r) = "PATCH" /\
       patchType (req r) = Some (patch_patchType b) /\
       absPath (req r)
       = groupVersionPath (patch_version b) (patch_namespace b)
           ++ [patch_resource b; patchName b k] /\
       params (req r) = None /\
       body (req r) = Some (patch_body b) /\
       maxRetries (req r) = patch_maxRetries b) /\
   (forall k, 0 <= k < patch_keySpaceSize b ->
       exists env r,
         requestPatchBuilder_Build b cli env = Some (DiscardRequester r) /\
         absPath (req r)
         = groupVersionPath (patch_version b) (patch_namespace b)
             ++ [patch_resource b; patchName b k])) /\
  (forall j k, 0 <= j -> 0 <= k -> patchName b j = patchName b k -> j = k).
Proof.
  split; [|split].
  - intros HK env. unfold requestPatchBuilder_Build, rand_Int.
    destruct (Z.leb_spec (patch_keySpaceSize b) 0); [reflexivity | lia].
  - intros HK. split.
    + intros env. exists (entropy env mod patch_keySpaceSize b).
      unfold requestPatchBuilder_Build, rand_Int.
      destruct (Z.leb_spec (patch_keySpaceSize b) 0); [lia|].
      eexists. split; [now apply Z.mod_pos_bound|].
      split; [reflexivity|]. repeat split.
    + intros k Hk. exists {| entropy := k; unixNano := 0 |}.
      unfold requestPatchBuilder_Build, rand_Int. cbn [entropy].
      destruct (Z.leb_spec (patch_keySpaceSize b) 0); [lia|].
      eexists. split; [reflexivity|].
      cbn [req absPath SetMaxRetries Body AbsPath].
      unfold patchName. now rewrite Z.mod_small.
  - apply patchName_inj.
Qed.

(** ** The errors of the generator's constructor *)

Section Constructor.

Context `{Collaborators}.

Lemma newBuilder_hasKind spec r :
  hasKind r = match newBuilder spec r with Some _ => true | None => false end.
Proof.
  unfold hasKind, newBuilder.
  destruct (StaleList r), (QuorumList r), (WatchList r), (StaleGet r),
    (QuorumGet r), (GetPodLog r), (Patch r), (PostDel r); reflexivity.
Qed.

Lemma newBuilders_result spec rs : forall shares0 builders0,
  if forallb hasKind rs then
    exists sh bs,
      newBuilders spec rs shares0 builders0 = inl (sh, bs) /\
      List.length sh = (List.length shares0 + List.length rs)%nat /\
      List.length bs = (List.length builders0 + List.length rs)%nat
  else newBuilders spec rs shares0 builders0 = inr "not implement for PUT yet".
Proof.
  induction rs as [|r rs IH]; intros sh0 bs0; cbn [forallb newBuilders].
  - exists sh0, bs0. cbn [List.length]. repeat split; lia.
  - rewrite (newBuilder_hasKind spec r).
    destruct (newBuilder spec r) as [b|]; cbn [andb]; [|reflexivity].
    specialize (IH (sh0 ++ [Shares r]) (bs0 ++ [b])).
    destruct (forallb hasKind rs); [|exact IH].
    destruct IH as (sh & bs & -> & Hs & Hb).
    exists sh, bs. rewrite !length_app in *. cbn [List.length] in *.
    repeat split; lia.
Qed.

(** X2: the constructor of the generator fails in two ways only: with the
    error of [Validate], wrapped, when the profile is not valid, and with
    ["not implement for PUT yet"] when the profile is valid but one of its
    entries sets none of the eight kinds; otherwise it returns a generator
    with one share and one builder per entry.  [Schedule] hands either
    error on, with no stats, whatever the clients and the environment. *)
Theorem NewWeightedRandomRequests_errors (spec : LoadProfileSpec) :
  match Validate spec with
  | Some err =>
      NewWeightedRandomRequests spec
      = inr ("invalid load profile spec: " ++ err)%string
  | None =>
      if forallb hasKind (Requests spec) then
        exists g,
          NewWeightedRandomRequests spec = inl g /\
          List.length (shares g) = List.length (Requests spec) /\
          List.length (reqBuilders g) = List.length (Requests spec)
      else
        NewWeightedRandomRequests spec = inr "not implement for PUT yet"
  end /\
  forall err reg callerCtx restCli env duration fuel,
    NewWeightedRandomRequests spec = inr err ->
    Schedule reg callerCtx spec restCli env duration fuel
    = Some (None, Some err).
Proof.
  split.
  - unfold NewWeightedRandomRequests.
    destruct (Validate spec) as [err|]; [reflexivity|].
    pose proof (newBuilders_result spec (Requests spec) [] []) as Hr.
    destruct (forallb hasKind (Requests spec)).
    + destruct Hr as (sh & bs & -> & Hs & Hb).
      eexists. split; [reflexivity|]. cbn [shares reqBuilders].
      cbn [List.length] in *. split; lia.
    + now rewrite Hr.
  - intros err reg callerCtx restCli env duration fuel Herr.
    unfold Schedule. now rewrite Herr.
Qed.

End Constructor.

(** ** The paths of the builders *)

Lemma decodePath_groupVersionPath (n : nat) (gv : GroupVersion)
    (ns : string) (tail : list string) :
  List.length tail = n ->
  decodePath n (groupVersionPath gv ns ++ tail) = Some (gv, ns, tail).
Proof.
  intros Hn. destruct gv as [g v]. unfold groupVersionPath.
  cbn [Group Version].
  assert (Hlen : Nat.eqb (List.length ("namespaces" :: ns :: tail)) n = false).
  { apply Nat.eqb_neq. cbn [List.length]. lia. }
  destruct (String.eqb_spec g "") as [->|Hg];
    destruct (String.eqb_spec ns "") as [->|Hns];
    cbn -[Nat.eqb List.length];
    rewrite ?Hlen, Hn, Nat.eqb_refl; reflexivity.
Qed.

Lemma groupVersionPath_inj (gv1 gv2 : GroupVersion) (ns1 ns2 : string)
    (tail1 tail2 : list string) :
  List.length tail1 = List.length tail2 ->
  groupVersionPath gv1 ns1 ++ tail1 = groupVersionPath gv2 ns2 ++ tail2 ->
  gv1 = gv2 /\ ns1 = ns2 /\ tail1 = tail2.
Proof.
  intros Hlen Heq.
  pose proof (decodePath_groupVersionPath (List.length tail1) gv1 ns1 tail1
                eq_refl) as H1.
  pose proof (decodePath_groupVersionPath (List.length tail1) gv2 ns2 tail2
                (eq_sym Hlen)) as H2.
  rewrite Heq, H2 in H1. injection H1 as -> -> ->. auto.
Qed.

(** X3: the path of a built request tells its target: two GET builders that
    build the same path have the same group and version, namespace, resource
    and name, and two LIST builders, or two WATCHLIST builders, that build
    the same path have the same group and version, namespace and resource;
    a cluster-scoped target (empty namespace) and a namespaced one never
    share a path. *)
Theorem built_paths_identify_targets :
  (forall (b1 b2 : requestGetBuilder) (c1 c2 : Interface),
      absPath (req (Requester_base (requestGetBuilder_Build b1 c1)))
      = absPath (req (Requester_base (requestGetBuilder_Build b2 c2))) ->
      get_version b1 = get_version b2 /\
      get_namespace b1 = get_namespace b2 /\
      get_resource b1 = get_resource b2 /\
      get_name b1 = get_name b2) /\
  (forall (b1 b2 : requestListBuilder) (c1 c2 : Interface),
      absPath (req (Requester_base (requestListBuilder_Build b1 c1)))
      = absPath (req (Requester_base (requestListBuilder_Build b2 c2))) ->
      list_version b1 = list_version b2 /\
      list_namespace b1 = list_namespace b2 /\
      list_resource b1 = list_resource b2) /\
  (forall (b1 b2 : requestWatchListBuilder) (c1 c2 : Interface),
      absPath (req (Requester_base (requestWatchListBuilder_Build b1 c1)))
      = absPath (req (Requester_base (requestWatchListBuilder_Build b2 c2))) ->
      watch_version b1 = watch_version b2 /\
      watch_namespace b1 = watch_namespace b2 /\
      watch_resource b1 = watch_resource b2).
Proof.
  repeat apply conj; intros b1 b2 c1 c2 Heq; cbn in Heq;
    apply groupVersionPath_inj in Heq; try reflexivity;
    destruct Heq as (Hv & Hn & Ht); injection Ht; intros; auto.
Qed.

(** ** Churns of the postDel builder *)

Section Churn.

Context `{Collaborators}.

Lemma buildPost_then_Do b cli env comps result :
  let reqr := fst (buildPost b cli env comps) in
  let b2 := snd (PostDelDiscardRequester_Do reqr result
                   (snd (buildPost b cli env comps))) in
  isPost reqr = true /\
  name reqr
  = (Int64.fmt_d (unixNano env) ++ "-"
       ++ Int64.fmt_d (Int64.wrap (resourceCounter b + 1)))%string /\
  resourceCounter b2 = Int64.wrap (resourceCounter b + 1) /\
  cache b2 = match snd result with
             | None => cache b ++ [name reqr]
             | Some _ => cache b
             end.
Proof. destruct result as [bytes [err|]]; repeat split. Qed.

(** What one step of a churn does to the builder. *)
Lemma churnStep_cases b cli env result :
  exists reqr b2,
    churnStep b (cli, env, result) = Some (reqr, b2) /\
    ((isPost reqr = true /\
      name reqr
      = (Int64.fmt_d (unixNano env) ++ "-"
           ++ Int64.fmt_d (Int64.wrap (resourceCounter b + 1)))%string /\
      resourceCounter b2 = Int64.wrap (resourceCounter b + 1) /\
      cache b2 = match snd result with
                 | None => cache b ++ [name reqr]
                 | Some _ => cache b
                 end)
     \/
     (isPost reqr = false /\
      resourceCounter b2 = resourceCounter b /\
      exists rest,
        cache b = name reqr :: rest /\
        cache b2 = match snd result with
                   | None => rest
                   | Some _ => rest ++ [name reqr]
                   end)).
Proof.
  unfold churnStep. rewrite Build_cases.
  set (comps := groupVersionPath (pd_version b) (pd_namespace b)).
  pose proof (buildPost_then_Do b cli env comps result) as Hpost.
  cbv zeta in Hpost.
  destruct (shouldDelete _ _); [destruct (cache b) as [|x rest] eqn:Hc|].
  - exists (fst (buildPost b cli env comps)),
           (snd (PostDelDiscardRequester_Do (fst (buildPost b cli env comps))
                   result (snd (buildPost b cli env comps)))).
    split; [|left; exact Hpost].
    destruct (buildPost b cli env comps); reflexivity.
  - eexists; eexists. split; [reflexivity|]. right.
    split; [reflexivity|]. split; [now destruct result as [? [?|]]|].
    exists rest. split; [reflexivity|].
    now destruct result as [? [?|]].
  - exists (fst (buildPost b cli env comps)),
           (snd (PostDelDiscardRequester_Do (fst (buildPost b cli env comps))
                   result (snd (buildPost b cli env comps)))).
    split; [|left; exact Hpost].
    destruct (buildPost b cli env comps); reflexivity.
Qed.

Lemma churn_cons b cli env result rest :
  exists reqr b2,
    churnStep b (cli, env, result) = Some (reqr, b2) /\
    churn b ((cli, env, result) :: rest)
    = (reqr :: fst (churn b2 rest), snd (churn b2 rest)) /\
    churnLog b ((cli, env, result) :: rest)
    = (reqr, snd result) :: churnLog b2 rest.
Proof.
  destruct (churnStep_cases b cli env result) as (reqr & b2 & Hs & _).
  exists reqr, b2. split; [exact Hs|].
  unfold churnLog. cbn [churn map]. rewrite Hs.
  destruct (churn b2 rest) as [reqrs b3]. cbn [fst snd combine]. auto.
Qed.

Lemma churnLog_length steps : forall b,
  List.length (churnLog b steps) = List.length steps.
Proof.
  induction steps as [|[[cli env] result] steps IH]; intros b.
  - reflexivity.
  - destruct (churn_cons b cli env result steps) as (reqr & b2 & _ & _ & ->).
    cbn [List.length]. now rewrite IH.
Qed.

Lemma churn_ledger steps : forall b,
  Permutation (cache (snd (churn b steps)) ++ deleted (churnLog b steps))
              (cache b ++ posted (churnLog b steps)).
Proof.
  induction steps as [|[[cli env] result] steps IH]; intros b.
  - cbn. reflexivity.
  - destruct (churn_cons b cli env result steps)
      as (reqr & b2 & Hs & -> & ->).
    destruct (churnStep_cases b cli env result)
      as (reqr' & b2' & Hs' & Hcase).
    rewrite Hs in Hs'. injection Hs' as <- <-.
    cbn [snd]. pose proof (IH b2) as IHb.
    unfold posted, deleted, succeeded in *. cbn [filter fst snd].
    destruct Hcase as [(Hp & _ & _ & Hc) | (Hp & _ & rest & Hb & Hc)];
      rewrite Hp; cbn [negb andb]; destruct (snd result) as [e|];
      cbn [map fst]; rewrite Hc in IHb.
    + exact IHb.
    + rewrite IHb, <- app_assoc. reflexivity.
    + rewrite IHb, Hb.
      apply (Permutation_app_tail _ (l := rest ++ [name reqr])
                                    (l' := name reqr :: rest)).
      symmetry. apply Permutation_cons_append.
    + rewrite Hb. cbn [app]. symmetry. apply Permutation_cons_app.
      symmetry. exact IHb.
Qed.

Lemma churn_posts_fresh steps : forall b,
  0 <= resourceCounter b ->
  resourceCounter b + Z.of_nat (List.length steps) <= Int64.max ->
  Forall (fun e => isPost (fst e) = true ->
                   exists a c, name (fst e) = (a ++ "-" ++ Int64.fmt_d c)%string
                               /\ resourceCounter b < c)
         (churnLog b steps) /\
  NoDup (map (fun e => name (fst e))
             (filter (fun e => isPost (fst e)) (churnLog b steps))).
Proof.
  induction steps as [|[[cli env] result] steps IH]; intros b Hb Hmax.
  - cbn. split; constructor.
  - destruct (churn_cons b cli env result steps)
      as (reqr & b2 & Hs & _ & ->).
    destruct (churnStep_cases b cli env result)
      as (reqr' & b2' & Hs' & Hcase).
    rewrite Hs in Hs'. injection Hs' as <- <-.
    cbn [List.length] in Hmax.
    assert (Hw : Int64.wrap (resourceCounter b + 1) = resourceCounter b + 1).
    { apply wrap_small.
      unfold Int64.in_range, Int64.min, Int64.max in *. lia. }
    rewrite Hw in Hcase.
    assert (Hb2 : 0 <= resourceCounter b2 /\
                  resourceCounter b <= resourceCounter b2 /\
                  resourceCounter b2 + Z.of_nat (List.length steps)
                  <= Int64.max).
    { destruct Hcase as [(_ & _ & -> & _) | (_ & -> & _)]; lia. }
    destruct Hb2 as (Hb2 & Hle & Hmax2).
    destruct (IH b2 Hb2 Hmax2) as [Hall Hnd].
    assert (Hall' :
      Forall (fun e => isPost (fst e) = true ->
                       exists a c,
                         name (fst e) = (a ++ "-" ++ Int64.fmt_d c)%string
                         /\ resourceCounter b < c) (churnLog b2 steps)).
    { eapply Forall_impl; [|exact Hall]. cbn beta.
      intros e He Hp. destruct (He Hp) as (a & c & Hn & Hc).
      exists a, c. split; [exact Hn | lia]. }
    split.
    + constructor; [|exact Hall']. cbn [fst]. intros Hp.
      destruct Hcase as [(_ & Hn & _) | (Hp' & _)]; [|congruence].
      eexists; eexists. split; [exact Hn | lia].
    + cbn [filter fst].
      destruct Hcase as [(Hp & Hn & Hc & _) | (Hp & _)]; rewrite Hp;
        [|exact Hnd].
      cbn [map fst]. constructor; [|exact Hnd].
      intros Hin. apply in_map_iff in Hin.
      destruct Hin as (e & Hne & Hin). apply filter_In in Hin.
      destruct Hin as [Hin Hpe].
      rewrite Forall_forall in Hall.
      destruct (Hall e Hin Hpe) as (a & c & Hnc & Hlt).
      rewrite Hn, Hnc in Hne.
      apply dashed_name_inj in Hne; lia.
Qed.

Lemma NoDup_map_filter_weaken {A B} (f : A -> B) (p q : A -> bool)
    (l : list A) :
  (forall x, q x = true -> p x = true) ->
  NoDup (map f (filter p l)) -> NoDup (map f (filter q l)).
Proof.
  intros Hqp. induction l as [|x l IH]; cbn [filter map]; [auto|].
  destruct (q x) eqn:Hq.
  - rewrite (Hqp x Hq). cbn [map]. intros Hnd.
    apply NoDup_cons_iff in Hnd. destruct Hnd as [Hnot Hnd].
    constructor; [|now apply IH].
    intros Hin. apply Hnot. apply in_map_iff in Hin.
    destruct Hin as (y & Hy & Hin). apply filter_In in Hin.
    apply in_map_iff. exists y. split; [exact Hy|].
    apply filter_In. split; [tauto|]. apply Hqp. tauto.
  - destruct (p x); cbn [map]; intros Hnd; apply IH;
      [now apply NoDup_cons_iff in Hnd | exact Hnd].
Qed.

Lemma churn_fst_log steps : forall b,
  fst (churn b steps) = map fst (churnLog b steps).
Proof.
  induction steps as [|[[cli env] result] steps IH]; intros b.
  - reflexivity.
  - destruct (churn_cons b cli env result steps)
      as (reqr & b2 & _ & -> & ->).
    cbn [fst map]. now rewrite IH.
Qed.

(** X4: the ledger of a churn.  Whatever the draws and the outcomes of the
    round trips, the names in the cache after the churn together with the
    names whose DELETE succeeded are, up to order, the names in the cache
    before it together with the names whose POST succeeded: a name enters
    the cache only by a POST that succeeded and leaves it only by a DELETE
    that succeeded.  One requester is built per step. *)
Theorem churn_cache_ledger (b : requestPostDelBuilder)
    (steps : list (Interface * BuildEnv * (Z * option error))) :
  let log := churnLog b steps in
  List.length log = List.length steps /\
  map fst log = fst (churn b steps) /\
  Permutation (cache (snd (churn b steps)) ++ deleted log)
              (cache b ++ posted log) /\
  Len (cache (snd (churn b steps))) + Z.of_nat (List.length (deleted log))
  = Len (cache b) + Z.of_nat (List.length (posted log)).
Proof.
  cbv zeta. split; [apply churnLog_length|].
  split; [symmetry; apply churn_fst_log|].
  split; [apply churn_ledger|].
  pose proof (Permutation_length (churn_ledger steps b)) as Hlen.
  rewrite !length_app in Hlen. unfold Len. lia.
Qed.

(** X5: the names a builder gives to the resources it creates are pairwise
    different, also when the clock does not advance between two [Build]
    calls, as long as the counter does not pass the largest int64. *)
Theorem churn_post_names_distinct (b : requestPostDelBuilder)
    (steps : list (Interface * BuildEnv * (Z * option error))) :
  0 <= resourceCounter b ->
  resourceCounter b + Z.of_nat (List.length steps) <= Int64.max ->
  NoDup (map name (filter isPost (fst (churn b steps)))).
Proof.
  intros Hb Hmax. destruct (churn_posts_fresh steps b Hb Hmax) as [_ Hnd].
  rewrite churn_fst_log.
  clear -Hnd. induction (churnLog b steps) as [|e l IH]; [constructor|].
  cbn [map filter] in *. destruct (isPost (fst e)); cbn [map] in *.
  - apply NoDup_cons_iff in Hnd. destruct Hnd as [Hnot Hnd].
    constructor; [|now apply IH].
    intros Hin. apply Hnot. clear -Hin.
    induction l as [|x l IH]; [exact Hin|].
    cbn [map filter] in *. destruct (isPost (fst x)); cbn [map] in *;
      [destruct Hin; [left; assumption | right; now apply IH] | now apply IH].
  - now apply IH.
Qed.

(** X6: in any churn of a new builder no name is in the cache twice, no
    name is deleted with success twice, and no name deleted with success is
    still in the cache: a DELETE is never sent for a resource that a DELETE
    already removed. *)
Theorem churn_no_double_delete (src : RequestPostDel)
    (resourceVersion : string) (maxRetries : Z)
    (steps : list (Interface * BuildEnv * (Z * option error))) :
  Z.of_nat (List.length steps) <= Int64.max ->
  let b := newRequestPostDelBuilder src resourceVersion maxRetries in
  NoDup (cache (snd (churn b steps)) ++ deleted (churnLog b steps)).
Proof.
  intros Hmax b.
  eapply Permutation_NoDup; [symmetry; apply churn_ledger|].
  cbn [cache b newRequestPostDelBuilder InitCache app].
  destruct (churn_posts_fresh steps b) as [_ Hnd];
    [subst b; cbn [resourceCounter newRequestPostDelBuilder]; lia ..|].
  unfold posted.
  eapply NoDup_map_filter_weaken; [|exact Hnd].
  cbn beta. intros x Hx. now apply andb_true_iff in Hx.
Qed.

End Churn.

Lemma churn_post_names_distinct_witness :
  map name
    (filter isPost
       (fst (churn (H := sampleCollaborators)
               (newRequestPostDelBuilder samplePostDel "" 0) sampleChurn)))
  = ["5-1"; "5-2"; "7-3"] /\
  NoDup
    (map name
       (filter isPost
          (fst (churn (H := sampleCollaborators)
                  (newRequestPostDelBuilder samplePostDel "" 0)
                  sampleChurn)))).
Proof.
  split; [reflexivity|].
  apply (churn_post_names_distinct (H := sampleCollaborators)
           (newRequestPostDelBuilder samplePostDel "" 0) sampleChurn).
  - cbn. lia.
  - vm_compute. discriminate.
Defined.

Lemma churn_no_double_delete_witness :
  cache (snd (churn (H := sampleCollaborators)
                (newRequestPostDelBuilder samplePostDel "" 0) sampleChurn))
  = ["7-3"] /\
  deleted (churnLog (H := sampleCollaborators)
             (newRequestPostDelBuilder samplePostDel "" 0) sampleChurn)
  = ["5-1"] /\
  NoDup
    (cache (snd (churn (H := sampleCollaborators)
                   (newRequestPostDelBuilder samplePostDel "" 0)
                   sampleChurn))
     ++ deleted (churnLog (H := sampleCollaborators)
                   (newRequestPostDelBuilder samplePostDel "" 0)
                   sampleChurn)).
Proof.
  split; [reflexivity|]. split; [reflexivity|].
  apply (churn_no_double_delete (H := sampleCollaborators) samplePostDel
           "" 0 sampleChurn).
  vm_compute. discriminate.
Defined.

(** ** Where the weighted pick can panic *)

Lemma sumShares_prefix (shares : list Z) : forall acc,
  (forall k, Int64.in_range (acc + prefixSum shares k)) ->
  fold_left (fun sum s => Int64.wrap (sum + s)) shares acc
  = acc + fold_right Z.add 0 shares.
Proof.
  induction shares as [|s rest IH]; intros acc Hfit; cbn [fold_left fold_right].
  - lia.
  - pose proof (Hfit 1%nat) as H1. unfold prefixSum in H1. cbn in H1.
    rewrite Z.add_0_r in H1. rewrite (wrap_small _ H1).
    rewrite IH; [lia|].
    intros k. specialize (Hfit (S k)). rewrite prefixSum_cons in Hfit.
    now rewrite <- Z.add_assoc.
Qed.

Lemma pickLoop_any_sign (shares : list Z) : forall i0 rnd,
  0 <= rnd < fold_right Z.add 0 shares ->
  (forall k, Int64.in_range (rnd - prefixSum shares k)) ->
  exists k, pickLoop shares i0 rnd = Some (i0 + k)%nat /\
            (k < List.length shares)%nat.
Proof.
  induction shares as [|s rest IH]; intros i0 rnd Hrnd Hfit.
  - cbn in Hrnd. lia.
  - cbn [fold_right] in Hrnd. cbn [pickLoop].
    destruct (rnd <? s) eqn:Hlt.
    + exists 0%nat. rewrite Nat.add_0_r. cbn [List.length].
      split; [reflexivity | lia].
    + apply Z.ltb_ge in Hlt.
      pose proof (Hfit 1%nat) as H1. unfold prefixSum in H1. cbn in H1.
      rewrite Z.add_0_r in H1. rewrite (wrap_small _ H1).
      destruct (IH (S i0) (rnd - s)) as (k & Hpick & Hk); [lia | |].
      * intros k. specialize (Hfit (S k)). rewrite prefixSum_cons in Hfit.
        now replace (rnd - s - prefixSum rest k)
          with (rnd - (s + prefixSum rest k)) by lia.
      * exists (S k). rewrite Hpick. cbn [List.length].
        split; [f_equal; lia | lia].
Qed.

(** X7: [randomPick] panics in one place only.  Whatever the signs of the
    shares, as long as their partial sums stay far from the bounds of
    int64, it panics exactly when the sum of the shares is not positive
    (in [rand.Int], so for a generator without entries or with shares that
    are all 0); otherwise the loop returns at some index before it runs
    out of shares, so that its [panic("unreachable")] is never reached, and
    the builder at that index exists. *)
Theorem randomPick_panics_only_in_rand (r : WeightedRandomRequests) :
  List.length (reqBuilders r) = List.length (shares r) ->
  (forall k, - 2 ^ 62 <= prefixSum (shares r) k <= 2 ^ 62) ->
  sumShares (shares r) = fold_right Z.add 0 (shares r) /\
  (sumShares (shares r) <= 0 ->
   forall entropy, randomPick r entropy = None) /\
  (0 < sumShares (shares r) ->
   forall entropy,
     exists i builder,
       pickLoop (shares r) 0 (entropy mod sumShares (shares r)) = Some i /\
       randomPick r entropy = Some i /\
       nth_error (reqBuilders r) i = Some builder).
Proof.
  intros Hlen Hfit.
  assert (Hsum : sumShares (shares r) = fold_right Z.add 0 (shares r)).
  { unfold sumShares. rewrite sumShares_prefix; [lia|].
    intros k. specialize (Hfit k).
    unfold Int64.in_range, Int64.min, Int64.max. lia. }
  split; [exact Hsum|]. split.
  - intros Hle entropy. unfold randomPick, rand_Int.
    destruct (Z.leb_spec (sumShares (shares r)) 0); [reflexivity | lia].
  - intros Hpos entropy.
    pose proof (Z.mod_pos_bound entropy _ Hpos) as Hrnd.
    assert (Htot : fold_right Z.add 0 (shares r) <= 2 ^ 62).
    { specialize (Hfit (List.length (shares r))).
      unfold prefixSum in Hfit. rewrite firstn_all in Hfit. lia. }
    destruct (pickLoop_any_sign (shares r) 0
                (entropy mod sumShares (shares r)))
      as (i & Hpick & Hi); [lia | |].
    { intros k. specialize (Hfit k).
      unfold Int64.in_range, Int64.min, Int64.max. lia. }
    cbn [Nat.add] in Hpick.
    destruct (nth_error (reqBuilders r) i) as [builder|] eqn:Hnth.
    2:{ apply nth_error_None in Hnth. lia. }
    exists i, builder. split; [exact Hpick|]. split; [|exact Hnth].
    unfold randomPick, rand_Int.
    destruct (Z.leb_spec (sumShares (shares r)) 0); [lia|].
    now rewrite Hpick, Hnth.
Qed.

Lemma randomPick_panics_only_in_rand_witness :
  randomPick sampleGenerator 5 = Some 1%nat /\
  sumShares (shares sampleGenerator) = 3.
Proof.
  destruct (randomPick_panics_only_in_rand sampleGenerator)
    as (Hsum & _ & Hpick).
  - reflexivity.
  - intros k. unfold prefixSum.
    destruct k as [|[|[|k]]]; cbn; lia.
  - split; [reflexivity|]. rewrite Hsum. reflexivity.
Defined.

Section RunPanics.

Context {P W : Type}.
Variable ready : P -> W -> bool.
Variable receive : nat -> P -> list Context -> W -> option W.
Variable cancels : W -> list Context.

(** X8: [Run] picks a builder before it looks at the contexts, so on a
    generator whose shares do not sum to a positive number it panics in its
    first turn, whatever the total and whether or not a context is already
    cancelled: nothing is sent and the receivers are left as they were. *)
Theorem Run_panics_without_shares (r : WeightedRandomRequests)
    (callerCtx : Context) (total : Z) (env : nat -> RunEnv P) (w0 : W)
    (n : nat) :
  sumShares (shares r) <= 0 ->
  status (Run ready receive cancels r callerCtx total env w0 (S n)) = Panicked /\
  sent (Run ready receive cancels r callerCtx total env w0 (S n)) = [] /\
  receivers (Run ready receive cancels r callerCtx total env w0 (S n)) = w0.
Proof.
  intros Hsum.
  assert (Hpick : forall e, randomPick r e = None).
  { intros e. unfold randomPick, rand_Int.
    destruct (Z.leb_spec (sumShares (shares r)) 0); [reflexivity | lia]. }
  assert (H1 : Run ready receive cancels r callerCtx total env w0 1
               = {| status := Panicked; sum := 0; sent := [];
                    receivers := w0 |}).
  { cbn [Run]. unfold Run_step. cbn [status sum].
    replace ((0 <? total) && (total <=? 0)) with false.
    - now rewrite Hpick.
    - symmetry. apply andb_false_iff.
      destruct (Z.ltb_spec 0 total); [right; apply Z.leb_gt; lia | now left]. }
  rewrite (Run_stays_le ready receive cancels r callerCtx total env w0 1 (S n));
    [now rewrite H1 | lia | rewrite H1; discriminate].
Qed.

End RunPanics.

Lemma Run_panics_without_shares_witness :
  status (Run flagReady flagReceive flagCancels idleGenerator sampleCaller 3
              sampleRunEnv tt 1) = Panicked.
Proof.
  apply (Run_panics_without_shares flagReady flagReceive flagCancels
           idleGenerator sampleCaller 3 sampleRunEnv tt 0).
  vm_compute. discriminate.
Defined.

(** ** The scheduler after a cancellation *)



Section WindDown.

Context `{Collaborators}.
Variable callerCtx : Context.
Variable spec : LoadProfileSpec.
Variable restCli : list Interface.
Variable g : WeightedRandomRequests.
Variable env : nat -> RunEnv WorkerEnv.

Abbreviation wctx := (scheduleCtx callerCtx).
Abbreviation wrun := (scheduleRun callerCtx spec restCli g env).
Abbreviation workersAt n := (receivers (wrun n)).
Abbreviation wcancelled k :=
  (cancelledAt (workerCancels wctx) (env k) (workersAt k)).





(** The scheduler's context is done from turn [k] on: a worker has called
    [cancel] by then, or the caller's context is cancelled and stays so. *)
Abbreviation cancelledFrom k :=
  (cancelCalled (workersAt k) = true \/
   forall j, (k <= j)%nat -> Done (cancelled (env j)) callerCtx = true).









End WindDown.



(** ** The batches of [nodepool add] *)

Lemma batchCount_spec (totalNodes batchSize : Z) (j : nat) :
  0 < batchSize ->
  (j < batchCount totalNodes batchSize)%nat
  <-> Z.of_nat j * batchSize < totalNodes.
Proof.
  intros Hb. unfold batchCount.
  set (q := (totalNodes + batchSize - 1) / batchSize).
  assert (Hq : batchSize * q <= totalNodes + batchSize - 1
               < batchSize * (q + 1)).
  { unfold q.
    pose proof (Z.mul_div_le (totalNodes + batchSize - 1) batchSize Hb).
    pose proof (Z.mul_succ_div_gt (totalNodes + batchSize - 1) batchSize Hb).
    lia. }
  split; intros Hj.
  - assert (Z.of_nat j + 1 <= q) by lia. nia.
  - assert (Z.of_nat j < q) by nia. lia.
Qed.

Lemma addLoop_all (CreateNodepool : string -> Z -> option error)
    (nodepoolName : string) (totalNodes batchSize : Z) :
  0 < batchSize ->
  totalNodes + batchSize <= Int64.max ->
  (forall name count, CreateNodepool name count = None) ->
  forall (m : nat) (j : nat) (fuel : nat),
    (j + m = batchCount totalNodes batchSize)%nat ->
    (m < fuel)%nat ->
    nodepool.addLoop CreateNodepool nodepoolName totalNodes batchSize fuel
      (Z.of_nat j * batchSize)
    = Some (map (batchOf nodepoolName totalNodes batchSize) (seq j m), None).
Proof.
  intros Hb Hfit Hok. induction m as [|m IH]; intros j fuel Hjm Hfuel;
    (destruct fuel as [|fuel]; [lia|]); cbn [nodepool.addLoop seq map].
  - assert (Hge : ~ Z.of_nat j * batchSize < totalNodes).
    { rewrite <- batchCount_spec by exact Hb. lia. }
    destruct (Z.ltb_spec (Z.of_nat j * batchSize) totalNodes);
      [contradiction | reflexivity].
  - assert (Hlt : Z.of_nat j * batchSize < totalNodes).
    { rewrite <- batchCount_spec by exact Hb. lia. }
    destruct (Z.ltb_spec (Z.of_nat j * batchSize) totalNodes); [|lia].
    rewrite Hok.
    assert (Hw : Int64.wrap (Z.of_nat j * batchSize + batchSize)
                 = Z.of_nat (S j) * batchSize).
    { rewrite wrap_small;
        [lia | unfold Int64.in_range, Int64.min, Int64.max in *; nia]. }
    rewrite Hw, (IH (S j) fuel) by lia.
    f_equal. f_equal. f_equal. unfold batchOf. f_equal.
    + rewrite Z.quot_mul by lia. reflexivity.
    + destruct (Z.gtb_spec (Z.of_nat (S j) * batchSize) totalNodes).
      * rewrite wrap_small;
          [lia | unfold Int64.in_range, Int64.min, Int64.max in *; nia].
      * lia.
Qed.

Lemma batches_sum (nodepoolName : string) (totalNodes batchSize : Z) :
  0 < batchSize ->
  forall (m j : nat),
    (j + m = batchCount totalNodes batchSize)%nat ->
    nodesOf (map (batchOf nodepoolName totalNodes batchSize) (seq j m))
    = Z.max 0 (totalNodes - Z.of_nat j * batchSize) /\
    Forall (fun call => 1 <= snd call <= batchSize)
           (map (batchOf nodepoolName totalNodes batchSize) (seq j m)).
Proof.
  intros Hb. unfold nodesOf.
  induction m as [|m IH]; intros j Hjm; cbn [seq map fold_right].
  - assert (Hge : ~ Z.of_nat j * batchSize < totalNodes).
    { rewrite <- batchCount_spec by exact Hb. lia. }
    split; [lia | constructor].
  - assert (Hlt : Z.of_nat j * batchSize < totalNodes).
    { rewrite <- batchCount_spec by exact Hb. lia. }
    destruct (IH (S j) ltac:(lia)) as [-> Hall].
    split; [unfold batchOf; cbn [snd]; lia|].
    constructor; [unfold batchOf; cbn [snd]; lia | exact Hall].
Qed.

(** X11: [nodepool add] refuses a batch size that is not positive before
    it creates anything.  With a positive batch size, when every
    [CreateNodepool] succeeds, it creates the batches [{name}-0],
    [{name}-1], ... in this order, each but the last of [batchSize] nodes,
    the last of what remains: every batch has between 1 and [batchSize]
    nodes, the batches add up to [totalNodes], and no batch is created
    when [totalNodes] is not positive. *)
Theorem nodepool_add_batches (CreateNodepool : string -> Z -> option error)
    (nodepoolName : string) (totalNodes batchSize : Z) :
  (batchSize <= 0 ->
   forall fuel,
     nodepool.nodepoolAddCommand_Action CreateNodepool nodepoolName
       totalNodes batchSize fuel
     = Some ([], Some "batch-size must be greater than zero")) /\
  (0 < batchSize ->
   totalNodes + batchSize <= Int64.max ->
   (forall name count, CreateNodepool name count = None) ->
   let n := batchCount totalNodes batchSize in
   let batches := map (batchOf nodepoolName totalNodes batchSize) (seq 0 n) in
   (forall fuel, (n < fuel)%nat ->
      nodepool.nodepoolAddCommand_Action CreateNodepool nodepoolName
        totalNodes batchSize fuel
      = Some (batches, None)) /\
   nodesOf batches = Z.max 0 totalNodes /\
   Forall (fun call => 1 <= snd call <= batchSize) batches /\
   (totalNodes <= 0 -> batches = [])).
Proof.
  split.
  - intros Hb fuel. unfold nodepool.nodepoolAddCommand_Action.
    destruct (Z.leb_spec batchSize 0); [reflexivity | lia].
  - intros Hb Hfit Hok n batches.
    destruct (batches_sum nodepoolName totalNodes batchSize Hb n 0 eq_refl)
      as [Hsum Hall].
    split; [|split; [|split]].
    + intros fuel Hfuel. unfold nodepool.nodepoolAddCommand_Action.
      destruct (Z.leb_spec batchSize 0); [lia|].
      apply (addLoop_all CreateNodepool nodepoolName totalNodes batchSize
               Hb Hfit Hok n 0 fuel eq_refl Hfuel).
    + unfold batches. rewrite Hsum. f_equal. lia.
    + exact Hall.
    + intros Ht. unfold batches.
      assert (Hn : n = 0%nat).
      { destruct n as [|n'] eqn:Hn; [reflexivity|]. exfalso.
        assert (Hlt : (0 < batchCount totalNodes batchSize)%nat)
          by (fold n; lia).
        apply batchCount_spec in Hlt; lia. }
      now rewrite Hn.
Qed.

Lemma addLoop_stops (CreateNodepool : string -> Z -> option error)
    (nodepoolName : string) (totalNodes batchSize : Z) (fuel : nat) :
  forall i calls err,
    nodepool.addLoop CreateNodepool nodepoolName totalNodes batchSize fuel i
    = Some (calls, err) ->
    match err with
    | None =>
        Forall (fun call => CreateNodepool (fst call) (snd call) = None) calls
    | Some e =>
        exists done last e',
          calls = done ++ [last] /\
          Forall (fun call => CreateNodepool (fst call) (snd call) = None)
                 done /\
          CreateNodepool (fst last) (snd last) = Some e' /\
          e = ("failed to create nodepool batch " ++ fst last ++ ": " ++ e')%string
    end.
Proof.
  induction fuel as [|fuel IH]; intros i calls err Hloop;
    cbn [nodepool.addLoop] in Hloop; [discriminate|].
  destruct (i <? totalNodes).
  2:{ injection Hloop as <- <-. constructor. }
  match type of Hloop with
  | context [CreateNodepool ?n ?c] =>
      set (bname := n) in *; set (cur := c) in *
  end.
  destruct (CreateNodepool bname cur) as [e'|] eqn:Hc.
  - injection Hloop as <- <-.
    exists [], (bname, cur), e'. repeat split; auto.
  - destruct (nodepool.addLoop _ _ _ _ fuel _) as [[calls' err']|] eqn:Hrest;
      [|discriminate].
    injection Hloop as <- <-. specialize (IH _ _ _ Hrest).
    destruct err' as [e|].
    + destruct IH as (done & last & e' & -> & Hdone & Hlast & ->).
      exists ((bname, cur) :: done), last, e'.
      split; [reflexivity|]. split; [constructor; auto|].
      split; [exact Hlast | reflexivity].
    + constructor; auto.
Qed.

(** X12: [nodepool add] stops at the first batch that cannot be created:
    whenever it ends, every call of [CreateNodepool] it made but the last
    succeeded; it returns [nil] when the last succeeded too, and otherwise
    the error of the last call, wrapped with the name of that batch. *)
Theorem nodepool_add_stops_at_first_failure
    (CreateNodepool : string -> Z -> option error) (nodepoolName : string)
    (totalNodes batchSize : Z) (fuel : nat) (calls : list (string * Z))
    (err : option error) :
  0 < batchSize ->
  nodepool.nodepoolAddCommand_Action CreateNodepool nodepoolName totalNodes
    batchSize fuel = Some (calls, err) ->
  match err with
  | None =>
      Forall (fun call => CreateNodepool (fst call) (snd call) = None) calls
  | Some e =>
      exists done last e',
        calls = done ++ [last] /\
        Forall (fun call => CreateNodepool (fst call) (snd call) = None)
               done /\
        CreateNodepool (fst last) (snd last) = Some e' /\
        e = ("failed to create nodepool batch " ++ fst last ++ ": " ++ e')%string
  end.
Proof.
  intros Hb. unfold nodepool.nodepoolAddCommand_Action.
  destruct (Z.leb_spec batchSize 0); [lia|]. apply addLoop_stops.
Qed.

Lemma nodepool_add_stops_at_first_failure_witness :
  nodepool.nodepoolAddCommand_Action (failOn "pool-1") "pool" 700 300 5
  = Some ([("pool-0", 300); ("pool-1", 300)],
          Some "failed to create nodepool batch pool-1: timed out") /\
  exists done last e',
    [("pool-0", 300); ("pool-1", 300)] = done ++ [last] /\
    Forall (fun call => failOn "pool-1" (fst call) (snd call) = None) done /\
    failOn "pool-1" (fst last) (snd last) = Some e' /\
    "failed to create nodepool batch pool-1: timed out"
    = ("failed to create nodepool batch " ++ fst last ++ ": " ++ e')%string.
Proof.
  split; [reflexivity|].
  apply (nodepool_add_stops_at_first_failure (failOn "pool-1") "pool" 700
           300 5 [("pool-0", 300); ("pool-1", 300)]
           (Some "failed to create nodepool batch pool-1: timed out")).
  - lia.
  - reflexivity.
Defined.

Lemma nodepool_add_batches_witness :
  nodepool.nodepoolAddCommand_Action (fun _ _ => None) "pool" 700 300 4
  = Some ([("pool-0", 300); ("pool-1", 300); ("pool-2", 100)], None).
Proof.
  destruct (nodepool_add_batches (fun _ _ => None) "pool" 700 300)
    as [_ Hpos].
  destruct Hpos as (Hrun & _);
    [lia | unfold Int64.max; lia | reflexivity |].
  apply (Hrun 4%nat). vm_compute. lia.
Defined.

(** ** The configmap sets of runkperf *)

Lemma fillRunes_total (draws : nat -> Z + error) (len : nat) : forall i,
  configmaps.fillRunes draws len i <> None.
Proof.
  induction len as [|len IH]; intros i; cbn [configmaps.fillRunes];
    [discriminate|].
  destruct (draws i) as [entropy|err]; [|discriminate].
  destruct (nth_error _ _) as [rune|] eqn:Hnth.
  - specialize (IH (S i)).
    destruct (configmaps.fillRunes draws len (S i)) as [[rest|err]|];
      congruence.
  - apply nth_error_None in Hnth.
    pose proof (Z.mod_pos_bound entropy
                  (Z.of_nat (List.length configmaps.letterRunes))
                  ltac:(cbn; lia)).
    lia.
Qed.

Lemma fillRunes_letters (draws : nat -> Z + error) (len : nat) : forall i,
  (forall k, (i <= k < i + len)%nat -> exists z, draws k = inl z) ->
  exists s,
    configmaps.fillRunes draws len i = Some (inl s) /\
    String.length s = len /\
    Forall (fun c => In c configmaps.letterRunes) (list_ascii_of_string s).
Proof.
  induction len as [|len IH]; intros i Hdraws; cbn [configmaps.fillRunes].
  - exists EmptyString. repeat split. constructor.
  - destruct (Hdraws i ltac:(lia)) as [entropy ->].
    destruct (nth_error _ _) as [rune|] eqn:Hnth.
    + destruct (IH (S i)) as (rest & -> & Hlen & Hall).
      { intros k Hk. apply Hdraws. lia. }
      exists (String rune rest). split; [reflexivity|].
      split; [cbn; now rewrite Hlen|].
      cbn [list_ascii_of_string]. constructor; [|exact Hall].
      eapply nth_error_In; eauto.
    + exfalso. apply nth_error_None in Hnth.
      pose proof (Z.mod_pos_bound entropy
                    (Z.of_nat (List.length configmaps.letterRunes))
                    ltac:(cbn; lia)).
      lia.
Qed.

Lemma fillRunes_error (draws : nat -> Z + error) (len : nat) : forall i k err,
  (i <= k < i + len)%nat ->
  (forall j, (i <= j < k)%nat -> exists z, draws j = inl z) ->
  draws k = inr err ->
  configmaps.fillRunes draws len i
  = Some (inr ("error generating random number: " ++ err)%string).
Proof.
  induction len as [|len IH]; intros i k err Hk Hbefore Herr; [lia|].
  cbn [configmaps.fillRunes].
  destruct (Nat.eq_dec i k) as [->|Hne].
  - now rewrite Herr.
  - destruct (Hbefore i ltac:(lia)) as [entropy ->].
    destruct (nth_error _ _) as [rune|] eqn:Hnth.
    + rewrite (IH (S i) k err); [reflexivity | lia | | exact Herr].
      intros j Hj. apply Hbefore. lia.
    + exfalso. apply nth_error_None in Hnth.
      pose proof (Z.mod_pos_bound entropy
                    (Z.of_nat (List.length configmaps.letterRunes))
                    ltac:(cbn; lia)).
      lia.
Qed.

(** X13: [randString] refuses a length that is not positive; for a
    positive [n] it returns [n] characters, each one of the 52 letters,
    when the reader never fails, and the error of the first draw that
    fails, wrapped, otherwise.  The index into the letters is always in
    range: it never panics. *)
Theorem randString_letters (draws : nat -> Z + error) (n : Z) :
  configmaps.randString draws n <> None /\
  (n <= 0 ->
   configmaps.randString draws n = Some (inr "length must be positive")) /\
  (0 < n ->
   (forall k, (k < Z.to_nat n)%nat -> exists z, draws k = inl z) ->
   exists s,
     configmaps.randString draws n = Some (inl s) /\
     Z.of_nat (String.length s) = n /\
     Forall (fun c => In c configmaps.letterRunes)
            (list_ascii_of_string s)) /\
  (forall k err,
     (k < Z.to_nat n)%nat ->
     (forall j, (j < k)%nat -> exists z, draws j = inl z) ->
     draws k = inr err ->
     configmaps.randString draws n
     = Some (inr ("error generating random number: " ++ err)%string)).
Proof.
  unfold configmaps.randString. repeat apply conj.
  - destruct (n <=? 0); [discriminate | apply fillRunes_total].
  - intros Hn. destruct (Z.leb_spec n 0); [reflexivity | lia].
  - intros Hn Hdraws. destruct (Z.leb_spec n 0); [lia|].
    destruct (fillRunes_letters draws (Z.to_nat n) 0) as (s & Hs & Hlen & Hall).
    { intros k Hk. apply Hdraws. lia. }
    exists s. split; [exact Hs|]. split; [lia | exact Hall].
  - intros k err Hk Hbefore Herr. destruct (Z.leb_spec n 0); [lia|].
    apply (fillRunes_error draws (Z.to_nat n) 0 k err); [lia | | exact Herr].
    intros j Hj. apply Hbefore. lia.
Qed.

Section CreateConfigmaps.

Variable e : configmaps.CreateEnv.
Variable cmName : string.
Variables size groupSize total : Z.

Hypothesis Hparams : configmaps.checkConfigmapParams size groupSize total = None.
Hypothesis Hsize : size * 1024 <= Int64.max.
Hypothesis Htotal : total + groupSize <= Int64.max.
Hypothesis Hdraws : forall j i, exists z, configmaps.draws e j i = inl z.
Hypothesis Hcreate : forall cm, configmaps.Create e cm = None.

Lemma params_ok : 0 < size /\ 0 < groupSize <= total.
Proof.
  unfold configmaps.checkConfigmapParams in Hparams.
  destruct (Z.leb_spec size 0); [discriminate|].
  destruct (Z.leb_spec groupSize 0); [discriminate|].
  destruct (Z.leb_spec total 0); [discriminate|].
  destruct (Z.gtb_spec groupSize total); [discriminate|]. lia.
Qed.

Lemma dataOf_spec (j : nat) :
  configmaps.randString (configmaps.draws e (Z.of_nat j))
    (Int64.wrap (size * 1024))
  = Some (inl (dataOf e size j)) /\
  Z.of_nat (String.length (dataOf e size j)) = size * 1024 /\
  Forall (fun c => In c configmaps.letterRunes)
         (list_ascii_of_string (dataOf e size j)).
Proof.
  destruct params_ok as [Hs _].
  assert (Hw : Int64.wrap (size * 1024) = size * 1024).
  { apply wrap_small. unfold Int64.in_range, Int64.min, Int64.max in *. lia. }
  unfold dataOf. rewrite Hw.
  unfold configmaps.randString.
  destruct (Z.leb_spec (size * 1024) 0); [lia|].
  destruct (fillRunes_letters (configmaps.draws e (Z.of_nat j))
              (Z.to_nat (size * 1024)) 0) as (s & -> & Hlen & Hall).
  { intros k _. apply Hdraws. }
  split; [reflexivity|]. split; [lia | exact Hall].
Qed.

Lemma createOne_ok (q : Z) (j : nat) :
  0 <= q ->
  q * groupSize <= Z.of_nat j < q * groupSize + groupSize ->
  configmaps.createOne e cmName size (q * groupSize) (Z.of_nat j)
  = Some (Some (configmapOf e cmName size groupSize j), None).
Proof.
  intros Hq Hj. destruct params_ok as [_ Hg].
  unfold configmaps.createOne.
  destruct (dataOf_spec j) as [-> _]. rewrite Hcreate.
  unfold configmapOf, configmaps.appLebel.
  replace (Z.of_nat j / groupSize) with q; [reflexivity|].
  apply (Z.div_unique_pos _ _ q (Z.of_nat j - q * groupSize)); lia.
Qed.

Lemma groupLoop_ok (q : Z) : forall (m j fuel : nat),
  0 <= q ->
  q * groupSize < total ->
  q * groupSize <= Z.of_nat j ->
  Z.of_nat j + Z.of_nat m = Z.min (q * groupSize + groupSize) total ->
  (m < fuel)%nat ->
  configmaps.groupLoop e cmName size groupSize total (q * groupSize) fuel
    (Z.of_nat j)
  = Some (map (configmapOf e cmName size groupSize) (seq j m), []).
Proof.
  destruct params_ok as [_ Hg].
  induction m as [|m IH]; intros j fuel Hq Hi Hlo Hhi Hfuel;
    (destruct fuel as [|fuel]; [lia|]); cbn [configmaps.groupLoop seq map];
    rewrite (wrap_small (q * groupSize + groupSize))
      by (unfold Int64.in_range, Int64.min, Int64.max in *; nia).
  - replace ((Z.of_nat j <? q * groupSize + groupSize)
             && (Z.of_nat j <? total)) with false; [reflexivity|].
    symmetry. apply andb_false_iff.
    destruct (Z.ltb_spec (Z.of_nat j) (q * groupSize + groupSize));
      [right; apply Z.ltb_ge; lia | now left].
  - replace ((Z.of_nat j <? q * groupSize + groupSize)
             && (Z.of_nat j <? total)) with true
      by (symmetry; apply andb_true_iff; split; apply Z.ltb_lt; lia).
    rewrite createOne_ok by lia.
    rewrite (wrap_small (Z.of_nat j + 1))
      by (unfold Int64.in_range, Int64.min, Int64.max in *; lia).
    replace (Z.of_nat j + 1) with (Z.of_nat (S j)) by lia.
    rewrite (IH (S j) fuel) by lia. reflexivity.
Qed.

Lemma createLoop_ok : forall (n q fuel : nat),
  (q + n = batchCount total groupSize)%nat ->
  (Z.to_nat (total - Z.of_nat q * groupSize) < fuel)%nat ->
  configmaps.createLoop e cmName size groupSize total fuel
    (Z.of_nat q * groupSize)
  = Some (map (configmapOf e cmName size groupSize)
              (seq (Z.to_nat (Z.of_nat q * groupSize))
                   (Z.to_nat (total - Z.of_nat q * groupSize))),
          None).
Proof.
  destruct params_ok as [_ Hg].
  induction n as [|n IH]; intros q fuel Hqn Hfuel;
    (destruct fuel as [|fuel]; [lia|]); cbn [configmaps.createLoop].
  - assert (Hge : ~ Z.of_nat q * groupSize < total).
    { rewrite <- batchCount_spec by lia. lia. }
    destruct (Z.ltb_spec (Z.of_nat q * groupSize) total); [contradiction|].
    replace (Z.to_nat (total - Z.of_nat q * groupSize)) with 0%nat by lia.
    reflexivity.
  - assert (Hlt : Z.of_nat q * groupSize < total).
    { rewrite <- batchCount_spec by lia. lia. }
    destruct (Z.ltb_spec (Z.of_nat q * groupSize) total); [|lia].
    set (a := Z.to_nat (Z.of_nat q * groupSize)).
    set (R := Z.to_nat (total - Z.of_nat q * groupSize)).
    set (m := Z.to_nat (Z.min (Z.of_nat q * groupSize + groupSize) total
                        - Z.of_nat q * groupSize)).
    assert (Ha : Z.of_nat a = Z.of_nat q * groupSize) by (unfold a; nia).
    rewrite <- Ha at 2.
    rewrite (groupLoop_ok (Z.of_nat q) m a (S fuel)) by (unfold m, R in *; lia).
    rewrite (wrap_small (Z.of_nat q * groupSize + groupSize))
      by (unfold Int64.in_range, Int64.min, Int64.max in *; nia).
    replace (Z.of_nat q * groupSize + groupSize)
      with (Z.of_nat (S q) * groupSize) by lia.
    rewrite (IH (S q) fuel) by (unfold R in *; lia).
    rewrite <- map_app. f_equal. f_equal.
    replace (Z.of_nat (S q) * groupSize)
      with (Z.of_nat q * groupSize + groupSize) by lia.
    assert (Hp : 0 <= Z.of_nat q * groupSize) by nia.
    unfold a, R, m. clear a R m Ha Hfuel IH.
    set (p := Z.of_nat q * groupSize) in *. clearbody p.
    set (a := Z.to_nat p).
    set (R := Z.to_nat (total - p)).
    set (m := Z.to_nat (Z.min (p + groupSize) total - p)).
    destruct (Z.le_gt_cases (p + groupSize) total) as [Hle | Hgt].
    + replace (Z.to_nat (p + groupSize)) with (a + m)%nat
        by (unfold a, m; lia).
      replace (Z.to_nat (total - (p + groupSize)))
        with (R - m)%nat by (unfold R, m; lia).
      rewrite <- seq_app.
      replace (m + (R - m))%nat with R by (unfold R, m; lia). reflexivity.
    + replace (Z.to_nat (total - (p + groupSize))) with 0%nat by lia.
      cbn [seq]. rewrite app_nil_r.
      replace m with R by (unfold R, m; lia). reflexivity.
Qed.

Lemma configmapOf_names_distinct (n : nat) :
  NoDup (map (fun j => configmaps.cm_Name
                         (configmapOf e cmName size groupSize j))
             (seq 0 n)).
Proof.
  apply Finite.Injective_map_NoDup; [|apply seq_NoDup].
  intros j k Heq. cbn [configmapOf configmaps.cm_Name] in Heq.
  pose proof (dashed_name_inj ("runkperf-cm-" ++ cmName)
                ("runkperf-cm-" ++ cmName) (Z.of_nat j) (Z.of_nat k)
                ltac:(lia) ltac:(lia) Heq).
  lia.
Qed.

(** X14: with parameters that [checkConfigmapParams] lets through, a
    reader that never fails and a server that creates every configmap,
    [createConfigmaps] returns [nil] after it has sent exactly [total]
    configmaps, [runkperf-cm-{cmName}-0] to
    [runkperf-cm-{cmName}-{total-1}], in groups of [groupSize] (the last
    one of what remains): configmap [j] is labelled with the first index
    of its group as [ownerID], with [app=runkperf] and with the name of the
    set, and carries [size * 1024] letters as data.  The names are
    pairwise different. *)
Theorem createConfigmaps_creates_the_set (fuel : nat) :
  (Z.to_nat total < fuel)%nat ->
  let cms :=
    map (configmapOf e cmName size groupSize) (seq 0 (Z.to_nat total)) in
  configmaps.createConfigmaps e cmName size groupSize total fuel
  = Some (cms, None) /\
  Z.of_nat (List.length cms) = total /\
  NoDup (map configmaps.cm_Name cms) /\
  Forall (fun cm =>
            exists data,
              configmaps.cm_Data cm = [("data", data)] /\
              Z.of_nat (String.length data) = size * 1024 /\
              Forall (fun c => In c configmaps.letterRunes)
                     (list_ascii_of_string data)) cms.
Proof.
  intros Hfuel cms. destruct params_ok as [_ Hg].
  split; [|split; [|split]].
  - unfold configmaps.createConfigmaps.
    pose proof (createLoop_ok (batchCount total groupSize) 0 fuel eq_refl)
      as Hloop.
    cbn [Z.of_nat Z.mul] in Hloop. rewrite Z.sub_0_r in Hloop.
    apply Hloop. exact Hfuel.
  - unfold cms. rewrite length_map, length_seq. lia.
  - unfold cms. rewrite map_map. apply configmapOf_names_distinct.
  - unfold cms. apply Forall_forall. intros cm Hin.
    apply in_map_iff in Hin. destruct Hin as (j & <- & _).
    exists (dataOf e size j). split; [reflexivity|].
    destruct (dataOf_spec j) as (_ & Hlen & Hall). split; assumption.
Qed.

End CreateConfigmaps.
Lemma Atoi_Itoa (Quote : string -> string) (z : Z) :
  0 <= z <= Int64.max ->
  configmaps.Atoi Quote (Int64.fmt_d z) = inl z.
Proof.
  intros Hz. unfold configmaps.Atoi, Int64.fmt_d.
  assert (Hparse : NilZero.int_of_string (NilZero.string_of_int (Z.to_int z))
                   = Some (Z.to_int z)).
  { apply NilZero.isi; destruct z; simpl; try discriminate;
      intros [= Hnil]; revert Hnil; apply DecimalPos.Unsigned.to_uint_nonnil. }
  destruct (NilZero.string_of_int (Z.to_int z)) as [|a rest] eqn:Hs;
    [discriminate|].
  destruct (Ascii.eqb_spec a "+") as [->|Hplus].
  - exfalso. cbn in Hparse.
    destruct (NilEmpty.uint_of_string rest); discriminate.
  - rewrite Hparse. rewrite DecimalZ.of_to.
    replace ((Int64.min <=? z) && (z <=? Int64.max)) with true; [reflexivity|].
    symmetry. apply andb_true_iff. unfold Int64.min in *.
    split; apply Z.leb_le; lia.
Qed.

Section ListConfigmaps.

Variable Quote : string -> string.
Variable e : configmaps.CreateEnv.
Variable cmName : string.
Variables size groupSize total : Z.

Hypothesis Hgroup : 0 < groupSize.
Hypothesis Htotal : total <= Int64.max.

Abbreviation cmOf := (configmapOf e cmName size groupSize).
Abbreviation sizeOf := (Z.of_nat (String.length (dataOf e size 0))).

(** The group size the list shows after the first [a] configmaps. *)
Abbreviation shownAfter a := (if Z.of_nat a <=? groupSize then 0 else groupSize).

Lemma listStep_next (a : nat) (s : Z) :
  (1 <= a)%nat -> Z.of_nat a < total ->
  configmaps.listStep Quote [(cmName, (s, shownAfter a, Z.of_nat a))] (cmOf a)
  = ([(cmName, (s, shownAfter (S a), Z.of_nat (S a)))], None).
Proof.
  intros Ha Hlt. unfold configmaps.listStep.
  cbn [configmapOf configmaps.cm_Labels configmaps.lookup].
  rewrite !String.eqb_refl. cbn [String.eqb Ascii.eqb Bool.eqb andb].
  rewrite String.eqb_refl.
  rewrite (wrap_small (Z.of_nat a + 1))
    by (unfold Int64.in_range, Int64.min, Int64.max in *; lia).
  replace (Z.of_nat a + 1) with (Z.of_nat (S a)) by lia.
  cbn [configmaps.store]. rewrite String.eqb_refl.
  destruct (Z.leb_spec (Z.of_nat a) groupSize) as [Hle | Hgt].
  - cbn [Z.eqb negb].
    assert (Hq : Z.of_nat a / groupSize * groupSize
                 = if Z.of_nat a =? groupSize then groupSize else 0).
    { destruct (Z.eqb_spec (Z.of_nat a) groupSize) as [Heq | Hne].
      - rewrite Heq, Z.div_same by lia. lia.
      - rewrite Z.div_small by lia. lia. }
    rewrite Hq, Atoi_Itoa
      by (destruct (Z.eqb_spec (Z.of_nat a) groupSize);
          unfold Int64.max in *; lia).
    destruct (Z.eqb_spec (Z.of_nat a) groupSize) as [Heq | Hne].
    + destruct (Z.gtb_spec groupSize 0); [|lia].
      cbn [configmaps.store]. rewrite String.eqb_refl.
      destruct (Z.leb_spec (Z.of_nat (S a)) groupSize); [lia | reflexivity].
    + cbn [Z.gtb Z.compare].
      destruct (Z.leb_spec (Z.of_nat (S a)) groupSize); [reflexivity | lia].
  - replace (negb (groupSize =? 0)) with true
      by (symmetry; apply negb_true_iff, Z.eqb_neq; lia).
    destruct (Z.leb_spec (Z.of_nat (S a)) groupSize); [lia | reflexivity].
Qed.

Lemma listStep_first :
  0 < total ->
  configmaps.listStep Quote [] (cmOf 0)
  = ([(cmName, (sizeOf, shownAfter 1, 1))], None).
Proof.
  intros Ht. change (Z.of_nat 1) with 1. unfold configmaps.listStep.
  cbn [configmapOf configmaps.cm_Labels configmaps.cm_Data configmaps.lookup].
  rewrite !String.eqb_refl. cbn [String.eqb Ascii.eqb Bool.eqb andb].
  change (Int64.wrap (0 + 1)) with 1.
  cbn [configmaps.store Z.eqb negb Z.of_nat].
  rewrite String.eqb_refl.
  rewrite Z.div_0_l by lia. cbn [Z.mul].
  rewrite Atoi_Itoa by (unfold Int64.max; lia).
  cbn [Z.gtb Z.compare].
  destruct (Z.leb_spec 1 groupSize); [reflexivity | lia].
Qed.

Lemma listLoop_rest (s : Z) : forall (m a : nat),
  (1 <= a)%nat -> Z.of_nat (a + m) <= total ->
  configmaps.listLoop Quote [(cmName, (s, shownAfter a, Z.of_nat a))]
    (map cmOf (seq a m))
  = ([(cmName, (s, shownAfter (a + m), Z.of_nat (a + m)))], None).
Proof.
  induction m as [|m IH]; intros a Ha Hle; cbn [seq map configmaps.listLoop].
  - now rewrite Nat.add_0_r.
  - rewrite listStep_next by lia. rewrite (IH (S a)) by lia.
    now replace (S a + m)%nat with (a + S m)%nat by lia.
Qed.

Lemma listLoop_set :
  0 < total ->
  configmaps.listLoop Quote [] (map cmOf (seq 0 (Z.to_nat total)))
  = ([(cmName,
       (sizeOf, (if total <=? groupSize then 0 else groupSize), total))],
     None).
Proof.
  intros Ht.
  destruct (Z.to_nat total) as [|n] eqn:Hn; [lia|].
  cbn [seq map configmaps.listLoop]. rewrite listStep_first by exact Ht.
  pose proof (listLoop_rest sizeOf n 1 ltac:(lia) ltac:(lia)) as Hrest.
  change (Z.of_nat 1) with 1 in Hrest at 2. rewrite Hrest.
  replace (Z.of_nat (1 + n)) with total by lia. reflexivity.
Qed.

End ListConfigmaps.

(** X15: listing a set that was just created.  With parameters that
    [checkConfigmapParams] lets through, a reader that never fails and a
    server that creates every configmap and lists them in the order of their
    creation, [listConfigmapsByName] on an empty map returns [nil] and one
    entry for the set: its size is [size * 1024], its total is [total], and
    its group size is [groupSize] when the set has more than one group, but
    0 when the whole set is one group, as its only [ownerID] is 0 then.  An
    error of the list call is handed on, wrapped, with the map untouched. *)
Theorem list_after_create (Quote : string -> string)
    (e : configmaps.CreateEnv) (cmName : string) (size groupSize total : Z)
    (fuel : nat) :
  configmaps.checkConfigmapParams size groupSize total = None ->
  size * 1024 <= Int64.max ->
  total + groupSize <= Int64.max ->
  (forall j i, exists z, configmaps.draws e j i = inl z) ->
  (forall cm, configmaps.Create e cm = None) ->
  (Z.to_nat total < fuel)%nat ->
  (exists cms,
     configmaps.createConfigmaps e cmName size groupSize total fuel
     = Some (cms, None) /\
     configmaps.listConfigmapsByName Quote (inl cms) []
     = ([(cmName,
          (size * 1024, (if total =? groupSize then 0 else groupSize),
           total))],
        None)) /\
  (forall err cmMap,
     configmaps.listConfigmapsByName Quote (inr err) cmMap
     = (cmMap, Some ("failed to list configmaps: " ++ err)%string)).
Proof.
  intros Hparams Hsize Htotal Hdraws Hcreate Hfuel.
  split; [|reflexivity].
  destruct (params_ok size groupSize total Hparams) as [Hs Hg].
  destruct (createConfigmaps_creates_the_set e cmName size groupSize total
              Hparams Hsize Htotal Hdraws Hcreate fuel Hfuel)
    as (Hrun & _).
  eexists. split; [exact Hrun|].
  cbn [configmaps.listConfigmapsByName].
  rewrite (listLoop_set Quote e cmName size groupSize total) by lia.
  destruct (dataOf_spec e size groupSize total Hparams Hsize Hdraws 0)
    as (_ & -> & _).
  replace (total <=? groupSize) with (total =? groupSize); [reflexivity|].
  destruct (Z.eqb_spec total groupSize), (Z.leb_spec total groupSize);
    auto; lia.
Qed.

Lemma createConfigmaps_creates_the_set_witness :
  exists cms,
    configmaps.createConfigmaps calmEnv "web" 1 2 5 6 = Some (cms, None) /\
    map configmaps.cm_Name cms
    = ["runkperf-cm-web-0"; "runkperf-cm-web-1"; "runkperf-cm-web-2";
       "runkperf-cm-web-3"; "runkperf-cm-web-4"] /\
    map (fun cm => configmaps.lookup (configmaps.cm_Labels cm) "ownerID") cms
    = [Some "0"; Some "0"; Some "2"; Some "2"; Some "4"].
Proof.
  destruct (createConfigmaps_creates_the_set calmEnv "web" 1 2 5) with
    (fuel := 6%nat) as (Hrun & _).
  - reflexivity.
  - unfold Int64.max. lia.
  - unfold Int64.max. lia.
  - intros j i. eexists. reflexivity.
  - reflexivity.
  - cbn. lia.
  - eexists. split; [exact Hrun|]. split; reflexivity.
Defined.

Lemma list_after_create_witness :
  exists cms,
    configmaps.createConfigmaps calmEnv "web" 1 5 5 6 = Some (cms, None) /\
    configmaps.listConfigmapsByName (fun s => s) (inl cms) []
    = ([("web", (1024, 0, 5))], None).
Proof.
  destruct (list_after_create (fun s => s) calmEnv "web" 1 5 5 6)
    as [Hlist _].
  - reflexivity.
  - unfold Int64.max. lia.
  - unfold Int64.max. lia.
  - intros j i. eexists. reflexivity.
  - reflexivity.
  - cbn. lia.
  - exact Hlist.
Defined.

(** ** What the list shows *)

Lemma lookup_store {V : Type} (m : list (string * V)) (key key' : string)
    (v : V) :
  configmaps.lookup (configmaps.store m key v) key'
  = if String.eqb key key' then Some v else configmaps.lookup m key'.
Proof.
  induction m as [|[k v0] m IH]; cbn [configmaps.store configmaps.lookup].
  - reflexivity.
  - destruct (String.eqb_spec k key) as [->|Hk];
      cbn [configmaps.lookup].
    + destruct (String.eqb key key'); reflexivity.
    + rewrite IH.
      destruct (String.eqb_spec k key') as [->|Hk'];
        [|reflexivity].
      destruct (String.eqb_spec key key'); [congruence | reflexivity].
Qed.

Section ListTotals.

Variable Quote : string -> string.

(** One turn that does not end the loop counts the configmap in the entry
    of its set, and leaves the size of an entry that was there alone. *)
Lemma listStep_counts cmMap cm cmMap' :
  configmaps.listStep Quote cmMap cm = (cmMap', None) ->
  (forall name, 0 <= totalIn cmMap name < Int64.max) ->
  forall name,
    totalIn cmMap' name
    = totalIn cmMap name + (if inSet name cm then 1 else 0) /\
    (configmaps.lookup cmMap name <> None ->
     sizeIn cmMap' name = sizeIn cmMap name) /\
    (configmaps.lookup cmMap' name = None <->
     configmaps.lookup cmMap name = None /\ inSet name cm = false).
Proof.
  unfold configmaps.listStep, inSet. intros Hstep Hfit name.
  destruct (configmaps.lookup (configmaps.cm_Labels cm) "cmName")
    as [n|]; [|discriminate].
  pose proof (Hfit n) as Hn. unfold totalIn in Hn.
  set (entry := match configmaps.lookup cmMap n with
                | Some entry => entry
                | None => _
                end) in Hstep.
  assert (Hentry : 0 <= snd entry < Int64.max /\
                   (configmaps.lookup cmMap n <> None ->
                    fst (fst entry) = sizeIn cmMap n) /\
                   snd entry = totalIn cmMap n).
  { unfold entry, sizeIn, totalIn.
    destruct (configmaps.lookup cmMap n) as [[[s g] t]|]; cbn [fst snd];
      repeat split; try lia; congruence. }
  destruct entry as [[s g] t]. cbn [fst snd] in Hentry.
  destruct Hentry as (Ht & Hs & Htot).
  rewrite (wrap_small (t + 1)) in Hstep
    by (unfold Int64.in_range, Int64.min, Int64.max in *; lia).
  assert (Hresult : exists g',
            cmMap' = configmaps.store cmMap n (s, g', t + 1) \/
            cmMap' = configmaps.store (configmaps.store cmMap n (s, g, t + 1))
                       n (s, g', t + 1)).
  { destruct (negb (g =? 0)).
    - injection Hstep as <-. eauto.
    - destruct (configmaps.lookup (configmaps.cm_Labels cm) "ownerID")
        as [ownerID|]; [|discriminate].
      destruct (configmaps.Atoi Quote ownerID) as [z|]; [|discriminate].
      injection Hstep as <-. destruct (z >? g); eauto. }
  destruct Hresult as (g' & Hmap).
  assert (Hlook : configmaps.lookup cmMap' name
                  = if String.eqb n name then Some (s, g', t + 1)
                    else configmaps.lookup cmMap name).
  { destruct Hmap as [-> | ->]; rewrite !lookup_store;
      destruct (String.eqb n name); reflexivity. }
  unfold totalIn, sizeIn. rewrite Hlook.
  destruct (String.eqb_spec n name) as [<-|Hne].
  - split; [unfold totalIn in Htot; lia|]. split; [intros Hsome; auto|].
    split; [discriminate | intros [_ Hf]; discriminate].
  - split; [lia|]. split; [reflexivity|]. tauto.
Qed.

Lemma listLoop_counts items : forall cmMap cmMap',
  configmaps.listLoop Quote cmMap items = (cmMap', None) ->
  (forall name,
     0 <= totalIn cmMap name /\
     totalIn cmMap name + Z.of_nat (List.length items) <= Int64.max) ->
  forall name,
    totalIn cmMap' name
    = totalIn cmMap name
      + Z.of_nat (List.length (filter (inSet name) items)) /\
    (configmaps.lookup cmMap name <> None ->
     sizeIn cmMap' name = sizeIn cmMap name) /\
    (configmaps.lookup cmMap' name = None <->
     configmaps.lookup cmMap name = None /\ filter (inSet name) items = []).
Proof.
  induction items as [|cm items IH]; intros cmMap cmMap' Hloop Hfit name;
    cbn [configmaps.listLoop filter List.length] in *.
  - injection Hloop as <-. split; [lia|]. split; [reflexivity | tauto].
  - destruct (configmaps.listStep Quote cmMap cm) as [cmMap1 [err|]] eqn:Hstep;
      [discriminate|].
    assert (Hfit0 : forall n, 0 <= totalIn cmMap n < Int64.max).
    { intros n. specialize (Hfit n). lia. }
    pose proof (listStep_counts cmMap cm cmMap1 Hstep Hfit0) as Hone.
    assert (Hfit1 : forall n,
              0 <= totalIn cmMap1 n /\
              totalIn cmMap1 n + Z.of_nat (List.length items) <= Int64.max).
    { intros n. destruct (Hone n) as (-> & _). specialize (Hfit n).
      destruct (inSet n cm); lia. }
    destruct (IH cmMap1 cmMap' Hloop Hfit1 name) as (Ht & Hs & Hk).
    destruct (Hone name) as (Ht1 & Hs1 & Hk1).
    split; [|split].
    + rewrite Ht, Ht1. destruct (inSet name cm); cbn [List.length]; lia.
    + intros Hsome. rewrite Hs, Hs1; [reflexivity | exact Hsome|].
      intros Hnone. apply Hk1 in Hnone. tauto.
    + rewrite Hk, Hk1. destruct (inSet name cm); split;
        intros [Ha Hb]; try discriminate; try tauto.
      destruct Ha; discriminate.
Qed.

(** X17: whatever the server lists, when [listConfigmapsByName] returns
    [nil] on a new map, the map has an entry for exactly the sets that have
    a configmap in the list, and the total of an entry is the number of
    configmaps of its set in the list. *)
Theorem listConfigmapsByName_totals (items : list configmaps.ConfigMap)
    (cmMap : list (string * (Z * Z * Z))) :
  Z.of_nat (List.length items) <= Int64.max ->
  configmaps.listConfigmapsByName Quote (inl items) [] = (cmMap, None) ->
  forall name,
    totalIn cmMap name = Z.of_nat (List.length (filter (inSet name) items)) /\
    (configmaps.lookup cmMap name = None <-> filter (inSet name) items = []).
Proof.
  intros Hlen Hlist name. cbn [configmaps.listConfigmapsByName] in Hlist.
  destruct (listLoop_counts items [] cmMap Hlist) with (name := name)
    as (Ht & _ & Hk).
  { intros n. unfold totalIn. cbn [configmaps.lookup]. lia. }
  split; [exact Ht|]. rewrite Hk. cbn [configmaps.lookup]. tauto.
Qed.

End ListTotals.

Lemma listConfigmapsByName_totals_witness :
  configmaps.listConfigmapsByName (fun s => s) (inl sampleItems) []
  = ([("web", (0, 5, 2)); ("api", (3, 6, 1))], None) /\
  totalIn [("web", (0, 5, 2)); ("api", (3, 6, 1))] "web"
  = Z.of_nat (List.length (filter (inSet "web") sampleItems)).
Proof.
  split; [reflexivity|].
  apply (listConfigmapsByName_totals (fun s => s) sampleItems
           [("web", (0, 5, 2)); ("api", (3, 6, 1))]).
  - cbn. unfold Int64.max. lia.
  - reflexivity.
Defined.

(** ** The creator and the typer of unstructured objects *)

Section UnstructuredScheme.

Import unstructuredscheme.
Context `{Scheme}.

(** X16: the creator never fails: it hands back what the scheme creates,
    and for a kind the scheme cannot create an unstructured object set to
    that kind.  The typer answers with the scheme whenever the scheme
    answers; when it does not, an unstructured object with a kind that is
    not empty is typed by that kind alone (versioned), and for anything
    else the error of the scheme comes back.  So an object made by the
    creator for a kind that is not empty and that the scheme neither
    creates nor types is typed as that very kind. *)
Theorem creator_typer_round_trip (kind : GroupVersionKind) :
  snd (creator_New kind) = None /\
  (forall obj, objCreator_New kind = inl obj -> fst (creator_New kind) = obj) /\
  (forall err,
     objCreator_New kind = inr err ->
     fst (creator_New kind) = newUnstructured kind /\
     forall err',
       typer_ObjectKinds (newUnstructured kind) = inr err' ->
       ObjectKinds (fst (creator_New kind))
       = if Empty kind then inr err' else inl ([kind], false)) /\
  (forall obj kinds unversioned,
     typer_ObjectKinds obj = inl (kinds, unversioned) ->
     ObjectKinds obj = inl (kinds, unversioned)) /\
  (forall obj err,
     typer_ObjectKinds obj = inr err ->
     isUnstructured obj = false ->
     ObjectKinds obj = inr err).
Proof.
  unfold creator_New, ObjectKinds. repeat apply conj.
  - destruct (objCreator_New kind); reflexivity.
  - intros obj ->. reflexivity.
  - intros err ->. split; [reflexivity|].
    cbn [fst]. intros err' ->.
    cbn [isUnstructured objectKind newUnstructured andb].
    destruct (Empty kind); reflexivity.
  - intros obj kinds unversioned ->. reflexivity.
  - intros obj err -> ->. reflexivity.
Qed.

End UnstructuredScheme.

Lemma creator_typer_round_trip_witness :
  let kind := {| unstructuredscheme.gvk_Group := "batch";
                 unstructuredscheme.gvk_Version := "v1";
                 unstructuredscheme.gvk_Kind := "Job" |} in
  unstructuredscheme.ObjectKinds (H := metaScheme)
    (fst (unstructuredscheme.creator_New (H := metaScheme) kind))
  = inl ([kind], false).
Proof.
  intros kind.
  destruct (creator_typer_round_trip (H := metaScheme) kind)
    as (_ & _ & Hfallback & _).
  destruct (Hfallback "no kind is registered" eq_refl) as [_ Htyped].
  exact (Htyped "no kind is registered for the type" eq_refl).
Defined.

(** ** Deleting a configmap set *)

Lemma skipn_nth_error {A} (l : list A) : forall j x,
  nth_error l j = Some x -> skipn j l = x :: skipn (S j) l.
Proof.
  induction l as [|y l IH]; intros [|j] x Hnth; cbn in *; try discriminate.
  - now injection Hnth as ->.
  - now apply IH.
Qed.

Section DeleteConfigmaps.

Variable e : configmaps.DeleteEnv.
Variable items : list configmaps.ConfigMap.

Abbreviation itemCount := (Z.of_nat (List.length items)).

Hypothesis Hfit : itemCount + 10 <= Int64.max.
Hypothesis Hgone :
  forall cm err,
    In cm items ->
    configmaps.Delete e (configmaps.cm_Name cm) = Some err ->
    configmaps.IsNotFound e err = true.

Lemma deleteOne_ok (j : nat) (cm : configmaps.ConfigMap) :
  nth_error items j = Some cm ->
  configmaps.deleteOne e items (Z.of_nat j)
  = Some (configmaps.cm_Name cm, None).
Proof.
  intros Hnth. unfold configmaps.deleteOne. rewrite Nat2Z.id, Hnth.
  destruct (configmaps.Delete e (configmaps.cm_Name cm)) as [err|] eqn:Hd;
    [|reflexivity].
  rewrite (Hgone cm err (nth_error_In _ _ Hnth) Hd). reflexivity.
Qed.

Lemma deleteGroup_ok (a : nat) : forall (m j fuel : nat),
  (a < List.length items)%nat ->
  (a <= j)%nat ->
  (j + m = Nat.min (a + 10) (List.length items))%nat ->
  (m < fuel)%nat ->
  configmaps.deleteGroup e items itemCount 10 (Z.of_nat a) fuel (Z.of_nat j)
  = Some (map configmaps.cm_Name (firstn m (skipn j items)), []).
Proof.
  induction m as [|m IH]; intros j fuel Ha Hlo Hhi Hfuel;
    (destruct fuel as [|fuel]; [lia|]); cbn [configmaps.deleteGroup];
    rewrite (wrap_small (Z.of_nat a + 10))
      by (unfold Int64.in_range, Int64.min, Int64.max in *; lia).
  - replace ((Z.of_nat j <? Z.of_nat a + 10) && (Z.of_nat j <? itemCount))
      with false; [reflexivity|].
    symmetry. apply andb_false_iff.
    destruct (Z.ltb_spec (Z.of_nat j) (Z.of_nat a + 10));
      [right; apply Z.ltb_ge; lia | now left].
  - replace ((Z.of_nat j <? Z.of_nat a + 10) && (Z.of_nat j <? itemCount))
      with true
      by (symmetry; apply andb_true_iff; split; apply Z.ltb_lt; lia).
    destruct (nth_error items j) as [cm|] eqn:Hnth.
    2:{ apply nth_error_None in Hnth. lia. }
    rewrite (deleteOne_ok j cm Hnth).
    rewrite (wrap_small (Z.of_nat j + 1))
      by (unfold Int64.in_range, Int64.min, Int64.max in *; lia).
    replace (Z.of_nat j + 1) with (Z.of_nat (S j)) by lia.
    rewrite (IH (S j) fuel) by lia.
    rewrite (skipn_nth_error items j cm Hnth). reflexivity.
Qed.

Lemma deleteLoop_ok : forall (n q fuel : nat),
  (q + n = batchCount itemCount 10)%nat ->
  (List.length items - q * 10 < fuel)%nat ->
  configmaps.deleteLoop e items itemCount 10 fuel (Z.of_nat (q * 10))
  = Some (map configmaps.cm_Name (skipn (q * 10) items), None).
Proof.
  induction n as [|n IH]; intros q fuel Hqn Hfuel;
    (destruct fuel as [|fuel]; [lia|]); cbn [configmaps.deleteLoop].
  - assert (Hge : ~ Z.of_nat q * 10 < itemCount).
    { rewrite <- batchCount_spec by lia. lia. }
    destruct (Z.ltb_spec (Z.of_nat (q * 10)) itemCount); [lia|].
    rewrite skipn_all2 by lia. reflexivity.
  - assert (Hlt : Z.of_nat q * 10 < itemCount).
    { rewrite <- batchCount_spec by lia. lia. }
    destruct (Z.ltb_spec (Z.of_nat (q * 10)) itemCount); [|lia].
    set (m := (Nat.min (q * 10 + 10) (List.length items) - q * 10)%nat).
    rewrite (deleteGroup_ok (q * 10) m (q * 10) (S fuel)) by (unfold m; lia).
    rewrite (wrap_small (Z.of_nat (q * 10) + 10))
      by (unfold Int64.in_range, Int64.min, Int64.max in *; lia).
    replace (Z.of_nat (q * 10) + 10) with (Z.of_nat (S q * 10)) by lia.
    rewrite (IH (S q) fuel) by lia.
    rewrite <- map_app. f_equal. f_equal.
    rewrite <- (firstn_skipn m (skipn (q * 10) items)) at 2.
    f_equal. rewrite skipn_skipn.
    destruct (Nat.le_gt_cases (S q * 10) (List.length items)).
    + replace (m + q * 10)%nat with (S q * 10)%nat by (unfold m; lia).
      reflexivity.
    + assert (Hm : (m + q * 10 = List.length items)%nat)
        by (unfold m; cbn [Nat.mul] in *; lia).
      rewrite Hm, (skipn_all2 items (n := S q * 10)) by lia.
      now rewrite skipn_all.
Qed.

(** X18: [deleteConfigmaps] hands on the error of the list call, wrapped,
    and refuses an empty list, in both cases without deleting anything.
    Otherwise, when no [Delete] fails for another reason than that the
    configmap is gone already, it calls [Delete] once for every configmap
    listed, in the order of the list, and returns [nil]. *)
Theorem deleteConfigmaps_deletes_every_item (namespace : string)
    (fuel : nat) :
  (List.length items < fuel)%nat ->
  (forall err,
     configmaps.deleteConfigmaps (inr err) e namespace fuel
     = Some ([], Some ("failed to list configmaps: " ++ err)%string)) /\
  configmaps.deleteConfigmaps (inl []) e namespace fuel
  = Some ([],
          Some ("no configmaps set found in namespace: " ++ namespace)%string) /\
  (items <> [] ->
   configmaps.deleteConfigmaps (inl items) e namespace fuel
   = Some (map configmaps.cm_Name items, None)).
Proof.
  intros Hfuel. split; [reflexivity|]. split; [reflexivity|].
  intros Hne. unfold configmaps.deleteConfigmaps.
  destruct (Nat.eqb_spec (List.length items) 0) as [Hzero|_].
  { apply length_zero_iff_nil in Hzero. contradiction. }
  apply (deleteLoop_ok (batchCount itemCount 10) 0 fuel eq_refl).
  lia.
Qed.

End DeleteConfigmaps.

Lemma deleteConfigmaps_deletes_every_item_witness :
  configmaps.deleteConfigmaps (inl sampleItems) lossyDeletes "default" 4
  = Some (["runkperf-cm-web-0"; "runkperf-cm-api-7"; "runkperf-cm-web-1"],
          None).
Proof.
  destruct (deleteConfigmaps_deletes_every_item lossyDeletes sampleItems)
    with (namespace := "default") (fuel := 4%nat) as (_ & _ & Hall).
  - cbn. unfold Int64.max. lia.
  - intros cm err Hin Hd. unfold lossyDeletes in *.
    cbn [configmaps.Delete configmaps.IsNotFound] in *.
    destruct (String.eqb _ _); [|discriminate].
    now injection Hd as <-.
  - cbn. lia.
  - apply Hall. discriminate.
Defined.
